(** * Money Notes: the analytics and aggregation computations

    A shallow embedding of the view computations of the Money Notes app
    (the [useMemo] bodies of [App], [AnalyticsModal] and [PriceWatchModal])
    together with the properties the written specification states about
    them.

    Conventions of the embedding.
    - A JavaScript [number] is embedded twice.  In the modules that follow
      the source file by file it is an exact rational ([Q]), compared with
      [==]; [NaN] and the infinities are not represented there.  The
      statements made on this embedding are of the kinds that hold of
      binary64 numbers as well: which keys and rows a computation
      produces, orders and signs, which rounding, being monotone,
      preserves, and figures that both sides of an equation build by the
      same operations in the same order.  Where a statement turns on
      rounding, which depends on the order of the additions, the
      computation is embedded once more in [Binary64], on the primitive
      binary64 numbers of Rocq, and the statement is made there.
    - A JavaScript string is a [string] of 8-bit characters.  The labels of
      the app that are written in Chinese appear as their UTF-8 bytes.
    - A [Map] and a plain object used as a dictionary are association
      lists in insertion order with at most one binding per key.
    - [Array.prototype.sort] is stable; it is an insertion sort here.
    - What a computation takes from its host is a parameter of it: the
      reading of the clock ([nowISO]), the offset of local time from UTC
      ([localTZA]) and the collation of strings ([localeCompare]).
    - The fields of the object literals of the source keep their names,
      behind a prefix that tells the records apart ([nv_], [mh_], [bs_],
      [tr_], [pr_]). *)

From Stdlib Require Import QArith Qminmax ZArith String Ascii List Bool.
From Stdlib Require Import DecimalString.
From Stdlib Require Import Permutation Sorted Lia Lqa.
From Stdlib Require PrimFloat Uint63 Floats.
Import ListNotations.

Open Scope string_scope.
Open Scope Q_scope.

(** ** The fragment of the JavaScript library the code uses *)

Module JS.

Abbreviation number := Q (only parsing).

(** [a > b] on numbers. *)
Definition gtb (a b : number) : bool := negb (Qle_bool a b).

(** [a === b] on numbers. *)
Definition eqb (a b : number) : bool := Qeq_bool a b.

(** [Array.prototype.reduce((sum, x) => sum + f(x), 0)]. *)
Definition sumBy {A} (f : A -> number) (l : list A) : number :=
  fold_left (fun sum x => sum + f x) l 0.

(** *** Strings *)

(** [String.prototype.substring(a, b)]: the indices are swapped when
    [a > b] and clamped to the length. *)
Definition substring (a b : nat) (s : string) : string :=
  String.substring (Nat.min a b) (Nat.max a b - Nat.min a b) s.

(** [s.startsWith(p)]. *)
Definition startsWith (s p : string) : bool := String.prefix p s.

(** White space and line terminators below U+0080: TAB, LF, VT, FF, CR
    and SPACE.  The white space beyond, which [trim] strips as well
    (U+00A0, U+FEFF, the line separators and the spaces of Unicode, all of
    several bytes here), is left in place: [trim] below is that of the
    source on names without such characters at their ends. *)
Definition isWhiteSpace (c : ascii) : bool :=
  match nat_of_ascii c with
  | 9%nat | 10%nat | 11%nat | 12%nat | 13%nat | 32%nat => true
  | _ => false
  end.

Fixpoint trimStart (s : string) : string :=
  match s with
  | EmptyString => EmptyString
  | String c s' => if isWhiteSpace c then trimStart s' else s
  end.

Fixpoint trimEnd (s : string) : string :=
  match s with
  | EmptyString => EmptyString
  | String c s' =>
      match trimEnd s' with
      | EmptyString => if isWhiteSpace c then EmptyString else String c EmptyString
      | r => String c r
      end
  end.

(** [String.prototype.trim()]. *)
Definition trim (s : string) : string := trimEnd (trimStart s).

(** [s || d] on strings: the empty string is falsy. *)
Definition strOr (s d : string) : string :=
  if String.eqb s "" then d else s.

(** *** [Map<string, V>], in insertion order *)

Section MAP.
Context {V : Type}.

Definition Map := list (string * V).

Fixpoint get (k : string) (m : Map) : option V :=
  match m with
  | [] => None
  | (k', v) :: m' => if String.eqb k k' then Some v else get k m'
  end.

Definition has (k : string) (m : Map) : bool :=
  match get k m with Some _ => true | None => false end.

(** [m.set(k, v)]: an existing key keeps its position, a new key goes
    last. *)
Fixpoint set (k : string) (v : V) (m : Map) : Map :=
  match m with
  | [] => [(k, v)]
  | (k', v') :: m' =>
      if String.eqb k k' then (k, v) :: m' else (k', v') :: set k v m'
  end.

(** The idiom [if (!m.has(k)) m.set(k, init); const entry = m.get(k)!;]
    followed by an update of [entry] in place, which [f] describes. *)
Definition upsert (k : string) (init : V) (f : V -> V) (m : Map) : Map :=
  let m := if has k m then m else set k init m in
  match get k m with
  | Some entry => set k (f entry) m
  | None => m
  end.

Definition keys (m : Map) : list string := map fst m.
Definition values (m : Map) : list V := map snd m.

End MAP.
Arguments Map V : clear implicits.

(** [x || 0] for a possibly missing number. *)
Definition orZero (o : option number) : number :=
  match o with
  | Some v => if Qeq_bool v 0 then 0 else v
  | None => 0
  end.

(** *** [Array.prototype.sort(cmp)] *)

Section SORT.
Context {A : Type}.
Variable cmp : A -> A -> number.

(** [x] stood before every element of [l] in the input: it stays in
    front of the elements it does not compare greater than. *)
Fixpoint insert (x : A) (l : list A) : list A :=
  match l with
  | [] => [x]
  | y :: l' => if gtb (cmp x y) 0 then y :: insert x l' else x :: l
  end.

Definition sort (l : list A) : list A := fold_right insert [] l.
End SORT.

(** *** Plain objects used as dictionaries

    An object is the association list of its own string-keyed properties
    in creation order.  [Object.entries] lists the keys that are array
    indices first, in ascending numeric order, and then the other keys in
    creation order.  Properties inherited from [Object.prototype] are
    not represented: where the source reads a key of an object literal,
    the definitions are those of the source for the keys that are not
    the name of such a property ([inheritedNames] below). *)

Definition digit (c : ascii) : option Z :=
  let n := nat_of_ascii c in
  if (48 <=? n)%nat && (n <=? 57)%nat then Some (Z.of_nat (n - 48)) else None.

Fixpoint digitsValue (acc : Z) (s : string) : option Z :=
  match s with
  | EmptyString => Some acc
  | String c s' =>
      match digit c with
      | Some d => digitsValue (10 * acc + d)%Z s'
      | None => None
      end
  end.

(** The array index a key denotes, if it is the canonical decimal form of
    an integer in 0 .. 2^32 - 2. *)
Definition arrayIndex (k : string) : option Z :=
  match k with
  | EmptyString => None
  | String c rest =>
      if Ascii.eqb c "0" && negb (String.eqb rest "") then None
      else match digitsValue 0 k with
           | Some n => if (n <=? 4294967294)%Z then Some n else None
           | None => None
           end
  end.

Definition isArrayIndex (k : string) : bool :=
  match arrayIndex k with Some _ => true | None => false end.

Definition indexOrder {V} (a b : string * V) : number :=
  match arrayIndex (fst a), arrayIndex (fst b) with
  | Some i, Some j => inject_Z (i - j)
  | _, _ => 0
  end.

Definition entries {V} (o : Map V) : list (string * V) :=
  (sort indexOrder (filter (fun e => isArrayIndex (fst e)) o)
   ++ filter (fun e => negb (isArrayIndex (fst e))) o)%list.

(** *** Numbers as text *)

(** [String(n)] for an integer [n]. *)
Definition intToString (n : Z) : string :=
  NilZero.string_of_int (Z.to_int n).

(** [s.padStart(2, '0')]. *)
Definition padStart2 (s : string) : string :=
  match String.length s with
  | O => "00"
  | 1%nat => "0" ++ s
  | _ => s
  end.

(** *** [Date]

    Time values are milliseconds since the epoch, in UTC.  The only
    textual form represented is the date-only form [YYYY-MM-DD] of the
    date-time string format, which is read as UTC midnight of that day;
    it is the form every producer of the app writes.  [None] stands for
    every other string: an invalid date, a date-time, or a form whose
    reading is left to the host, such as a day past the end of its month.
    What is stated of [getTime], and of the keys and orders computed from
    it, is stated of dates of the date-only form. *)

Definition msPerDay : Z := 86400000.

Definition isLeapYear (y : Z) : bool :=
  ((y mod 4 =? 0) && negb (y mod 100 =? 0) || (y mod 400 =? 0))%Z.

Definition daysInMonth (y m : Z) : Z :=
  if (m =? 2)%Z then (if isLeapYear y then 29 else 28)
  else if ((m =? 4) || (m =? 6) || (m =? 9) || (m =? 11))%Z then 30
  else 31.

(** The proleptic Gregorian calendar, with years counted from the first
    of March in cycles of 400 years: [yearStart] is the first day of a
    year of the cycle, [monthStart] the first day of a month of such a
    year, and [yearOfEra] and [monthOfDay] find the year and the month of a
    day. *)
Definition yearStart (yoe : Z) : Z := (yoe * 365 + yoe / 4 - yoe / 100)%Z.

Definition monthStart (mp : Z) : Z := ((153 * mp + 2) / 5)%Z.

Definition monthFromMarch (m : Z) : Z := (if 2 <? m then m - 3 else m + 9)%Z.

Definition yearOfEra (doe : Z) : Z :=
  ((doe - doe / 1460 + doe / 36524 - doe / 146096) / 365)%Z.

Definition monthOfDay (doy : Z) : Z := ((5 * doy + 2) / 153)%Z.

(** Days from the epoch to the civil date [y]-[m]-[d] ([m] in 1 .. 12). *)
Definition daysFromCivil (y m d : Z) : Z :=
  let y' := (if m <=? 2 then y - 1 else y)%Z in
  let era := (y' / 400)%Z in
  let yoe := (y' mod 400)%Z in
  let doy := (monthStart (monthFromMarch m) + d - 1)%Z in
  let doe := (yearStart yoe + doy)%Z in
  (era * 146097 + doe - 719468)%Z.

(** The civil date [(year, month, day)] of a day number. *)
Definition civilFromDays (z : Z) : Z * Z * Z :=
  let z := (z + 719468)%Z in
  let era := (z / 146097)%Z in
  let doe := (z mod 146097)%Z in
  let yoe := yearOfEra doe in
  let doy := (doe - yearStart yoe)%Z in
  let mp := monthOfDay doy in
  let d := (doy - monthStart mp + 1)%Z in
  let m := (if mp <? 10 then mp + 3 else mp - 9)%Z in
  let y := (yoe + era * 400)%Z in
  ((if m <=? 2 then y + 1 else y)%Z, m, d).

Definition parseDateOnly (s : string) : option (Z * Z * Z) :=
  match list_ascii_of_string s with
  | [y1; y2; y3; y4; h1; m1; m2; h2; d1; d2] =>
      if Ascii.eqb h1 "-" && Ascii.eqb h2 "-" then
        match digitsValue 0 (string_of_list_ascii [y1; y2; y3; y4]),
              digitsValue 0 (string_of_list_ascii [m1; m2]),
              digitsValue 0 (string_of_list_ascii [d1; d2]) with
        | Some y, Some m, Some d =>
            if ((1 <=? m) && (m <=? 12) && (1 <=? d)
                && (d <=? daysInMonth y m))%Z
            then Some (y, m, d) else None
        | _, _, _ => None
        end
      else None
  | _ => None
  end.

(** [new Date(s).getTime()]; [None] is [NaN]. *)
Definition getTime (s : string) : option Z :=
  match parseDateOnly s with
  | Some (y, m, d) => Some (daysFromCivil y m d * msPerDay)%Z
  | None => None
  end.

(** [getFullYear()] and [getMonth()] of a time value, for a host whose
    local time is [localTZA t] milliseconds ahead of UTC at [t]. *)
Definition getFullYear (localTZA : Z -> Z) (t : Z) : Z :=
  fst (fst (civilFromDays ((t + localTZA t) / msPerDay))).

Definition getMonth (localTZA : Z -> Z) (t : Z) : Z :=
  (snd (fst (civilFromDays ((t + localTZA t) / msPerDay))) - 1)%Z.

(** [s.split(sep)], with [cur] the piece read so far. *)
Fixpoint splitOn (sep : ascii) (cur : string) (s : string) : list string :=
  match s with
  | EmptyString => [cur]
  | String c s' =>
      if Ascii.eqb c sep then cur :: splitOn sep EmptyString s'
      else splitOn sep (cur ++ String c EmptyString) s'
  end.

(** The order of [sort()] without a comparison function: the strings are
    compared by their code units.  On the 8-bit strings of the embedding
    this is the order of the bytes, which is the order of the code units
    for all characters up to U+D7FF. *)
Definition defaultCompare (a b : string) : number :=
  match String.compare a b with Lt => -1 | Eq => 0 | Gt => 1 end.

(** *** Time values and local time

    [Day], [TimeWithinDay], [WeekDay], [YearFromTime], [MonthFromTime]
    and [DateFromTime] of a time value. *)
Definition Day (t : Z) : Z := (t / msPerDay)%Z.
Definition TimeWithinDay (t : Z) : Z := (t mod msPerDay)%Z.
Definition WeekDay (t : Z) : Z := ((Day t + 4) mod 7)%Z.
Definition YearFromTime (t : Z) : Z := fst (fst (civilFromDays (Day t))).
Definition MonthFromTime (t : Z) : Z :=
  (snd (fst (civilFromDays (Day t))) - 1)%Z.
Definition DateFromTime (t : Z) : Z := snd (civilFromDays (Day t)).

(** [MakeDay] and [MakeDate] on integers, for the years that time values
    have. *)
Definition MakeDay (year month date : Z) : Z :=
  (daysFromCivil (year + month / 12) (month mod 12 + 1) 1 + date - 1)%Z.
Definition MakeDate (day time : Z) : Z := (day * msPerDay + time)%Z.

(** [TimeClip]: beyond 8.64e15 milliseconds there is no time value. *)
Definition maxTime : Z := 8640000000000000.
Definition TimeClip (t : Z) : option Z :=
  if (Z.abs t <=? maxTime)%Z then Some t else None.

Section LOCAL.
(** [LocalTZA(t, true)] and [LocalTZA(t, false)] of the host: the offset
    of local time at a time value, and at a local time. *)
Variable localTZA : Z -> Z.
Variable localTZAofLocal : Z -> Z.

Definition LocalTime (t : Z) : Z := (t + localTZA t)%Z.
Definition UTC (t : Z) : Z := (t - localTZAofLocal t)%Z.

Definition getDate (t : Z) : Z := DateFromTime (LocalTime t).
Definition getDay (t : Z) : Z := WeekDay (LocalTime t).

(** [d.setDate(dt)]: the new time value of [d]; [None] is [NaN]. *)
Definition setDate (dt : Z) (t : Z) : option Z :=
  let t' := LocalTime t in
  let newDate :=
    MakeDate (MakeDay (YearFromTime t') (MonthFromTime t') dt)
             (TimeWithinDay t') in
  TimeClip (UTC newDate).
End LOCAL.

(** [s.padStart(n, '0')]. *)
Definition padStart (n : nat) (s : string) : string :=
  string_of_list_ascii (repeat "0"%char (n - String.length s)) ++ s.

(** The year of [toISOString]: four digits from 0 to 9999, a sign and six
    digits otherwise. *)
Definition isoYear (y : Z) : string :=
  if ((0 <=? y) && (y <=? 9999))%Z then padStart 4 (intToString y)
  else (if (y <? 0)%Z then "-" else "+") ++ padStart 6 (intToString (Z.abs y)).

(** The part of [toISOString()] before the [T], for a day number. *)
Definition isoDate (day : Z) : string :=
  let '(y, m, d) := civilFromDays day in
  isoYear y ++ "-" ++ padStart 2 (intToString m)
  ++ "-" ++ padStart 2 (intToString d).

End JS.

(** ** types.ts *)

Inductive TransactionType := expense | income.

Record ReceiptItem := {
  name : string;
  price : JS.number;
  quantity : option positive
}.

(** [type] is [None] for a legacy record saved before the field existed. *)
Record Transaction := {
  id : string;
  type : option TransactionType;
  amountAUD : JS.number;
  amountTWD : JS.number;
  category : string;
  date : string;
  note : string;
  items : option (list ReceiptItem);
  tax : option JS.number;
  superannuation : option JS.number
}.

(** The labels of the [Category] and [IncomeCategory] enumerations, in the
    order of their declaration. *)
Module Category.
Definition RENT := "房租住宿".
Definition GROCERIES := "超市雜貨".
Definition DINING := "外食咖啡".
Definition TRANSPORT := "大眾交通".
Definition CAR := "養車油資".
Definition ELECTRICITY := "電費".
Definition WATER := "水費".
Definition GAS := "天然氣".
Definition INTERNET := "家用網路".
Definition MOBILE := "手機通訊".
Definition SHOPPING := "購物治裝".
Definition ENTERTAINMENT := "娛樂訂閱".
Definition HEALTH := "醫療保險".
Definition EDUCATION := "教育簽證".
Definition LOAN := "貸款還款".
Definition PETS := "寵物毛孩".
Definition TRAVEL := "旅遊度假".
Definition OTHER := "其他雜項".

(** [Object.values(Category)]. *)
Definition values : list string :=
  [RENT; GROCERIES; DINING; TRANSPORT; CAR; ELECTRICITY; WATER; GAS;
   INTERNET; MOBILE; SHOPPING; ENTERTAINMENT; HEALTH; EDUCATION; LOAN;
   PETS; TRAVEL; OTHER].
End Category.

Module IncomeCategory.
Definition SALARY_FULL := "正職薪資".
Definition SALARY_CASUAL := "兼職打工".
Definition TAX_REFUND := "年度退稅".
Definition BONUS := "獎金紅包".
Definition INVESTMENT := "投資理財".
Definition SECOND_HAND := "二手拍賣".
Definition OTHER_INCOME := "其他收入".

Definition values : list string :=
  [SALARY_FULL; SALARY_CASUAL; TAX_REFUND; BONUS; INVESTMENT; SECOND_HAND;
   OTHER_INCOME].
End IncomeCategory.

Definition CATEGORY_COLORS : JS.Map string :=
  [(Category.RENT, "#6366f1"); (Category.GROCERIES, "#10b981");
   (Category.DINING, "#f59e0b"); (Category.TRANSPORT, "#3b82f6");
   (Category.CAR, "#ef4444"); (Category.ELECTRICITY, "#eab308");
   (Category.WATER, "#06b6d4"); (Category.GAS, "#f97316");
   (Category.INTERNET, "#8b5cf6"); (Category.MOBILE, "#d946ef");
   (Category.SHOPPING, "#ec4899"); (Category.ENTERTAINMENT, "#a855f7");
   (Category.HEALTH, "#14b8a6"); (Category.EDUCATION, "#f59e0b");
   (Category.LOAN, "#64748b"); (Category.PETS, "#a16207");
   (Category.TRAVEL, "#0ea5e9"); (Category.OTHER, "#94a3b8");
   (IncomeCategory.SALARY_FULL, "#15803d");
   (IncomeCategory.SALARY_CASUAL, "#84cc16");
   (IncomeCategory.TAX_REFUND, "#eab308"); (IncomeCategory.BONUS, "#f43f5e");
   (IncomeCategory.INVESTMENT, "#0ea5e9");
   (IncomeCategory.SECOND_HAND, "#d946ef");
   (IncomeCategory.OTHER_INCOME, "#64748b")].

(** [CATEGORY_COLORS[entry.name as Category] || '#94a3b8'], the fill of a
    slice of the category charts. *)
Definition cellFill (entryName : string) : string :=
  match JS.get entryName CATEGORY_COLORS with
  | Some c => JS.strOr c "#94a3b8"
  | None => "#94a3b8"
  end.

(** [t.type === 'income'] *)
Definition isIncome (t : Transaction) : bool :=
  match type t with Some income => true | _ => false end.

(** [t.items && t.items.length > 0], with the items when it holds. *)
Definition itemsOf (t : Transaction) : list ReceiptItem :=
  match items t with Some l => l | None => [] end.

Definition hasItems (t : Transaction) : bool :=
  match itemsOf t with [] => false | _ :: _ => true end.

(** A [{ name, value }] row of a chart. *)
Record NamedValue := { nv_name : string; nv_value : JS.number }.

(** [acc[curr.category] = (acc[curr.category] || 0) + curr.amountAUD],
    the reducer that [chartData], [budgetStatus] and [categoryData]
    share, for a label that is not the name of a property inherited from
    [Object.prototype].  For such a name the source reads the inherited
    value in place of 0, so that what it stores is a text, and under
    [__proto__] it stores nothing: no row comes of that label. *)
Definition addToCategory (acc : JS.Map JS.number) (curr : Transaction)
    : JS.Map JS.number :=
  JS.set (category curr)
         (JS.orZero (JS.get (category curr) acc) + amountAUD curr) acc.

Definition toNamedValue (e : string * JS.number) : NamedValue :=
  {| nv_name := fst e; nv_value := snd e |}.

(** ** App.tsx *)

Module App.

Definition incomeTransactions (transactions : list Transaction) :=
  filter isIncome transactions.

Definition expenseTransactions (transactions : list Transaction) :=
  filter (fun t => negb (isIncome t)) transactions.

Definition totalIncomeAUD (transactions : list Transaction) : JS.number :=
  JS.sumBy amountAUD (incomeTransactions transactions).

Definition totalExpenseAUD (transactions : list Transaction) : JS.number :=
  JS.sumBy amountAUD (expenseTransactions transactions).

Definition netAssetsAUD (transactions : list Transaction) : JS.number :=
  totalIncomeAUD transactions - totalExpenseAUD transactions.

Definition chartData (transactions : list Transaction) : list NamedValue :=
  map toNamedValue
      (JS.entries (fold_left addToCategory (expenseTransactions transactions) [])).

(** *** Monthly history *)

Record MonthAcc := { acc_income : JS.number; acc_expense : JS.number }.

Record MonthRow := {
  mh_month : string;
  mh_income : JS.number;
  mh_expense : JS.number;
  mh_net : JS.number
}.

(** The body of [transactions.forEach(t => ...)]. *)
Definition monthlyStep (map : JS.Map MonthAcc) (t : Transaction)
    : JS.Map MonthAcc :=
  let monthKey := JS.substring 0 7 (date t) in
  JS.upsert monthKey {| acc_income := 0; acc_expense := 0 |}
    (fun entry =>
       if isIncome t
       then {| acc_income := acc_income entry + amountAUD t;
               acc_expense := acc_expense entry |}
       else {| acc_income := acc_income entry;
               acc_expense := acc_expense entry + amountAUD t |})
    map.

Definition toMonthRow (e : string * MonthAcc) : MonthRow :=
  {| mh_month := fst e;
     mh_income := acc_income (snd e);
     mh_expense := acc_expense (snd e);
     mh_net := acc_income (snd e) - acc_expense (snd e) |}.

Section COLLATION.
(** [a.localeCompare(b)] is the collation of the host. *)
Variable localeCompare : string -> string -> JS.number.

Definition monthlyHistory (transactions : list Transaction)
    : list MonthRow :=
  map toMonthRow
      (JS.sort (fun a b => localeCompare (fst b) (fst a))
               (fold_left monthlyStep transactions [])).
End COLLATION.

(** *** Budgets of the current month *)

Record BudgetRow := {
  bs_category : string;
  bs_limit : JS.number;
  bs_spent : JS.number;
  bs_percentage : JS.number;
  bs_rawPercentage : JS.number;
  bs_isOver : bool
}.

Definition currentMonthSpending (currentMonthKey : string)
    (transactions : list Transaction) : JS.Map JS.number :=
  fold_left addToCategory
    (filter (fun t => negb (isIncome t)
                      && JS.startsWith (date t) currentMonthKey)
            transactions)
    [].

Definition toBudgetRow (spending : JS.Map JS.number)
    (e : string * JS.number) : BudgetRow :=
  let '(cat, limit) := e in
  let spent := JS.orZero (JS.get cat spending) in
  let rawPercentage := (spent / limit) * 100 in
  {| bs_category := cat;
     bs_limit := limit;
     bs_spent := spent;
     bs_percentage := Qmin rawPercentage 100;
     bs_rawPercentage := rawPercentage;
     bs_isOver := JS.gtb spent limit |}.

Definition byPercentageDesc (a b : BudgetRow) : JS.number :=
  bs_percentage b - bs_percentage a.

(** The rows before the sort.  [nowISO] is what
    [new Date().toISOString()] returns when the computation runs: the
    clock is read inside it. *)
Definition budgetRows (nowISO : string) (transactions : list Transaction)
    (budgets : JS.Map JS.number) : list BudgetRow :=
  let currentMonthKey := JS.substring 0 7 nowISO in
  let spending := currentMonthSpending currentMonthKey transactions in
  map (toBudgetRow spending)
      (filter (fun e => JS.gtb (snd e) 0) (JS.entries budgets)).

Definition budgetStatus (nowISO : string) (transactions : list Transaction)
    (budgets : JS.Map JS.number) : list BudgetRow :=
  JS.sort byPercentageDesc (budgetRows nowISO transactions budgets).

(** *** The list of transactions *)

(** [new Date(b.date).getTime() - new Date(a.date).getTime()]; a
    comparison that yields [NaN] counts as [+0] in [sort]. *)
Definition newestFirst (a b : Transaction) : JS.number :=
  match JS.getTime (date b), JS.getTime (date a) with
  | Some tb, Some ta => inject_Z (tb - ta)
  | _, _ => 0
  end.

(** [selectedDateFilter] is [None] for [null]; the empty string is falsy
    too. *)
Definition displayedTransactions (transactions : list Transaction)
    (selectedDateFilter : option string) : list Transaction :=
  let list := JS.sort newestFirst transactions in
  match selectedDateFilter with
  | Some d =>
      if String.eqb d "" then list
      else filter (fun t => String.eqb (date t) d) list
  | None => list
  end.

(** *** Handlers

    Each handler is the function that it passes to [setTransactions] or
    [setBudgets]; what [crypto.randomUUID()] returns and the answers to
    [window.confirm] are arguments. *)

Definition handleAddTransaction (uuid : string) (exchangeRate : JS.number)
    (amount : JS.number) (category note date : string)
    (type : TransactionType) (items : option (list ReceiptItem))
    (tax superannuation : option JS.number)
    (prev : list Transaction) : list Transaction :=
  {| id := uuid;
     type := Some type;
     amountAUD := amount;
     amountTWD := amount * exchangeRate;
     category := category;
     date := date;
     note := note;
     items := items;
     tax := tax;
     superannuation := superannuation |} :: prev.

Definition handleDeleteTransaction (confirmed : bool) (id' : string)
    (prev : list Transaction) : list Transaction :=
  if confirmed then filter (fun t => negb (String.eqb (id t) id')) prev
  else prev.

Definition handleDeleteMonth (confirmed confirmedAgain : bool)
    (month : string) (prev : list Transaction) : list Transaction :=
  if confirmed then
    if confirmedAgain
    then filter (fun t => negb (JS.startsWith (date t) month)) prev
    else prev
  else prev.

Section PARSE.
(** [parseFloat] is taken as it is; [None] is [NaN]. *)
Variable parseFloat : string -> option JS.number.

(** [{ ...prev, [category]: isNaN(num) ? 0 : num }]: the copy lists the
    properties of [prev] in the order of [Object.entries]. *)
Definition handleBudgetChange (category value : string)
    (prev : JS.Map JS.number) : JS.Map JS.number :=
  let num := parseFloat value in
  JS.set category (match num with Some v => v | None => 0 end)
         (JS.entries prev).

Definition handleUpdateRate (value : string) (exchangeRate : JS.number)
    : JS.number :=
  match parseFloat value with
  | Some val => val
  | None => exchangeRate
  end.
End PARSE.

(** *** Export of a month

    [toFixed] and the conversion of a number to text are those of the
    host. *)

Section FORMAT.
Variable toFixed : nat -> JS.number -> string.
Variable numberToString : JS.number -> string.

(** The quotation mark, the line feed, and U+FEFF in UTF-8. *)
Definition quoteChar : ascii := ascii_of_nat 34.
Definition lineFeed : string := String (ascii_of_nat 10) EmptyString.
Definition byteOrderMark : string :=
  String (ascii_of_nat 239)
    (String (ascii_of_nat 187) (String (ascii_of_nat 191) EmptyString)).

(** [s.replace] with the global pattern of the quotation mark: every
    quotation mark becomes two. *)
Fixpoint doubleQuotes (s : string) : string :=
  match s with
  | EmptyString => EmptyString
  | String c s' =>
      if Ascii.eqb c quoteChar
      then String quoteChar (String quoteChar (doubleQuotes s'))
      else String c (doubleQuotes s')
  end.

(** The template that puts the text, its quotation marks doubled, between
    quotation marks. *)
Definition quoted (s : string) : string :=
  String quoteChar (doubleQuotes s ++ String quoteChar EmptyString).

(** [l.join(sep)] on texts. *)
Fixpoint join (sep : string) (l : list string) : string :=
  match l with
  | [] => EmptyString
  | [x] => x
  | x :: l' => x ++ sep ++ join sep l'
  end.

(** [t.items ? t.items.map(i => `${i.name}($${i.price})`).join('; ') : '']. *)
Definition itemString (t : Transaction) : string :=
  match items t with
  | Some l =>
      join "; " (map (fun i => name i ++ "($" ++ numberToString (price i) ++ ")") l)
  | None => EmptyString
  end.

(** [t.type || 'expense']. *)
Definition typeText (t : Transaction) : string :=
  match type t with
  | Some income => "income"
  | Some expense => "expense"
  | None => "expense"
  end.

(** [x || 0] on an optional number. *)
Definition numberOrZero (x : option JS.number) : JS.number :=
  match x with
  | Some v => if JS.eqb v 0 then 0 else v
  | None => 0
  end.

Definition csvHeaders : list string :=
  ["Date"; "Type"; "Category"; "Amount (AUD)"; "Amount (TWD)"; "Note"; "Tax";
   "Super"; "Items"].

Definition csvRow (t : Transaction) : string :=
  join ","
    [date t;
     typeText t;
     category t;
     toFixed 2 (amountAUD t);
     toFixed 0 (amountTWD t);
     quoted (note t);
     numberToString (numberOrZero (tax t));
     numberToString (numberOrZero (superannuation t));
     quoted (itemString t)].

Definition monthTrans (month : string) (transactions : list Transaction)
    : list Transaction :=
  filter (fun t => JS.startsWith (date t) month) transactions.

(** The name and the content of the file that is offered for download,
    or [None] when the handler returns without one. *)
Definition handleExportMonth (month : string) (transactions : list Transaction)
    : option (string * string) :=
  match monthTrans month transactions with
  | [] => None
  | rows =>
      Some ("aus_life_" ++ month ++ ".csv",
            byteOrderMark
            ++ join lineFeed (join "," csvHeaders :: map csvRow rows))
  end.
End FORMAT.

End App.

(** ** AnalyticsModal.tsx *)

Module AnalyticsModal.

(** The label of the bucket of amounts that no receipt item accounts
    for (the UTF-8 bytes of the label in the source). *)
Definition manualLabel : string := "未分類/手動輸入".

(** [selectedMonth] is ["all"] or a month key. *)
Definition filteredTransactions (transactions : list Transaction)
    (selectedMonth : string) : list Transaction :=
  if String.eqb selectedMonth "all" then transactions
  else filter (fun t => JS.startsWith (date t) selectedMonth) transactions.

(** *** Monthly trend *)

Record TrendAcc := {
  t_name : string;
  t_Income : JS.number;
  t_Expense : JS.number;
  t_Net : JS.number
}.

Record TrendRow := {
  tr_name : string;
  tr_Income : JS.number;
  tr_Expense : JS.number;
  tr_Net : JS.number;
  tr_shortName : option string
}.

Section HOST.
(** The offset of local time from UTC, in milliseconds, and the
    collation of the host. *)
Variable localTZA : Z -> Z.
Variable localeCompare : string -> string -> JS.number.

(** [`${date.getFullYear()}-${String(date.getMonth() + 1).padStart(2, '0')}`]
    for [date = new Date(s)]; the key is [NaN-NaN] when the date has no
    time value, which here is every text that is not of the date-only
    form. *)
Definition trendKey (s : string) : string :=
  match JS.getTime s with
  | Some t =>
      JS.intToString (JS.getFullYear localTZA t) ++ "-"
      ++ JS.padStart2 (JS.intToString (JS.getMonth localTZA t + 1))
  | None => "NaN-NaN"
  end.

Definition trendStep (map : JS.Map TrendAcc) (t : Transaction)
    : JS.Map TrendAcc :=
  let key := trendKey (date t) in
  JS.upsert key
    {| t_name := key; t_Income := 0; t_Expense := 0; t_Net := 0 |}
    (fun entry =>
       let inc := if isIncome t then t_Income entry + amountAUD t
                  else t_Income entry in
       let exp := if isIncome t then t_Expense entry
                  else t_Expense entry + amountAUD t in
       {| t_name := t_name entry; t_Income := inc; t_Expense := exp;
          t_Net := inc - exp |})
    map.

Definition toTrendRow (item : TrendAcc) : TrendRow :=
  {| tr_name := t_name item;
     tr_Income := t_Income item;
     tr_Expense := t_Expense item;
     tr_Net := t_Net item;
     tr_shortName := nth_error (JS.splitOn "-" "" (t_name item)) 1 |}.

Definition monthlyData (transactions : list Transaction) : list TrendRow :=
  map toTrendRow
      (JS.sort (fun a b => localeCompare (t_name a) (t_name b))
               (JS.values (fold_left trendStep transactions []))).
End HOST.

(** [availableMonths], before the sort. *)
Fixpoint dedup (seen : list string) (l : list string) : list string :=
  match l with
  | [] => []
  | x :: l' =>
      if existsb (String.eqb x) seen then dedup seen l'
      else x :: dedup (x :: seen) l'
  end.

Definition monthSet (transactions : list Transaction) : list string :=
  dedup [] (map (fun t => JS.substring 0 7 (date t)) transactions).

(** *** Category breakdown *)

Definition categoryData (transactions : list Transaction)
    (selectedMonth : string) : list NamedValue :=
  let expenseOnly :=
    filter (fun t => negb (isIncome t))
           (filteredTransactions transactions selectedMonth) in
  let grouped := fold_left addToCategory expenseOnly [] in
  JS.sort (fun a b => nv_value b - nv_value a)
          (map toNamedValue (JS.entries grouped)).

Definition totalExpenseInPeriod (transactions : list Transaction)
    (selectedMonth : string) : JS.number :=
  JS.sumBy nv_value (categoryData transactions selectedMonth).

(** *** Drill-down into the items of one category *)

(** The state of the loop of [itemizedData]. *)
Record ItemAcc := {
  itemMap : JS.Map JS.number;
  manualEntryTotal : JS.number
}.

(** [t.items.forEach(item => ...)]: the map and [itemsSum]. *)
Definition addItem (st : JS.Map JS.number * JS.number) (item : ReceiptItem)
    : JS.Map JS.number * JS.number :=
  let nm := JS.trim (name item) in
  (JS.set nm (JS.orZero (JS.get nm (fst st)) + price item) (fst st),
   snd st + price item).

(** The body of [relevantTransactions.forEach(t => ...)].  The test
    against the tolerance is decided here on exact sums; the outcome of
    the test of the source, on rounded sums, is that of
    [Binary64.itemizedStep]. *)
Definition itemizedStep (st : ItemAcc) (t : Transaction) : ItemAcc :=
  if hasItems t then
    let '(m, itemsSum) := fold_left addItem (itemsOf t) (itemMap st, 0) in
    {| itemMap := m;
       manualEntryTotal :=
         if JS.gtb (amountAUD t) (itemsSum + (1 # 10))
         then manualEntryTotal st + (amountAUD t - itemsSum)
         else manualEntryTotal st |}
  else
    {| itemMap := itemMap st;
       manualEntryTotal := manualEntryTotal st + amountAUD t |}.

Definition itemizedLoop (ts : list Transaction) : ItemAcc :=
  fold_left itemizedStep ts {| itemMap := []; manualEntryTotal := 0 |}.

Definition byValueDesc (a b : NamedValue) : JS.number :=
  nv_value b - nv_value a.

Definition relevantTransactions (transactions : list Transaction)
    (selectedMonth : string) (detailCategory : string) : list Transaction :=
  filter (fun t => String.eqb (category t) detailCategory)
         (filteredTransactions transactions selectedMonth).

(** [detailCategory] is [None] for [null]; the empty string is falsy
    too. *)
Definition itemizedData (transactions : list Transaction)
    (selectedMonth : string) (detailCategory : option string)
    : list NamedValue :=
  match detailCategory with
  | None => []
  | Some cat =>
      if String.eqb cat "" then [] else
      let st :=
        itemizedLoop (relevantTransactions transactions selectedMonth cat) in
      let results := map toNamedValue (itemMap st) in
      let results :=
        if JS.gtb (manualEntryTotal st) (1 # 100)
        then (results ++ [{| nv_name := manualLabel;
                             nv_value := manualEntryTotal st |}])%list
        else results in
      JS.sort byValueDesc results
  end.

Definition totalItemizedExpense (transactions : list Transaction)
    (selectedMonth : string) (detailCategory : option string) : JS.number :=
  JS.sumBy nv_value (itemizedData transactions selectedMonth detailCategory).

(** *** The months of the dropdown *)

(** [Array.from(months).sort().reverse()]. *)
Definition availableMonths (transactions : list Transaction) : list string :=
  rev (JS.sort JS.defaultCompare (monthSet transactions)).

End AnalyticsModal.

(** ** PriceWatchModal.tsx *)

Module PriceWatchModal.

Record PriceRecord := {
  pr_price : JS.number;
  pr_store : string;
  pr_date : string
}.

Record ItemStat := {
  is_name : string;
  minPrice : JS.number;
  maxPrice : JS.number;
  avgPrice : JS.number;
  bestStore : string;
  lastPrice : JS.number;
  history : list PriceRecord
}.

(** The body of [t.items.forEach(item => ...)]. *)
Definition addPrice (t : Transaction) (statsMap : JS.Map (list PriceRecord))
    (item : ReceiptItem) : JS.Map (list PriceRecord) :=
  let normalizedName := JS.trim (name item) in
  JS.upsert normalizedName []
    (fun prices =>
       prices ++ [{| pr_price := price item;
                     pr_store := JS.strOr (note t) "Unknown";
                     pr_date := date t |}])%list
    statsMap.

Definition collect (statsMap : JS.Map (list PriceRecord)) (t : Transaction)
    : JS.Map (list PriceRecord) :=
  if hasItems t then fold_left (addPrice t) (itemsOf t) statsMap
  else statsMap.

(** [new Date(b.date).getTime() - new Date(a.date).getTime()]; a
    comparison that yields [NaN] counts as [+0] in [sort]. *)
Definition byDateDesc (a b : PriceRecord) : JS.number :=
  match JS.getTime (pr_date b), JS.getTime (pr_date a) with
  | Some tb, Some ta => inject_Z (tb - ta)
  | _, _ => 0
  end.

(** [Math.min(...l)] and [Math.max(...l)] of a non-empty list. *)
Definition minOf (x : JS.number) (l : list JS.number) : JS.number :=
  fold_left Qmin l x.
Definition maxOf (x : JS.number) (l : list JS.number) : JS.number :=
  fold_left Qmax l x.

(** The body of [statsMap.forEach((data, name) => ...)]: the row that is
    pushed, if any. *)
Definition statOf (e : string * list PriceRecord) : list ItemStat :=
  let '(nm, prices) := e in
  match prices with
  | [] => []
  | p0 :: rest =>
      let sortedPrices := JS.sort byDateDesc prices in
      let priceValues := map pr_price prices in
      let minPrice := minOf (pr_price p0) (map pr_price rest) in
      let maxPrice := maxOf (pr_price p0) (map pr_price rest) in
      let avgPrice :=
        JS.sumBy (fun v => v) priceValues
        / inject_Z (Z.of_nat (List.length priceValues)) in
      let bestBuy := find (fun p => JS.eqb (pr_price p) minPrice) prices in
      [{| is_name := nm;
          minPrice := minPrice;
          maxPrice := maxPrice;
          avgPrice := avgPrice;
          bestStore :=
            match bestBuy with
            | Some p => JS.strOr (pr_store p) "Unknown"
            | None => "Unknown"
            end;
          lastPrice :=
            match sortedPrices with
            | p :: _ => pr_price p
            | [] => 0
            end;
          history := sortedPrices |}]
  end.

Definition byHistoryLengthDesc (a b : ItemStat) : JS.number :=
  inject_Z (Z.of_nat (List.length (history b)))
  - inject_Z (Z.of_nat (List.length (history a))).

Definition itemStats (transactions : list Transaction) : list ItemStat :=
  let statsMap := fold_left collect transactions [] in
  JS.sort byHistoryLengthDesc (flat_map statOf statsMap).

End PriceWatchModal.

(** ** AddTransactionModal.tsx *)

Module AddTransactionModal.

(** The fields of the form. *)
Record Form := {
  f_activeTab : TransactionType;
  f_amount : string;
  f_category : string;
  f_note : string;
  f_date : string;
  f_items : list ReceiptItem;
  f_tax : string;
  f_superannuation : string
}.

Section PARSE.
Variable parseFloat : string -> option JS.number.

(** [tax ? parseFloat(tax) : undefined].  A text that does not parse
    gives [NaN] in the source; nothing reads the field other than through
    [tax && tax > 0], which [NaN] and [undefined] fail alike, and both
    are [None] here. *)
Definition optionalNumber (text : string) : option JS.number :=
  if String.eqb text "" then None else parseFloat text.

(** [handleSubmit], with [onAdd] the handler of the app: the list of
    transactions after the submission. *)
Definition handleSubmit (uuid : string) (exchangeRate : JS.number)
    (form : Form) (prev : list Transaction) : list Transaction :=
  let numAmount := parseFloat (f_amount form) in
  let numTax := optionalNumber (f_tax form) in
  let numSuper := optionalNumber (f_superannuation form) in
  match numAmount with
  | Some a =>
      if JS.gtb a 0
      then App.handleAddTransaction uuid exchangeRate a (f_category form)
             (f_note form) (f_date form) (f_activeTab form)
             (Some (f_items form)) numTax numSuper prev
      else prev
  | None => prev
  end.
End PARSE.

End AddTransactionModal.

(** ** services/geminiService.ts *)

Module GeminiService.

(** What [getFinancialInsight] returns at once when there is no
    transaction. *)
Definition noData : string := "目前沒有足夠的交易資料進行分析。".

Definition totalIncome (transactions : list Transaction) : JS.number :=
  JS.sumBy amountAUD (filter isIncome transactions).

Definition totalExpense (transactions : list Transaction) : JS.number :=
  JS.sumBy amountAUD (filter (fun t => negb (isIncome t)) transactions).

Definition net (transactions : list Transaction) : JS.number :=
  totalIncome transactions - totalExpense transactions.

(** [transactions.slice(0, 30)]: the transactions that the prompt
    lists. *)
Definition recentTransactions (transactions : list Transaction)
    : list Transaction :=
  firstn 30 transactions.

(** The figures that go into the prompt. *)
Record Figures := {
  p_totalIncome : JS.number;
  p_totalExpense : JS.number;
  p_net : JS.number;
  p_savingsRate : string;
  p_recentTransactions : list Transaction
}.

Section FORMAT.
Variable toFixed : nat -> JS.number -> string.

(** [totalIncome > 0 ? ((net / totalIncome) * 100).toFixed(1) : '0']. *)
Definition savingsRate (transactions : list Transaction) : string :=
  if JS.gtb (totalIncome transactions) 0
  then toFixed 1 (net transactions / totalIncome transactions * 100)
  else "0".

(** [getFinancialInsight] as far as its request: the text that it
    returns when [transactions.length === 0], or the figures of the
    prompt that it sends. *)
Definition getFinancialInsight (transactions : list Transaction)
    : string + Figures :=
  match transactions with
  | [] => inl noData
  | _ :: _ =>
      inr {| p_totalIncome := totalIncome transactions;
             p_totalExpense := totalExpense transactions;
             p_net := net transactions;
             p_savingsRate := savingsRate transactions;
             p_recentTransactions := recentTransactions transactions |}
  end.
End FORMAT.

End GeminiService.

(** ** WeekCalendar.tsx *)

Module WeekCalendar.

Section LOCAL.
Variable localTZA : Z -> Z.
Variable localTZAofLocal : Z -> Z.

(** [monday], from the time value [now] that [new Date()] holds: the
    date is set back to the Monday of the week, a Sunday being the last day
    of its week. *)
Definition monday (now : Z) : option Z :=
  let day := JS.getDay localTZA now in
  let diff :=
    (JS.getDate localTZA now - day + (if (day =? 0)%Z then -6 else 1))%Z in
  JS.setDate localTZA localTZAofLocal diff now.

(** The time values of the seven dates of [weekDates]; [None] is an
    invalid date. *)
Definition weekDates (now : Z) : list (option Z) :=
  map (fun i =>
         match monday now with
         | Some m =>
             JS.setDate localTZA localTZAofLocal (JS.getDate localTZA m + i)%Z m
         | None => None
         end)
      [0; 1; 2; 3; 4; 5; 6]%Z.
End LOCAL.

(** [date.toISOString().split('T')[0]] of a valid date. *)
Definition formatDateKey (t : Z) : string := JS.isoDate (JS.Day t).

End WeekCalendar.

(** ** The app as a machine

    The list of transactions changes through the form and through the two
    delete actions only. *)

Inductive Event :=
| Submit (uuid : string) (exchangeRate : Q) (form : AddTransactionModal.Form)
| DeleteTransaction (confirmed : bool) (id' : string)
| DeleteMonth (confirmed confirmedAgain : bool) (month : string).

Definition react (parseFloat : string -> option Q) (transactions : list Transaction)
    (e : Event) : list Transaction :=
  match e with
  | Submit uuid exchangeRate form =>
      AddTransactionModal.handleSubmit parseFloat uuid exchangeRate form transactions
  | DeleteTransaction confirmed id' =>
      App.handleDeleteTransaction confirmed id' transactions
  | DeleteMonth confirmed confirmedAgain month =>
      App.handleDeleteMonth confirmed confirmedAgain month transactions
  end.

(** The list of transactions after the events [es], from the list
    [stored] that the app read from the local storage when it started. *)
Definition run (parseFloat : string -> option Q) (stored : list Transaction)
    (es : list Event) : list Transaction :=
  fold_left (react parseFloat) es stored.

(** ** The sums, once more on binary64 numbers

    The computations whose stated properties turn on rounding, with the
    numbers of the source: IEEE 754 binary64, the primitive floating-point
    numbers of Rocq.  The definitions follow those above line by line;
    only the type of the numbers and its operations change. *)

Module Binary64.
Import PrimFloat.

Abbreviation number := float (only parsing).

(** The number of an integer literal. *)
Definition ofZ (n : Z) : number := of_uint63 (Uint63.of_Z n).

(** The literals [0.1] and [0.01]: the binary64 numbers nearest to one
    tenth and to one hundredth, which the divisions give. *)
Definition tenth : number := div (ofZ 1) (ofZ 10).
Definition hundredth : number := div (ofZ 1) (ofZ 100).

(** [a > b] on numbers; it is false when either is [NaN]. *)
Definition gtb (a b : number) : bool := ltb b a.

(** [Array.prototype.reduce((sum, x) => sum + f(x), 0)]. *)
Definition sumBy {A} (f : A -> number) (l : list A) : number :=
  fold_left (fun sum x => add sum (f x)) l zero.

(** [x || 0] for a possibly missing number: [NaN] and both zeros are
    falsy. *)
Definition orZero (o : option number) : number :=
  match o with
  | Some v => if is_nan v || is_zero v then zero else v
  | None => zero
  end.

(** [Array.prototype.sort(cmp)], stable: [x] stays in front of the
    elements it does not compare greater than; a comparison that gives
    [NaN] counts as zero. *)
Section SORT.
Context {A : Type}.
Variable cmp : A -> A -> number.

Fixpoint insert (x : A) (l : list A) : list A :=
  match l with
  | [] => [x]
  | y :: l' => if gtb (cmp x y) zero then y :: insert x l' else x :: l
  end.

Definition sort (l : list A) : list A := fold_right insert [] l.
End SORT.

(** *** types.ts *)

Record ReceiptItem := {
  name : string;
  price : number;
  quantity : option positive
}.

Record Transaction := {
  id : string;
  type : option TransactionType;
  amountAUD : number;
  amountTWD : number;
  category : string;
  date : string;
  note : string;
  items : option (list ReceiptItem);
  tax : option number;
  superannuation : option number
}.

Definition isIncome (t : Transaction) : bool :=
  match type t with Some income => true | _ => false end.

Definition itemsOf (t : Transaction) : list ReceiptItem :=
  match items t with Some l => l | None => [] end.

Definition hasItems (t : Transaction) : bool :=
  match itemsOf t with [] => false | _ :: _ => true end.

Record NamedValue := { nv_name : string; nv_value : number }.

Definition toNamedValue (e : string * number) : NamedValue :=
  {| nv_name := fst e; nv_value := snd e |}.

(** *** App.tsx: the totals and the monthly history *)

Definition incomeTransactions (transactions : list Transaction) :=
  filter isIncome transactions.

Definition expenseTransactions (transactions : list Transaction) :=
  filter (fun t => negb (isIncome t)) transactions.

Definition totalIncomeAUD (transactions : list Transaction) : number :=
  sumBy amountAUD (incomeTransactions transactions).

Definition totalExpenseAUD (transactions : list Transaction) : number :=
  sumBy amountAUD (expenseTransactions transactions).

Record MonthAcc := { acc_income : number; acc_expense : number }.

Record MonthRow := {
  mh_month : string;
  mh_income : number;
  mh_expense : number;
  mh_net : number
}.

(** The body of [transactions.forEach(t => ...)]. *)
Definition monthlyStep (map : JS.Map MonthAcc) (t : Transaction)
    : JS.Map MonthAcc :=
  let monthKey := JS.substring 0 7 (date t) in
  JS.upsert monthKey {| acc_income := zero; acc_expense := zero |}
    (fun entry =>
       if isIncome t
       then {| acc_income := add (acc_income entry) (amountAUD t);
               acc_expense := acc_expense entry |}
       else {| acc_income := acc_income entry;
               acc_expense := add (acc_expense entry) (amountAUD t) |})
    map.

Definition toMonthRow (e : string * MonthAcc) : MonthRow :=
  {| mh_month := fst e;
     mh_income := acc_income (snd e);
     mh_expense := acc_expense (snd e);
     mh_net := sub (acc_income (snd e)) (acc_expense (snd e)) |}.

Definition monthlyHistory (localeCompare : string -> string -> Q)
    (transactions : list Transaction) : list MonthRow :=
  map toMonthRow
      (JS.sort (fun a b => localeCompare (fst b) (fst a))
               (fold_left monthlyStep transactions [])).

(** *** AnalyticsModal.tsx: the drill-down into the items of a category *)

Definition filteredTransactions (transactions : list Transaction)
    (selectedMonth : string) : list Transaction :=
  if String.eqb selectedMonth "all" then transactions
  else filter (fun t => JS.startsWith (date t) selectedMonth) transactions.

Definition relevantTransactions (transactions : list Transaction)
    (selectedMonth : string) (detailCategory : string) : list Transaction :=
  filter (fun t => String.eqb (category t) detailCategory)
         (filteredTransactions transactions selectedMonth).

Record ItemAcc := {
  itemMap : JS.Map number;
  manualEntryTotal : number
}.

(** [t.items.forEach(item => ...)]: the map and [itemsSum]. *)
Definition addItem (st : JS.Map number * number) (item : ReceiptItem)
    : JS.Map number * number :=
  let nm := JS.trim (name item) in
  (JS.set nm (add (orZero (JS.get nm (fst st))) (price item)) (fst st),
   add (snd st) (price item)).

(** The body of [relevantTransactions.forEach(t => ...)]. *)
Definition itemizedStep (st : ItemAcc) (t : Transaction) : ItemAcc :=
  if hasItems t then
    let '(m, itemsSum) := fold_left addItem (itemsOf t) (itemMap st, zero) in
    {| itemMap := m;
       manualEntryTotal :=
         if gtb (amountAUD t) (add itemsSum tenth)
         then add (manualEntryTotal st) (sub (amountAUD t) itemsSum)
         else manualEntryTotal st |}
  else
    {| itemMap := itemMap st;
       manualEntryTotal := add (manualEntryTotal st) (amountAUD t) |}.

Definition itemizedLoop (ts : list Transaction) : ItemAcc :=
  fold_left itemizedStep ts {| itemMap := []; manualEntryTotal := zero |}.

Definition byValueDesc (a b : NamedValue) : number :=
  sub (nv_value b) (nv_value a).

Definition itemizedData (transactions : list Transaction)
    (selectedMonth : string) (detailCategory : option string)
    : list NamedValue :=
  match detailCategory with
  | None => []
  | Some cat =>
      if String.eqb cat "" then [] else
      let st :=
        itemizedLoop (relevantTransactions transactions selectedMonth cat) in
      let results := map toNamedValue (itemMap st) in
      let results :=
        if gtb (manualEntryTotal st) hundredth
        then (results ++ [{| nv_name := AnalyticsModal.manualLabel;
                             nv_value := manualEntryTotal st |}])%list
        else results in
      sort byValueDesc results
  end.

Definition totalItemizedExpense (transactions : list Transaction)
    (selectedMonth : string) (detailCategory : option string) : number :=
  sumBy nv_value (itemizedData transactions selectedMonth detailCategory).

End Binary64.

(** ** Vocabulary of the statements *)

(** The sum of the prices of the items of a transaction. *)
Definition itemsSum (t : Transaction) : Q := JS.sumBy price (itemsOf t).

(** The part of the prices of the items of [t] that goes to the bucket
    [n]. *)
Definition itemsNamed (n : string) (t : Transaction) : Q :=
  JS.sumBy price (filter (fun i => String.eqb (JS.trim (name i)) n) (itemsOf t)).

(** What a transaction adds to the bucket of unclassified amounts. *)
Definition unclassifiedPart (t : Transaction) : Q :=
  if hasItems t then
    if JS.gtb (amountAUD t) (itemsSum t + (1 # 10))
    then amountAUD t - itemsSum t else 0
  else amountAUD t.

(** What a transaction adds to the buckets of its items. *)
Definition itemizedPart (t : Transaction) : Q :=
  if hasItems t then itemsSum t else 0.

(** The month key of a transaction: the first seven characters of its
    date. *)
Definition monthKeyOf (t : Transaction) : string := JS.substring 0 7 (date t).

(** The income and the expense that a transaction stands for. *)
Definition incomeOf (t : Transaction) : Q :=
  if isIncome t then amountAUD t else 0.
Definition expenseOf (t : Transaction) : Q :=
  if isIncome t then 0 else amountAUD t.

(** The expenses of category [cat] in the month [currentMonthKey]. *)
Definition currentMonthSpent (currentMonthKey cat : string)
    (transactions : list Transaction) : Q :=
  JS.sumBy amountAUD
    (filter (fun t => negb (isIncome t)
                      && JS.startsWith (date t) currentMonthKey
                      && String.eqb (category t) cat)
            transactions).

(** The expenses that [categoryData] groups: those of the selected
    month, or all of them. *)
Definition expensesInScope (transactions : list Transaction)
    (selectedMonth : string) : list Transaction :=
  filter (fun t => negb (isIncome t))
         (AnalyticsModal.filteredTransactions transactions selectedMonth).

(** The amounts of the transactions of [ts] labelled [c]. *)
Definition labelled (c : string) (ts : list Transaction) : Q :=
  JS.sumBy amountAUD (filter (fun t => String.eqb (category t) c) ts).

(** The price record that [itemStats] makes of item [i] of transaction
    [t]. *)
Definition recordOf (t : Transaction) (i : ReceiptItem)
    : PriceWatchModal.PriceRecord :=
  {| PriceWatchModal.pr_price := price i;
     PriceWatchModal.pr_store := if String.eqb (note t) "" then "Unknown" else note t;
     PriceWatchModal.pr_date := date t |}.

(** The record [h] is among the prices kept under the name [n]. *)
Definition recorded (m : JS.Map (list PriceWatchModal.PriceRecord))
    (n : string) (h : PriceWatchModal.PriceRecord) : Prop :=
  exists prices, JS.get n m = Some prices /\ In h prices.

(** The entry that [JS.upsert k init f] updates in [m]. *)
Definition entryOr {V} (k : string) (init : V) (m : JS.Map V) : V :=
  match JS.get k m with Some e => e | None => init end.

(** A quantity [h] of the values of a map: its sum over the map, and its
    value at a key. *)
Definition total {V} (h : V -> Q) (m : JS.Map V) : Q :=
  JS.sumBy (fun e => h (snd e)) m.

Definition at_ {V} (h : V -> Q) (k : string) (m : JS.Map V) : Q :=
  match JS.get k m with Some e => h e | None => 0 end.

(** The income and the expense of the transactions of [ts] whose key,
    under [keyOf], is [k]. *)
Definition incomeUnder (keyOf : Transaction -> string) (k : string)
    (ts : list Transaction) : Q :=
  JS.sumBy (fun t => if String.eqb (keyOf t) k then incomeOf t else 0) ts.

Definition expenseUnder (keyOf : Transaction -> string) (k : string)
    (ts : list Transaction) : Q :=
  JS.sumBy (fun t => if String.eqb (keyOf t) k then expenseOf t else 0) ts.

(** The loop bodies of the monthly groupings, as updates of the entry of
    a key. *)
Definition monthZero (t : Transaction) : App.MonthAcc :=
  {| App.acc_income := 0; App.acc_expense := 0 |}.

Definition monthUpdate (t : Transaction) (entry : App.MonthAcc) : App.MonthAcc :=
  if isIncome t
  then {| App.acc_income := App.acc_income entry + amountAUD t;
          App.acc_expense := App.acc_expense entry |}
  else {| App.acc_income := App.acc_income entry;
          App.acc_expense := App.acc_expense entry + amountAUD t |}.

Definition trendKeyOf (localTZA : Z -> Z) (t : Transaction) : string :=
  AnalyticsModal.trendKey localTZA (date t).

Definition trendZero (localTZA : Z -> Z) (t : Transaction)
    : AnalyticsModal.TrendAcc :=
  {| AnalyticsModal.t_name := trendKeyOf localTZA t;
     AnalyticsModal.t_Income := 0;
     AnalyticsModal.t_Expense := 0;
     AnalyticsModal.t_Net := 0 |}.

Definition trendUpdate (t : Transaction) (entry : AnalyticsModal.TrendAcc)
    : AnalyticsModal.TrendAcc :=
  let inc := if isIncome t then AnalyticsModal.t_Income entry + amountAUD t
             else AnalyticsModal.t_Income entry in
  let exp := if isIncome t then AnalyticsModal.t_Expense entry
             else AnalyticsModal.t_Expense entry + amountAUD t in
  {| AnalyticsModal.t_name := AnalyticsModal.t_name entry;
     AnalyticsModal.t_Income := inc;
     AnalyticsModal.t_Expense := exp;
     AnalyticsModal.t_Net := inc - exp |}.

(** *** Groupings *)

(** What a quantity [h] of the entries of a map holds at a key, [h0] where
    the key has no entry. *)
Definition heldAt {V N} (h : V -> N) (h0 : N) (k : string) (m : JS.Map V)
    : N :=
  match JS.get k m with Some e => h e | None => h0 end.


(** The names that every object inherits from [Object.prototype]: a
    label that is one of them reads as present in an empty object. *)
Definition inheritedNames : list string :=
  ["constructor"; "__defineGetter__"; "__defineSetter__"; "hasOwnProperty";
   "__lookupGetter__"; "__lookupSetter__"; "isPrototypeOf";
   "propertyIsEnumerable"; "toString"; "valueOf"; "__proto__";
   "toLocaleString"].

Definition inheritedName (label : string) : bool :=
  existsb (String.eqb label) inheritedNames.

(** The transactions that the monthly trend files under the key [k]. *)
Definition ofTrendKey (localTZA : Z -> Z) (k : string)
    (ts : list Transaction) : list Transaction :=
  filter (fun t => String.eqb (trendKeyOf localTZA t) k) ts.

(** *** The statements on binary64 numbers *)

(** The month key of a transaction, and the transactions of the month
    [k]. *)
Definition monthKey64 (t : Binary64.Transaction) : string :=
  JS.substring 0 7 (Binary64.date t).

Definition ofMonth (k : string) (ts : list Binary64.Transaction)
    : list Binary64.Transaction :=
  filter (fun t => String.eqb (monthKey64 t) k) ts.

(** The loop body of the monthly history, as an update of the entry of
    a key. *)
Definition monthZero64 (t : Binary64.Transaction) : Binary64.MonthAcc :=
  {| Binary64.acc_income := PrimFloat.zero;
     Binary64.acc_expense := PrimFloat.zero |}.

Definition monthUpdate64 (t : Binary64.Transaction)
    (entry : Binary64.MonthAcc) : Binary64.MonthAcc :=
  if Binary64.isIncome t
  then {| Binary64.acc_income :=
            PrimFloat.add (Binary64.acc_income entry) (Binary64.amountAUD t);
          Binary64.acc_expense := Binary64.acc_expense entry |}
  else {| Binary64.acc_income := Binary64.acc_income entry;
          Binary64.acc_expense :=
            PrimFloat.add (Binary64.acc_expense entry) (Binary64.amountAUD t) |}.

(** [itemsSum] once the items of a receipt are gone through. *)
Definition itemsSum64 (t : Binary64.Transaction) : PrimFloat.float :=
  Binary64.sumBy Binary64.price (Binary64.itemsOf t).


(** [(itemMap.get(name) || 0) + item.price], on what the map holds at the
    name. *)
Definition addPrice (held : option PrimFloat.float)
    (i : Binary64.ReceiptItem) : option PrimFloat.float :=
  Some (PrimFloat.add (Binary64.orZero held) (Binary64.price i)).


(** Whether a transaction adds to [manualEntryTotal], and what it adds. *)
Definition addsToManual (t : Binary64.Transaction) : bool :=
  if Binary64.hasItems t
  then Binary64.gtb (Binary64.amountAUD t)
                    (PrimFloat.add (itemsSum64 t) Binary64.tenth)
  else true.

Definition manualPart (t : Binary64.Transaction) : PrimFloat.float :=
  if Binary64.hasItems t
  then PrimFloat.sub (Binary64.amountAUD t) (itemsSum64 t)
  else Binary64.amountAUD t.

(** *** Finite checks

    The text of a year has four digits and that of a month two: the facts
    about them that the proofs need are checked digit by digit. *)

Definition digitChars : list ascii :=
  ["0"; "1"; "2"; "3"; "4"; "5"; "6"; "7"; "8"; "9"]%char.

Definition text4 (a b c d : ascii) : string :=
  String a (String b (String c (String d EmptyString))).

Definition text2 (a b : ascii) : string := String a (String b EmptyString).

(** A year from 1000 on prints as the four digits it was read from. *)
Definition checkYearText (a b c d : ascii) : bool :=
  match JS.digitsValue 0 (text4 a b c d) with
  | Some y =>
      if (1000 <=? y)%Z then String.eqb (JS.intToString y) (text4 a b c d)
      else true
  | None => true
  end.

(** A month prints, padded to two places, as the two digits it was read
    from. *)
Definition checkMonthText (a b : ascii) : bool :=
  match JS.digitsValue 0 (text2 a b) with
  | Some m =>
      if ((1 <=? m) && (m <=? 12))%Z
      then String.eqb (JS.padStart2 (JS.intToString m)) (text2 a b)
      else true
  | None => true
  end.

(** The time value of a date text, and the texts that have one. *)
Definition timeOf (d : string) : Z :=
  match JS.getTime d with Some t => t | None => 0%Z end.

Definition dated (d : string) : Prop := JS.getTime d <> None.

(** The transaction that a submission of the form makes of the amount
    [a] that was read from it. *)
Definition submitted (parseFloat : string -> option Q) (uuid : string)
    (exchangeRate : Q) (form : AddTransactionModal.Form) (a : Q)
    : Transaction :=
  {| id := uuid;
     type := Some (AddTransactionModal.f_activeTab form);
     amountAUD := a;
     amountTWD := a * exchangeRate;
     category := AddTransactionModal.f_category form;
     date := AddTransactionModal.f_date form;
     note := AddTransactionModal.f_note form;
     items := Some (AddTransactionModal.f_items form);
     tax := AddTransactionModal.optionalNumber parseFloat
              (AddTransactionModal.f_tax form);
     superannuation :=
       AddTransactionModal.optionalNumber parseFloat
         (AddTransactionModal.f_superannuation form) |}.

(** The day number, in local time, of the Monday of the week of [now],
    and the local time of day of [now]. *)
Definition mondayDay (localTZA : Z -> Z) (now : Z) : Z :=
  (JS.Day (JS.LocalTime localTZA now) - (JS.getDay localTZA now + 6) mod 7)%Z.

Definition localTimeOfDay (localTZA : Z -> Z) (now : Z) : Z :=
  JS.TimeWithinDay (JS.LocalTime localTZA now).

(** ** Sample data *)

Definition mkTx (ty : TransactionType) (amt : Q) (cat dt nt : string)
    (its : option (list ReceiptItem)) : Transaction :=
  {| id := ""; type := Some ty; amountAUD := amt; amountTWD := 0;
     category := cat; date := dt; note := nt; items := its;
     tax := None; superannuation := None |}.

Definition mkItem (n : string) (p : Q) : ReceiptItem :=
  {| name := n; price := p; quantity := None |}.

(** Scenario A of the specification: one grocery receipt of 50 with milk
    at 4 and bread at 3. *)
Definition scenarioA : list Transaction :=
  [mkTx expense 50 "Groceries" "2024-01-05" ""
        (Some [mkItem "Milk" 4; mkItem "Bread" 3])].



(** Code-unit order, standing in for the collation of a host. *)
Definition codeUnitCompare (a b : string) : JS.number :=
  match String.compare a b with Lt => -1 | Eq => 0 | Gt => 1 end.

(** Scenario B of the specification: 120 spent on groceries in the
    current month, March 2024. *)
Definition scenarioB : list Transaction :=
  [mkTx expense 120 "Groceries" "2024-03-05" "" None].

(** Two readings of the clock, one in March 2024 and one in April. *)
Definition clockMarch : string := "2024-03-15T10:00:00.000Z".
Definition clockApril : string := "2024-04-02T09:00:00.000Z".

(** Two budgets that are both overspent in March 2024, the second one by
    more. *)
Definition twoOverspent : list Transaction :=
  [mkTx expense 120 "Groceries" "2024-03-05" "" None;
   mkTx expense 150 "Dining" "2024-03-07" "" None].

(** A budget of 100 for each of the two. *)
Definition twoBudgets : JS.Map Q := [("Groceries", 100); ("Dining", 100)].

(** An expense under a label that is in neither enumeration, next to one
    under the label of [Category.OTHER]. *)
Definition unknownLabel : list Transaction :=
  [mkTx expense 10 "Crypto" "2024-03-05" "" None;
   mkTx expense 5 Category.OTHER "2024-03-06" "" None].

(** Milk at the same price in two shops; the later purchase was entered
    first, so the earlier one stands first in the array. *)
Definition tiedMilk : list Transaction :=
  [mkTx expense 3 "Groceries" "2024-01-01" "Woolworths" (Some [mkItem "Milk" 3]);
   mkTx expense 3 "Groceries" "2024-02-01" "Coles" (Some [mkItem "Milk" 3])].

(** A receipt without a note. *)
Definition noNote : list Transaction :=
  [mkTx expense 4 "Groceries" "2024-01-01" "" (Some [mkItem "Milk" 4])].

(** The first of March 2024, entered as a salary. *)
Definition firstOfMarch : list Transaction :=
  [mkTx income 1000 IncomeCategory.SALARY_FULL "2024-03-01" "" None].

(** A host five hours behind UTC, and one ten hours ahead of it. *)
Definition utcMinus5 (t : Z) : Z := (-18000000)%Z.
Definition utcPlus10 (t : Z) : Z := 36000000%Z.

(** Milk bought three times and bread once, entered out of order. *)
Definition threeMilk : list Transaction :=
  [mkTx expense 7 "Groceries" "2024-02-01" "Coles"
        (Some [mkItem "Milk" 3; mkItem "Bread" 4]);
   mkTx expense 2 "Groceries" "2024-03-01" "Aldi" (Some [mkItem " Milk" 2]);
   mkTx expense 5 "Groceries" "2024-01-01" "Woolworths" (Some [mkItem "Milk " 5])].

(** A receipt of 5.05 whose only item costs 5, and a purchase of 20
    without items, both under groceries. *)
Definition nearlyItemized : list Transaction :=
  [mkTx expense (505 # 100) "Groceries" "2024-01-05" "" (Some [mkItem "Milk" 5]);
   mkTx expense 20 "Groceries" "2024-01-06" "" None].

(** Two purchases entered by hand. *)
Definition byHand : list Transaction :=
  [mkTx expense 12 "Dining" "2024-01-05" "" None;
   mkTx expense 8 "Dining" "2024-02-06" "" None].

(** Four transactions of three months, entered out of order. *)
Definition threeMonths : list Transaction :=
  [mkTx expense 30 "Dining" "2024-02-10" "" None;
   mkTx income 900 IncomeCategory.SALARY_FULL "2024-03-01" "" None;
   mkTx expense 40 "Groceries" "2023-12-24" "" None;
   mkTx expense 10 "Dining" "2024-02-11" "" None].

(** A reading of texts of digits, standing in for [parseFloat] on such
    texts; any other text is not a number. *)
Definition parseDigits (s : string) : option Q :=
  match s with
  | EmptyString => None
  | _ => match JS.digitsValue 0 s with
         | Some n => Some (inject_Z n)
         | None => None
         end
  end.

(** A form filled in for a lunch of 15, and one with an amount of 0. *)
Definition lunchForm : AddTransactionModal.Form :=
  {| AddTransactionModal.f_activeTab := expense;
     AddTransactionModal.f_amount := "15";
     AddTransactionModal.f_category := "Dining";
     AddTransactionModal.f_note := "Lunch";
     AddTransactionModal.f_date := "2024-03-09";
     AddTransactionModal.f_items := [];
     AddTransactionModal.f_tax := "";
     AddTransactionModal.f_superannuation := "" |}.

Definition zeroForm : AddTransactionModal.Form :=
  {| AddTransactionModal.f_activeTab := expense;
     AddTransactionModal.f_amount := "0";
     AddTransactionModal.f_category := "Dining";
     AddTransactionModal.f_note := "";
     AddTransactionModal.f_date := "2024-03-09";
     AddTransactionModal.f_items := [];
     AddTransactionModal.f_tax := "";
     AddTransactionModal.f_superannuation := "" |}.

(** A session: a lunch is entered, an empty amount is refused, February
    is deleted, and the deletion of the lunch is called off. *)
Definition session : list Event :=
  [Submit "id-1" (215 # 10) lunchForm;
   Submit "id-2" (215 # 10) zeroForm;
   DeleteMonth true true "2024-02";
   DeleteTransaction false "id-1"].

(** 2024-03-09T22:00:00Z: eight o'clock in the morning of Sunday the
    tenth of March, ten hours ahead of UTC. *)
Definition sundayMorning : Z := 1710021600000.

(** The binary64 number nearest to [n] hundredths, as [parseFloat] reads
    an amount written with two decimals. *)
Definition cents (n : Z) : PrimFloat.float :=
  PrimFloat.div (Binary64.ofZ n) (Binary64.ofZ 100).

Definition mkTx64 (ty : TransactionType) (amt : PrimFloat.float)
    (cat dt : string) (its : option (list Binary64.ReceiptItem))
    : Binary64.Transaction :=
  {| Binary64.id := ""; Binary64.type := Some ty;
     Binary64.amountAUD := amt; Binary64.amountTWD := PrimFloat.zero;
     Binary64.category := cat; Binary64.date := dt;
     Binary64.note := ""; Binary64.items := its;
     Binary64.tax := None; Binary64.superannuation := None |}.

Definition mkItem64 (n : string) (p : PrimFloat.float)
    : Binary64.ReceiptItem :=
  {| Binary64.name := n; Binary64.price := p; Binary64.quantity := None |}.

(** Incomes of 0.1 in January, 0.1 in February and 1.1 in January. *)
Definition threeIncomes : list Binary64.Transaction :=
  [mkTx64 income (cents 10) IncomeCategory.SALARY_FULL "2024-01-10" None;
   mkTx64 income (cents 10) IncomeCategory.SALARY_FULL "2024-02-10" None;
   mkTx64 income (cents 110) IncomeCategory.SALARY_FULL "2024-01-20" None].

(** Three receipts of 0.1, 0.2 and 0.3, each with one item at the full
    amount. *)
Definition threeReceipts : list Binary64.Transaction :=
  [mkTx64 expense (cents 10) Category.GROCERIES "2024-03-01"
          (Some [mkItem64 "Gum" (cents 10)]);
   mkTx64 expense (cents 20) Category.GROCERIES "2024-03-02"
          (Some [mkItem64 "Salt" (cents 20)]);
   mkTx64 expense (cents 30) Category.GROCERIES "2024-03-03"
          (Some [mkItem64 "Rice" (cents 30)])].

(** A receipt of 0.8 with an item at 0.7, and one of 0.4 with an item at
    0.3. *)
Definition eightySeventy : Binary64.Transaction :=
  mkTx64 expense (cents 80) Category.GROCERIES "2024-03-01"
         (Some [mkItem64 "Tea" (cents 70)]).

Definition fortyThirty : Binary64.Transaction :=
  mkTx64 expense (cents 40) Category.GROCERIES "2024-03-01"
         (Some [mkItem64 "Tea" (cents 30)]).



(** * Properties *)

(** ** Sums *)

(** The sum of no terms, wherever it occurs in the goal. *)
Ltac sum_nil :=
  repeat match goal with
         | |- context [JS.sumBy ?f []] => change (JS.sumBy f []) with 0
         end.

Section SUMS.
Context {A : Type}.
Variable f : A -> Q.

Lemma fold_sum_shift (l : list A) (a : Q) :
  fold_left (fun sum x => sum + f x) l a == a + JS.sumBy f l.
Proof.
  unfold JS.sumBy. revert a.
  induction l as [|x l IH]; intros a; simpl.
  - lra.
  - rewrite (IH (a + f x)), (IH (0 + f x)). lra.
Qed.

Lemma sumBy_nil : JS.sumBy f [] == 0.
Proof. reflexivity. Qed.

Lemma sumBy_cons (x : A) (l : list A) :
  JS.sumBy f (x :: l) == f x + JS.sumBy f l.
Proof.
  unfold JS.sumBy at 1. simpl. rewrite fold_sum_shift. lra.
Qed.

Lemma sumBy_perm (l1 l2 : list A) :
  Permutation l1 l2 -> JS.sumBy f l1 == JS.sumBy f l2.
Proof.
  induction 1.
  - reflexivity.
  - rewrite !sumBy_cons, IHPermutation. reflexivity.
  - rewrite !sumBy_cons. lra.
  - etransitivity; eassumption.
Qed.

Lemma sumBy_nonneg (l : list A) :
  (forall x, In x l -> 0 <= f x) -> 0 <= JS.sumBy f l.
Proof.
  induction l as [|x l IH]; intros H.
  - rewrite sumBy_nil. lra.
  - rewrite sumBy_cons.
    assert (0 <= f x) by (apply H; now left).
    assert (0 <= JS.sumBy f l) by (apply IH; intros; apply H; now right).
    lra.
Qed.
End SUMS.

Lemma sumBy_map {A B} (g : A -> B) (f : B -> Q) (l : list A) :
  JS.sumBy f (map g l) == JS.sumBy (fun x => f (g x)) l.
Proof.
  induction l as [|x l IH]; simpl.
  - reflexivity.
  - rewrite !sumBy_cons, IH. reflexivity.
Qed.

Lemma sumBy_ext {A} (f g : A -> Q) (l : list A) :
  (forall x, In x l -> f x == g x) -> JS.sumBy f l == JS.sumBy g l.
Proof.
  induction l as [|x l IH]; intros H.
  - reflexivity.
  - rewrite !sumBy_cons, IH by (intros; apply H; now right).
    rewrite (H x) by now left. reflexivity.
Qed.

(** ** Comparisons *)

Lemma gtb_true (a b : Q) : JS.gtb a b = true <-> b < a.
Proof.
  unfold JS.gtb. rewrite negb_true_iff.
  destruct (Qle_bool a b) eqn:E.
  - apply Qle_bool_iff in E. split; [discriminate | lra].
  - split; [intros _ | reflexivity].
    destruct (Qlt_le_dec b a) as [H|H]; [exact H|].
    apply Qle_bool_iff in H. congruence.
Qed.

Lemma gtb_false (a b : Q) : JS.gtb a b = false <-> a <= b.
Proof.
  unfold JS.gtb. rewrite negb_false_iff. apply Qle_bool_iff.
Qed.

Lemma orZero_Some (v : Q) : JS.orZero (Some v) == v.
Proof.
  unfold JS.orZero. destruct (Qeq_bool v 0) eqn:E.
  - apply Qeq_bool_iff in E. symmetry. exact E.
  - reflexivity.
Qed.

(** ** The sort *)

Section SORT_FACTS.
Context {A : Type}.
Variable cmp : A -> A -> Q.

Lemma insert_perm (x : A) (l : list A) :
  Permutation (JS.insert cmp x l) (x :: l).
Proof.
  induction l as [|y l IH]; simpl.
  - apply Permutation_refl.
  - destruct (JS.gtb (cmp x y) 0).
    + eapply perm_trans; [apply perm_skip, IH | apply perm_swap].
    + apply Permutation_refl.
Qed.

Lemma sort_perm (l : list A) : Permutation (JS.sort cmp l) l.
Proof.
  induction l as [|x l IH]; simpl.
  - apply perm_nil.
  - eapply perm_trans; [apply insert_perm | apply perm_skip, IH].
Qed.

Lemma sort_In (l : list A) (x : A) : In x (JS.sort cmp l) <-> In x l.
Proof.
  split; apply Permutation_in;
    [apply sort_perm | apply Permutation_sym, sort_perm].
Qed.
End SORT_FACTS.

(** Sorting with [(a, b) => key b - key a]: descending in the key, and
    rows with the same key keep their order. *)
Section SORT_DESC.
Context {A : Type}.
Variable key : A -> Q.

Let cmp (a b : A) : Q := key b - key a.
Let before (a b : A) : Prop := key b <= key a.

Lemma insert_desc_sorted (x : A) (l : list A) :
  StronglySorted before l -> StronglySorted before (JS.insert cmp x l).
Proof.
  induction 1 as [|y l Hs IH Hall]; simpl.
  - repeat constructor.
  - destruct (JS.gtb (cmp x y) 0) eqn:E.
    + apply gtb_true in E. unfold cmp in E.
      constructor; [exact IH|].
      eapply Permutation_Forall;
        [apply Permutation_sym, (insert_perm cmp)|].
      constructor; [unfold before; lra | exact Hall].
    + apply gtb_false in E. unfold cmp in E.
      constructor; [constructor; assumption|].
      constructor; [unfold before; lra|].
      eapply Forall_impl; [|exact Hall].
      unfold before. intros z Hz. lra.
Qed.

Lemma sort_desc_sorted (l : list A) :
  StronglySorted before (JS.sort cmp l).
Proof.
  induction l as [|x l IH]; simpl.
  - constructor.
  - apply insert_desc_sorted, IH.
Qed.

Lemma insert_desc_stable (p : Q) (x : A) (l : list A) :
  StronglySorted before l ->
  filter (fun a => Qeq_bool (key a) p) (JS.insert cmp x l)
  = filter (fun a => Qeq_bool (key a) p) (x :: l).
Proof.
  induction 1 as [|y l Hs IH Hall]; simpl.
  - reflexivity.
  - destruct (JS.gtb (cmp x y) 0) eqn:E; [|reflexivity].
    apply gtb_true in E. unfold cmp in E.
    simpl. rewrite IH. simpl.
    destruct (Qeq_bool (key x) p) eqn:Ex;
      destruct (Qeq_bool (key y) p) eqn:Ey; try reflexivity.
    apply Qeq_bool_iff in Ex, Ey. lra.
Qed.

Lemma sort_desc_stable (p : Q) (l : list A) :
  filter (fun a => Qeq_bool (key a) p) (JS.sort cmp l)
  = filter (fun a => Qeq_bool (key a) p) l.
Proof.
  induction l as [|x l IH]; simpl.
  - reflexivity.
  - rewrite insert_desc_stable by apply sort_desc_sorted.
    simpl. rewrite IH. reflexivity.
Qed.
End SORT_DESC.

(** ** Maps *)

Section MAP_FACTS.
Context {V : Type}.
Implicit Types (m : JS.Map V) (k : string) (v : V).

Lemma get_set_same k v m : JS.get k (JS.set k v m) = Some v.
Proof.
  induction m as [|[k' v'] m IH]; simpl.
  - now rewrite String.eqb_refl.
  - destruct (String.eqb k k') eqn:E; simpl.
    + now rewrite String.eqb_refl.
    + now rewrite E.
Qed.

Lemma get_set_other k k' v m :
  k <> k' -> JS.get k' (JS.set k v m) = JS.get k' m.
Proof.
  intros Hne. induction m as [|[k0 v0] m IH]; simpl.
  - destruct (String.eqb k' k) eqn:E; [|reflexivity].
    apply String.eqb_eq in E. congruence.
  - destruct (String.eqb k k0) eqn:E; simpl.
    + apply String.eqb_eq in E. subst k0.
      destruct (String.eqb k' k) eqn:E'; [|reflexivity].
      apply String.eqb_eq in E'. congruence.
    + now rewrite IH.
Qed.

Lemma get_In k v m : JS.get k m = Some v -> In (k, v) m.
Proof.
  induction m as [|[k' v'] m IH]; simpl; [discriminate|].
  destruct (String.eqb k k') eqn:E.
  - apply String.eqb_eq in E. intros [= ->]. left. now subst.
  - intros H. right. now apply IH.
Qed.

Lemma get_None k m : JS.get k m = None <-> ~ In k (JS.keys m).
Proof.
  induction m as [|[k' v'] m IH]; simpl.
  - tauto.
  - destruct (String.eqb k k') eqn:E.
    + apply String.eqb_eq in E. subst. split; [discriminate|].
      intros H. exfalso. apply H. now left.
    + apply String.eqb_neq in E. rewrite IH. split.
      * intros H [H'|H']; [congruence | tauto].
      * tauto.
Qed.

Lemma In_get k v m : NoDup (JS.keys m) -> In (k, v) m -> JS.get k m = Some v.
Proof.
  induction m as [|[k' v'] m IH]; simpl; [tauto|].
  intros Hnd [H|H].
  - injection H as -> ->. now rewrite String.eqb_refl.
  - inversion Hnd as [|? ? Hk Hm]; subst.
    destruct (String.eqb k k') eqn:E.
    + apply String.eqb_eq in E. subst. exfalso. apply Hk.
      change k' with (fst (k', v)). now apply in_map.
    + now apply IH.
Qed.

Lemma keys_set k v m :
  JS.keys (JS.set k v m)
  = if JS.has k m then JS.keys m else (JS.keys m ++ [k])%list.
Proof.
  unfold JS.has. induction m as [|[k' v'] m IH]; simpl.
  - reflexivity.
  - destruct (String.eqb k k') eqn:E; simpl.
    + apply String.eqb_eq in E. now subst.
    + rewrite IH. now destruct (JS.get k m).
Qed.

Lemma has_true k m : JS.has k m = true <-> In k (JS.keys m).
Proof.
  unfold JS.has. destruct (JS.get k m) eqn:E.
  - split; [intros _ | reflexivity].
    apply get_In in E. change k with (fst (k, v)). now apply in_map.
  - apply get_None in E. split; [discriminate | tauto].
Qed.

Lemma In_keys_set k k' v m :
  In k' (JS.keys (JS.set k v m)) <-> k' = k \/ In k' (JS.keys m).
Proof.
  rewrite keys_set. destruct (JS.has k m) eqn:E.
  - apply has_true in E. split; [tauto|]. intros [->|H]; assumption.
  - rewrite in_app_iff. simpl. intuition congruence.
Qed.

Lemma NoDup_keys_set k v m :
  NoDup (JS.keys m) -> NoDup (JS.keys (JS.set k v m)).
Proof.
  intros Hnd. rewrite keys_set. destruct (JS.has k m) eqn:E; [exact Hnd|].
  assert (~ In k (JS.keys m)) as Hk.
  { intros H. apply has_true in H. congruence. }
  apply (Permutation_NoDup (l := k :: JS.keys m)).
  - apply Permutation_cons_append.
  - now constructor.
Qed.
End MAP_FACTS.

Section UPSERT_FACTS.
Context {V : Type}.
Variables (k : string) (init : V) (f : V -> V).
Implicit Types (m : JS.Map V).

Lemma upsert_eq m :
  JS.upsert k init f m
  = JS.set k (f (entryOr k init m)) (if JS.has k m then m else JS.set k init m).
Proof.
  unfold JS.upsert, entryOr, JS.has.
  destruct (JS.get k m) as [e|] eqn:E.
  - now rewrite E.
  - now rewrite get_set_same.
Qed.

Lemma upsert_get_same m : JS.get k (JS.upsert k init f m) = Some (f (entryOr k init m)).
Proof. rewrite upsert_eq. apply get_set_same. Qed.

Lemma upsert_get_other k' m :
  k <> k' -> JS.get k' (JS.upsert k init f m) = JS.get k' m.
Proof.
  intros Hne. rewrite upsert_eq, get_set_other by exact Hne.
  destruct (JS.has k m); [reflexivity|].
  now apply get_set_other.
Qed.

Lemma In_keys_upsert k' m :
  In k' (JS.keys (JS.upsert k init f m)) <-> k' = k \/ In k' (JS.keys m).
Proof.
  rewrite upsert_eq, In_keys_set.
  destruct (JS.has k m); [tauto|].
  rewrite In_keys_set. tauto.
Qed.

Lemma NoDup_keys_upsert m :
  NoDup (JS.keys m) -> NoDup (JS.keys (JS.upsert k init f m)).
Proof.
  intros H. rewrite upsert_eq. apply NoDup_keys_set.
  destruct (JS.has k m); [exact H|]. now apply NoDup_keys_set.
Qed.
End UPSERT_FACTS.

(** A quantity [h] read off the values of a map, summed over the map,
    after one [set] and after one [upsert]. *)
Section MAP_SUMS.
Context {V : Type}.
Variable h : V -> Q.

Lemma total_set (k : string) (v : V) (m : JS.Map V) :
  total h (JS.set k v m) == total h m - at_ h k m + h v.
Proof.
  unfold total, at_.
  induction m as [|[k' v'] m IH]; cbn [JS.set JS.get].
  - unfold JS.sumBy. cbn [fold_left snd]. lra.
  - destruct (String.eqb k k') eqn:E.
    + rewrite !sumBy_cons. cbn [snd]. lra.
    + rewrite !sumBy_cons, IH. cbn [snd]. lra.
Qed.

Lemma total_upsert (k : string) (init : V) (f : V -> V) (m : JS.Map V) :
  h init == 0 ->
  total h (JS.upsert k init f m)
  == total h m + (h (f (entryOr k init m)) - h (entryOr k init m)).
Proof.
  intros Hinit. rewrite upsert_eq, total_set.
  unfold JS.has, entryOr, at_.
  destruct (JS.get k m) as [e|] eqn:E.
  - rewrite E. lra.
  - rewrite get_set_same, total_set. unfold at_. rewrite E. lra.
Qed.

Lemma at_upsert (k k' : string) (init : V) (f : V -> V) (m : JS.Map V) :
  h init == 0 ->
  at_ h k' (JS.upsert k init f m)
  == at_ h k' m
     + (if String.eqb k k'
        then h (f (entryOr k init m)) - h (entryOr k init m) else 0).
Proof.
  intros Hinit. unfold at_.
  destruct (String.eqb k k') eqn:E.
  - apply String.eqb_eq in E. subst k'.
    rewrite upsert_get_same. unfold entryOr.
    destruct (JS.get k m); lra.
  - apply String.eqb_neq in E.
    rewrite upsert_get_other by exact E. lra.
Qed.
End MAP_SUMS.

(** The sum of the values of a map after [k] received [p] more. *)
Lemma sum_set_add (k : string) (p : Q) (m : JS.Map Q) :
  JS.sumBy snd (JS.set k (JS.orZero (JS.get k m) + p) m)
  == JS.sumBy snd m + p.
Proof.
  induction m as [|[k' v'] m IH]; cbn [JS.set JS.get].
  - unfold JS.sumBy. cbn [fold_left snd JS.orZero]. lra.
  - destruct (String.eqb k k') eqn:E.
    + rewrite !sumBy_cons. cbn [snd]. rewrite orZero_Some. lra.
    + rewrite !sumBy_cons, IH. cbn [snd]. lra.
Qed.

Lemma orZero_get_set_add (k k' : string) (p : Q) (m : JS.Map Q) :
  JS.orZero (JS.get k' (JS.set k (JS.orZero (JS.get k m) + p) m))
  == JS.orZero (JS.get k' m) + (if String.eqb k' k then p else 0).
Proof.
  destruct (String.eqb k' k) eqn:E.
  - apply String.eqb_eq in E. subst k'.
    rewrite get_set_same, orZero_Some. reflexivity.
  - apply String.eqb_neq in E.
    rewrite get_set_other by congruence. lra.
Qed.

(** ** Groupings: what a key holds after a loop *)

Section GROUP_FOLD.
Context {T V N : Type}.
Variable keyOf : T -> string.
Variable init : T -> V.
Variable update : T -> V -> V.
Variable h : V -> N.
Variable h0 : N.
Variable step : N -> T -> N.
Hypothesis h_init : forall t, h (init t) = h0.
Hypothesis h_update : forall t e, h (update t e) = step (h e) t.

Lemma heldAt_upsert (t : T) (m : JS.Map V) (k : string) :
  heldAt h h0 k (JS.upsert (keyOf t) (init t) (update t) m)
  = if String.eqb (keyOf t) k then step (heldAt h h0 k m) t
    else heldAt h h0 k m.
Proof.
  unfold heldAt. destruct (String.eqb (keyOf t) k) eqn:E.
  - apply String.eqb_eq in E. subst k.
    rewrite upsert_get_same, h_update. unfold entryOr.
    destruct (JS.get (keyOf t) m); [reflexivity | now rewrite h_init].
  - apply String.eqb_neq in E. now rewrite upsert_get_other.
Qed.

(** What the entry of a key holds after the loop is what it held before,
    taken through the steps of the elements of that key, in their
    order. *)
Lemma group_fold (ts : list T) (m : JS.Map V) (k : string) :
  heldAt h h0 k
    (fold_left (fun m t => JS.upsert (keyOf t) (init t) (update t) m) ts m)
  = fold_left step (filter (fun t => String.eqb (keyOf t) k) ts)
              (heldAt h h0 k m).
Proof.
  revert m. induction ts as [|t ts IH]; intros m; cbn [fold_left filter].
  - reflexivity.
  - rewrite IH, heldAt_upsert.
    destruct (String.eqb (keyOf t) k); reflexivity.
Qed.

Lemma group_fold_keys (ts : list T) (m : JS.Map V) (k : string) :
  In k (JS.keys (fold_left (fun m t => JS.upsert (keyOf t) (init t) (update t) m)
                           ts m))
  <-> In k (JS.keys m) \/ exists t, In t ts /\ keyOf t = k.
Proof.
  revert m. induction ts as [|t ts IH]; intros m; cbn [fold_left].
  - split; [tauto|]. intros [H|[t [[] _]]]. exact H.
  - rewrite IH, In_keys_upsert. split.
    + intros [[->|H]|[t' [Ht' Hk]]].
      * right. exists t. split; [now left | reflexivity].
      * now left.
      * right. exists t'. split; [now right | exact Hk].
    + intros [H|[t' [[->|Ht'] Hk]]].
      * left. now right.
      * left. left. now symmetry.
      * right. now exists t'.
Qed.

Lemma group_fold_NoDup (ts : list T) (m : JS.Map V) :
  NoDup (JS.keys m) ->
  NoDup (JS.keys (fold_left (fun m t => JS.upsert (keyOf t) (init t) (update t) m)
                            ts m)).
Proof.
  revert m. induction ts as [|t ts IH]; intros m Hm; cbn [fold_left].
  - exact Hm.
  - apply IH. now apply NoDup_keys_upsert.
Qed.
End GROUP_FOLD.

(** A loop that skips the elements that fail a test is the loop over the
    elements that pass it. *)
Lemma fold_left_filter {A B} (p : B -> bool) (g : A -> B -> A) (l : list B)
    (a : A) :
  fold_left (fun acc x => if p x then g acc x else acc) l a
  = fold_left g (filter p l) a.
Proof.
  revert a. induction l as [|x l IH]; intros a; cbn [fold_left filter].
  - reflexivity.
  - rewrite IH. destruct (p x); reflexivity.
Qed.

Section SET_FOLD.
Context {T V : Type}.
Variable keyOf : T -> string.
Variable g : option V -> T -> V.



End SET_FOLD.

(** ** Binary64 numbers *)


(** ** The drill-down into items *)

Import AnalyticsModal.

Lemma addItem_fold (l : list ReceiptItem) (p : JS.Map JS.number * JS.number) :
  snd (fold_left addItem l p) = fold_left (fun sum x => sum + price x) l (snd p)
  /\ JS.sumBy snd (fst (fold_left addItem l p))
     == JS.sumBy snd (fst p) + JS.sumBy price l.
Proof.
  revert p. induction l as [|i l IH]; intros p.
  - split; [reflexivity|]. cbn [fold_left]. sum_nil. lra.
  - cbn [fold_left]. destruct (IH (addItem p i)) as [IH1 IH2].
    split; [exact IH1|].
    rewrite IH2. unfold addItem. cbn [fst].
    rewrite sum_set_add, sumBy_cons. lra.
Qed.

Ltac split_item_fold H1 H2 :=
  match goal with
  | |- context [fold_left addItem ?l ?p] =>
      destruct (addItem_fold l p) as [H1 H2];
      destruct (fold_left addItem l p)
  end.

Lemma itemizedStep_items (st : ItemAcc) (t : Transaction) :
  JS.sumBy snd (itemMap (itemizedStep st t))
  == JS.sumBy snd (itemMap st) + itemizedPart t.
Proof.
  unfold itemizedStep, itemizedPart, itemsSum.
  destruct (hasItems t).
  - split_item_fold H1 H2. exact H2.
  - cbn [itemMap]. lra.
Qed.

Lemma itemizedStep_manual (st : ItemAcc) (t : Transaction) :
  manualEntryTotal (itemizedStep st t)
  == manualEntryTotal st + unclassifiedPart t.
Proof.
  unfold itemizedStep, unclassifiedPart, itemsSum.
  destruct (hasItems t).
  - split_item_fold H1 H2.
    cbn [snd] in H1. subst. cbn [manualEntryTotal]. unfold JS.sumBy.
    destruct (JS.gtb _ _); lra.
  - cbn [manualEntryTotal]. lra.
Qed.

Lemma itemizedLoop_from (ts : list Transaction) (st : ItemAcc) :
  JS.sumBy snd (itemMap (fold_left itemizedStep ts st))
  == JS.sumBy snd (itemMap st) + JS.sumBy itemizedPart ts
  /\ manualEntryTotal (fold_left itemizedStep ts st)
     == manualEntryTotal st + JS.sumBy unclassifiedPart ts.
Proof.
  revert st. induction ts as [|t ts IH]; intros st; cbn [fold_left].
  - sum_nil. split; lra.
  - destruct (IH (itemizedStep st t)) as [H1 H2].
    rewrite H1, H2, itemizedStep_items, itemizedStep_manual, !sumBy_cons.
    split; lra.
Qed.

(** *** The drill-down on binary64 numbers *)







(** With items the prices are added bucket by bucket and the buckets in
    the order of the sort, and rounding makes the total differ from that
    of the amounts even when every receipt is itemised in full: for
    receipts of 0.1, 0.2 and 0.3 the rows add up to 0.6, the amounts to the
    next binary64 number above it. *)
Lemma itemizedData_conservation_rounds :
  Binary64.itemizedData threeReceipts "all" (Some Category.GROCERIES)
  = [{| Binary64.nv_name := "Rice"; Binary64.nv_value := cents 30 |};
     {| Binary64.nv_name := "Salt"; Binary64.nv_value := cents 20 |};
     {| Binary64.nv_name := "Gum"; Binary64.nv_value := cents 10 |}]
  /\ Binary64.totalItemizedExpense threeReceipts "all"
       (Some Category.GROCERIES)
     = cents 60
  /\ Binary64.sumBy Binary64.amountAUD
       (Binary64.relevantTransactions threeReceipts "all" Category.GROCERIES)
     = PrimFloat.next_up (cents 60).
Proof.
  repeat split; vm_compute; reflexivity.
Qed.


(** The buckets of the items. *)

Lemma addItem_fold_get (n : string) (l : list ReceiptItem)
    (p : JS.Map JS.number * JS.number) :
  JS.orZero (JS.get n (fst (fold_left addItem l p)))
  == JS.orZero (JS.get n (fst p))
     + JS.sumBy price (filter (fun i => String.eqb (JS.trim (name i)) n) l).
Proof.
  revert p. induction l as [|i l IH]; intros p; cbn [fold_left filter].
  - sum_nil. lra.
  - rewrite IH. unfold addItem. cbn [fst].
    rewrite orZero_get_set_add, (String.eqb_sym n).
    destruct (String.eqb (JS.trim (name i)) n).
    + rewrite sumBy_cons. lra.
    + lra.
Qed.

Lemma addItem_fold_keys (n : string) (l : list ReceiptItem)
    (p : JS.Map JS.number * JS.number) :
  In n (JS.keys (fst (fold_left addItem l p)))
  <-> In n (JS.keys (fst p)) \/ exists i, In i l /\ JS.trim (name i) = n.
Proof.
  revert p. induction l as [|i l IH]; intros p; cbn [fold_left].
  - split; [tauto|]. intros [H|[i [[] _]]]. exact H.
  - rewrite IH. unfold addItem. cbn [fst]. rewrite In_keys_set.
    split.
    + intros [[->|H]|[j [Hj Hn]]].
      * right. exists i. split; [now left | reflexivity].
      * now left.
      * right. exists j. split; [now right | exact Hn].
    + intros [H|[j [[->|Hj] Hn]]].
      * left. now right.
      * left. left. now symmetry.
      * right. exists j. now split.
Qed.

Lemma addItem_fold_NoDup (l : list ReceiptItem)
    (p : JS.Map JS.number * JS.number) :
  NoDup (JS.keys (fst p)) -> NoDup (JS.keys (fst (fold_left addItem l p))).
Proof.
  revert p. induction l as [|i l IH]; intros p Hp; cbn [fold_left].
  - exact Hp.
  - apply IH. unfold addItem. cbn [fst]. now apply NoDup_keys_set.
Qed.

Lemma hasItems_false (t : Transaction) : hasItems t = false -> itemsOf t = [].
Proof. unfold hasItems. now destruct (itemsOf t). Qed.

Lemma itemizedStep_get (n : string) (st : ItemAcc) (t : Transaction) :
  JS.orZero (JS.get n (itemMap (itemizedStep st t)))
  == JS.orZero (JS.get n (itemMap st)) + itemsNamed n t.
Proof.
  unfold itemizedStep, itemsNamed.
  destruct (hasItems t) eqn:E.
  - pose proof (addItem_fold_get n (itemsOf t) (itemMap st, 0)) as H.
    split_item_fold H1 H2. exact H.
  - rewrite (hasItems_false t E). cbn [itemMap filter].
    sum_nil. lra.
Qed.

Lemma itemizedStep_keys (n : string) (st : ItemAcc) (t : Transaction) :
  In n (JS.keys (itemMap (itemizedStep st t)))
  <-> In n (JS.keys (itemMap st))
      \/ exists i, In i (itemsOf t) /\ JS.trim (name i) = n.
Proof.
  unfold itemizedStep.
  destruct (hasItems t) eqn:E.
  - pose proof (addItem_fold_keys n (itemsOf t) (itemMap st, 0)) as H.
    split_item_fold H1 H2. exact H.
  - rewrite (hasItems_false t E). cbn [itemMap].
    split; [tauto|]. intros [H|[i [[] _]]]. exact H.
Qed.

Lemma itemizedStep_NoDup (st : ItemAcc) (t : Transaction) :
  NoDup (JS.keys (itemMap st)) ->
  NoDup (JS.keys (itemMap (itemizedStep st t))).
Proof.
  intros Hst. unfold itemizedStep.
  destruct (hasItems t).
  - pose proof (addItem_fold_NoDup (itemsOf t) (itemMap st, 0) Hst) as H.
    split_item_fold H1 H2. exact H.
  - exact Hst.
Qed.

Lemma itemizedLoop_buckets (ts : list Transaction) (st : ItemAcc) :
  (forall n,
      JS.orZero (JS.get n (itemMap (fold_left itemizedStep ts st)))
      == JS.orZero (JS.get n (itemMap st)) + JS.sumBy (itemsNamed n) ts)
  /\ (forall n,
         In n (JS.keys (itemMap (fold_left itemizedStep ts st)))
         <-> In n (JS.keys (itemMap st))
             \/ exists t i, In t ts /\ In i (itemsOf t)
                            /\ JS.trim (name i) = n)
  /\ (NoDup (JS.keys (itemMap st)) ->
      NoDup (JS.keys (itemMap (fold_left itemizedStep ts st)))).
Proof.
  revert st. induction ts as [|t ts IH]; intros st; cbn [fold_left].
  - split; [|split].
    + intros n. sum_nil. lra.
    + intros n. split; [tauto|]. intros [H|[t [i [[] _]]]]. exact H.
    + tauto.
  - destruct (IH (itemizedStep st t)) as [Hget [Hkeys Hnd]].
    split; [|split].
    + intros n. rewrite Hget, itemizedStep_get, sumBy_cons. lra.
    + intros n. rewrite Hkeys, itemizedStep_keys. split.
      * intros [[H|[i [Hi Hn]]]|[t' [i [Ht' H]]]].
        -- now left.
        -- right. exists t, i. repeat split; [now left | exact Hi | exact Hn].
        -- right. exists t', i. split; [now right | exact H].
      * intros [H|[t' [i [[->|Ht'] [Hi Hn]]]]].
        -- left. now left.
        -- left. right. exists i. now split.
        -- right. exists t', i. now repeat split.
    + intros H. now apply Hnd, itemizedStep_NoDup.
Qed.



(** The test of the code at the tolerance.  A receipt of 0.8 with an item
    at 0.7 adds a remainder, 0.8 - 0.7 on binary64 numbers, since 0.7 + 0.1
    is rounded to a number below 0.8; a receipt of 0.4 with an item at 0.3
    adds nothing, since 0.3 + 0.1 is rounded to 0.4, although 0.4 - 0.3 is
    rounded to a number above 0.1. *)
Lemma itemizedStep_at_the_tolerance :
  addsToManual eightySeventy = true
  /\ Binary64.itemizedData [eightySeventy] "all" (Some Category.GROCERIES)
     = [{| Binary64.nv_name := "Tea"; Binary64.nv_value := cents 70 |};
        {| Binary64.nv_name := manualLabel;
           Binary64.nv_value := PrimFloat.sub (cents 80) (cents 70) |}]
  /\ addsToManual fortyThirty = false
  /\ Binary64.gtb (manualPart fortyThirty) Binary64.tenth = true
  /\ Binary64.itemizedData [fortyThirty] "all" (Some Category.GROCERIES)
     = [{| Binary64.nv_name := "Tea"; Binary64.nv_value := cents 30 |}].
Proof.
  repeat split; vm_compute; reflexivity.
Qed.


(** ** Totals and the monthly history *)

Import App.

Lemma sumBy_filter_if {A} (f : A -> Q) (p : A -> bool) (l : list A) :
  JS.sumBy f (filter p l) == JS.sumBy (fun x => if p x then f x else 0) l.
Proof.
  induction l as [|x l IH]; cbn [filter].
  - reflexivity.
  - rewrite sumBy_cons. destruct (p x).
    + rewrite sumBy_cons, IH. reflexivity.
    + rewrite IH. lra.
Qed.

Lemma totalIncomeAUD_spec (ts : list Transaction) :
  totalIncomeAUD ts == JS.sumBy incomeOf ts.
Proof. unfold totalIncomeAUD, incomeTransactions. apply sumBy_filter_if. Qed.

Lemma totalExpenseAUD_spec (ts : list Transaction) :
  totalExpenseAUD ts == JS.sumBy expenseOf ts.
Proof.
  unfold totalExpenseAUD, expenseTransactions. rewrite sumBy_filter_if.
  apply sumBy_ext. intros t _. unfold expenseOf. now destruct (isIncome t).
Qed.

Lemma monthlyStep_income (m : JS.Map MonthAcc) (t : Transaction) :
  total acc_income (monthlyStep m t) == total acc_income m + incomeOf t.
Proof.
  unfold monthlyStep. rewrite total_upsert by reflexivity.
  unfold incomeOf. destruct (isIncome t); cbn [acc_income]; lra.
Qed.

Lemma monthlyStep_expense (m : JS.Map MonthAcc) (t : Transaction) :
  total acc_expense (monthlyStep m t) == total acc_expense m + expenseOf t.
Proof.
  unfold monthlyStep. rewrite total_upsert by reflexivity.
  unfold expenseOf. destruct (isIncome t); cbn [acc_expense]; lra.
Qed.

Lemma monthly_fold_totals (ts : list Transaction) (m : JS.Map MonthAcc) :
  total acc_income (fold_left monthlyStep ts m)
  == total acc_income m + JS.sumBy incomeOf ts
  /\ total acc_expense (fold_left monthlyStep ts m)
     == total acc_expense m + JS.sumBy expenseOf ts.
Proof.
  revert m. induction ts as [|t ts IH]; intros m; cbn [fold_left].
  - sum_nil. split; lra.
  - destruct (IH (monthlyStep m t)) as [H1 H2].
    rewrite H1, H2, monthlyStep_income, monthlyStep_expense, !sumBy_cons.
    split; lra.
Qed.

(** In exact arithmetic, where a sum does not depend on the order of its
    terms, the incomes of the rows of the monthly history add up to the
    total income, and their expenses to the total expense: on binary64
    numbers the two sides differ by rounding only. *)
Lemma monthlyHistory_totals_exact
    (localeCompare : string -> string -> Q) (transactions : list Transaction) :
  JS.sumBy mh_income (monthlyHistory localeCompare transactions)
  == totalIncomeAUD transactions
  /\ JS.sumBy mh_expense (monthlyHistory localeCompare transactions)
     == totalExpenseAUD transactions.
Proof.
  unfold monthlyHistory.
  destruct (monthly_fold_totals transactions []) as [H1 H2].
  rewrite !sumBy_map. cbn [toMonthRow mh_income mh_expense].
  rewrite !(sumBy_perm _ _ _ (sort_perm _ _)).
  rewrite totalIncomeAUD_spec, totalExpenseAUD_spec.
  unfold total in H1, H2. rewrite H1, H2.
  sum_nil. split; lra.
Qed.

Lemma monthlyStep64_upsert :
  Binary64.monthlyStep
  = fun m t => JS.upsert (monthKey64 t) (monthZero64 t) (monthUpdate64 t) m.
Proof. reflexivity. Qed.

(** C7, as amended.  Whatever the collation of the host, the monthly
    history has one row for each month key of the transactions, and the
    row of a month carries the income total and the expense total of the
    transactions of that month, as the totals of the app compute them:
    added in the order of the list, on binary64 numbers.  Its net is the
    one less the other. *)
Theorem monthlyHistory_month_totals (localeCompare : string -> string -> Q)
    (transactions : list Binary64.Transaction) :
  NoDup (map Binary64.mh_month
             (Binary64.monthlyHistory localeCompare transactions))
  /\ (forall t, In t transactions ->
        In (monthKey64 t)
           (map Binary64.mh_month
                (Binary64.monthlyHistory localeCompare transactions)))
  /\ (forall row,
        In row (Binary64.monthlyHistory localeCompare transactions) ->
        ofMonth (Binary64.mh_month row) transactions <> []
        /\ Binary64.mh_income row
           = Binary64.totalIncomeAUD
               (ofMonth (Binary64.mh_month row) transactions)
        /\ Binary64.mh_expense row
           = Binary64.totalExpenseAUD
               (ofMonth (Binary64.mh_month row) transactions)
        /\ Binary64.mh_net row
           = PrimFloat.sub (Binary64.mh_income row) (Binary64.mh_expense row)).
Proof.
  unfold Binary64.monthlyHistory. rewrite monthlyStep64_upsert.
  set (m := fold_left
              (fun m t => JS.upsert (monthKey64 t) (monthZero64 t)
                                    (monthUpdate64 t) m)
              transactions []).
  assert (NoDup (JS.keys m)) as Hnd
    by (apply (group_fold_NoDup monthKey64 monthZero64 monthUpdate64);
        constructor).
  assert (forall k, In k (JS.keys m)
             <-> exists t, In t transactions /\ monthKey64 t = k) as Hkeys.
  { intros k. unfold m.
    rewrite (group_fold_keys monthKey64 monthZero64 monthUpdate64).
    cbn [JS.keys map In]. tauto. }
  assert (Permutation
            (map Binary64.mh_month
               (map Binary64.toMonthRow
                  (JS.sort (fun a b => localeCompare (fst b) (fst a)) m)))
            (JS.keys m)) as Hperm.
  { rewrite map_map. cbn [Binary64.toMonthRow Binary64.mh_month].
    unfold JS.keys. apply Permutation_map, sort_perm. }
  split; [|split].
  - eapply Permutation_NoDup; [apply Permutation_sym, Hperm | exact Hnd].
  - intros t Ht. apply (Permutation_in _ (Permutation_sym Hperm)).
    apply Hkeys. now exists t.
  - intros row Hrow. apply in_map_iff in Hrow.
    destruct Hrow as [[k e] [<- He]]. apply sort_In in He.
    cbn [Binary64.toMonthRow Binary64.mh_month Binary64.mh_income
         Binary64.mh_expense Binary64.mh_net fst snd].
    pose proof (In_get _ _ _ Hnd He) as Hget.
    split; [|split; [|split; [|reflexivity]]].
    + assert (In k (JS.keys m)) as Hk
        by (change k with (fst (k, e)); now apply in_map).
      apply Hkeys in Hk. destruct Hk as [t [Ht Hkt]].
      intros Hnil.
      assert (In t (ofMonth k transactions)) as Hin.
      { apply filter_In. split; [exact Ht|]. now apply String.eqb_eq. }
      rewrite Hnil in Hin. destruct Hin.
    + pose proof (group_fold monthKey64 monthZero64 monthUpdate64
                    Binary64.acc_income PrimFloat.zero
                    (fun a t => if Binary64.isIncome t
                                then PrimFloat.add a (Binary64.amountAUD t)
                                else a)
                    (fun _ => eq_refl)
                    (fun t e => ltac:(unfold monthUpdate64;
                                      destruct (Binary64.isIncome t);
                                      reflexivity))
                    transactions [] k) as H.
      fold m in H. unfold heldAt in H. rewrite Hget in H. cbn [JS.get] in H.
      rewrite H, fold_left_filter. reflexivity.
    + pose proof (group_fold monthKey64 monthZero64 monthUpdate64
                    Binary64.acc_expense PrimFloat.zero
                    (fun a t => if negb (Binary64.isIncome t)
                                then PrimFloat.add a (Binary64.amountAUD t)
                                else a)
                    (fun _ => eq_refl)
                    (fun t e => ltac:(unfold monthUpdate64;
                                      destruct (Binary64.isIncome t);
                                      reflexivity))
                    transactions [] k) as H.
      fold m in H. unfold heldAt in H. rewrite Hget in H. cbn [JS.get] in H.
      rewrite H, fold_left_filter. reflexivity.
Qed.

(** C7 as the specification states it fails: with incomes of 0.1 in
    January, 0.1 in February and 1.1 in January, the total income of the
    app is 0.1 + 0.1 + 1.1, which is 1.3, while the incomes of the rows of
    the monthly history, 0.1 for February and 0.1 + 1.1 for January, add
    up to the next binary64 number above 1.3. *)
Lemma monthlyHistory_sum_rounds :
  Binary64.totalIncomeAUD threeIncomes = cents 130
  /\ map Binary64.mh_income
         (Binary64.monthlyHistory codeUnitCompare threeIncomes)
     = [cents 10; PrimFloat.add (cents 10) (cents 110)]
  /\ Binary64.sumBy Binary64.mh_income
       (Binary64.monthlyHistory codeUnitCompare threeIncomes)
     = PrimFloat.next_up (cents 130)
  /\ PrimFloat.eqb
       (Binary64.sumBy Binary64.mh_income
          (Binary64.monthlyHistory codeUnitCompare threeIncomes))
       (Binary64.totalIncomeAUD threeIncomes)
     = false.
Proof.
  repeat split; vm_compute; reflexivity.
Qed.

(** ** Grouping by category *)

Lemma addToCategory_fold_get (c : string) (ts : list Transaction)
    (m : JS.Map Q) :
  JS.orZero (JS.get c (fold_left addToCategory ts m))
  == JS.orZero (JS.get c m)
     + JS.sumBy amountAUD (filter (fun t => String.eqb (category t) c) ts).
Proof.
  revert m. induction ts as [|t ts IH]; intros m; cbn [fold_left filter].
  - sum_nil. lra.
  - rewrite IH. unfold addToCategory.
    rewrite orZero_get_set_add, (String.eqb_sym c).
    destruct (String.eqb (category t) c).
    + rewrite sumBy_cons. lra.
    + lra.
Qed.

Lemma addToCategory_fold_keys (c : string) (ts : list Transaction)
    (m : JS.Map Q) :
  In c (JS.keys (fold_left addToCategory ts m))
  <-> In c (JS.keys m) \/ exists t, In t ts /\ category t = c.
Proof.
  revert m. induction ts as [|t ts IH]; intros m; cbn [fold_left].
  - split; [tauto|]. intros [H|[t [[] _]]]. exact H.
  - rewrite IH. unfold addToCategory. rewrite In_keys_set. split.
    + intros [[->|H]|[t' [Ht' Hc]]].
      * right. exists t. split; [now left | reflexivity].
      * now left.
      * right. exists t'. split; [now right | exact Hc].
    + intros [H|[t' [[->|Ht'] Hc]]].
      * left. now right.
      * left. left. now symmetry.
      * right. exists t'. now split.
Qed.

Lemma addToCategory_fold_NoDup (ts : list Transaction) (m : JS.Map Q) :
  NoDup (JS.keys m) -> NoDup (JS.keys (fold_left addToCategory ts m)).
Proof.
  revert m. induction ts as [|t ts IH]; intros m Hm; cbn [fold_left].
  - exact Hm.
  - apply IH. unfold addToCategory. now apply NoDup_keys_set.
Qed.

Lemma filter_partition_perm {A} (p : A -> bool) (l : list A) :
  Permutation (filter p l ++ filter (fun x => negb (p x)) l) l.
Proof.
  induction l as [|x l IH]; cbn [filter].
  - apply perm_nil.
  - destruct (p x); cbn [negb app].
    + now apply perm_skip.
    + eapply perm_trans; [apply Permutation_sym, Permutation_middle|].
      now apply perm_skip.
Qed.

(** [Object.entries] lists every own property once. *)
Lemma entries_perm {V} (o : JS.Map V) : Permutation (JS.entries o) o.
Proof.
  unfold JS.entries.
  eapply perm_trans; [|apply (filter_partition_perm (fun e => JS.isArrayIndex (fst e)))].
  apply Permutation_app_tail, sort_perm.
Qed.

(** ** Budgets *)

Lemma currentMonthSpending_get (key cat : string) (ts : list Transaction) :
  JS.orZero (JS.get cat (currentMonthSpending key ts))
  == currentMonthSpent key cat ts.
Proof.
  unfold currentMonthSpending, currentMonthSpent.
  rewrite addToCategory_fold_get. cbn [JS.get JS.orZero].
  assert (forall l : list Transaction,
             filter (fun t => String.eqb (category t) cat)
               (filter (fun t => negb (isIncome t) && JS.startsWith (date t) key) l)
             = filter (fun t => negb (isIncome t) && JS.startsWith (date t) key
                                && String.eqb (category t) cat) l) as ->.
  { induction l as [|t l IH]; cbn [filter]; [reflexivity|].
    destruct (negb (isIncome t) && JS.startsWith (date t) key);
      cbn [filter andb]; rewrite IH; reflexivity. }
  lra.
Qed.

Lemma currentMonthSpent_nonneg (key cat : string) (ts : list Transaction) :
  (forall t, In t ts -> 0 <= amountAUD t) -> 0 <= currentMonthSpent key cat ts.
Proof.
  intros H. apply sumBy_nonneg. intros t Ht.
  apply filter_In in Ht. now apply H.
Qed.

Lemma toBudgetRow_fields (spending : JS.Map Q) (e : string * Q) :
  0 < snd e ->
  let r := toBudgetRow spending e in
  bs_category r = fst e /\ bs_limit r = snd e
  /\ bs_spent r = JS.orZero (JS.get (fst e) spending)
  /\ bs_rawPercentage r = bs_spent r / bs_limit r * 100
  /\ bs_percentage r = Qmin (bs_rawPercentage r) 100
  /\ (bs_isOver r = true <-> bs_limit r < bs_spent r).
Proof.
  destruct e as [cat limit]. intros Hl. cbn.
  repeat split; try reflexivity; apply gtb_true.
Qed.

Lemma filter_perm {A} (p : A -> bool) (l l' : list A) :
  Permutation l l' -> Permutation (filter p l) (filter p l').
Proof.
  induction 1 as [|x l l' _ IH|x y l|l l' l'' _ IH1 _ IH2]; cbn [filter].
  - apply perm_nil.
  - destruct (p x); [now apply perm_skip | exact IH].
  - destruct (p x), (p y);
      try apply perm_swap; apply Permutation_refl.
  - eapply perm_trans; eassumption.
Qed.

Lemma budgetRows_In (nowISO : string) (transactions : list Transaction)
    (budgets : JS.Map Q) (r : BudgetRow) :
  In r (budgetRows nowISO transactions budgets) ->
  In (bs_category r, bs_limit r) budgets
  /\ 0 < bs_limit r
  /\ bs_spent r
     == currentMonthSpent (JS.substring 0 7 nowISO) (bs_category r) transactions
  /\ bs_rawPercentage r = bs_spent r / bs_limit r * 100
  /\ bs_percentage r = Qmin (bs_rawPercentage r) 100
  /\ (bs_isOver r = true <-> bs_limit r < bs_spent r).
Proof.
  unfold budgetRows. intros H.
  apply in_map_iff in H. destruct H as [e [<- He]].
  apply filter_In in He. destruct He as [He Hpos].
  apply gtb_true in Hpos.
  destruct (toBudgetRow_fields
              (currentMonthSpending (JS.substring 0 7 nowISO) transactions)
              e Hpos) as [Hc [Hl [Hs [Hr [Hp Ho]]]]].
  rewrite Hc, Hl.
  split.
  { apply (Permutation_in _ (entries_perm budgets)). now destruct e. }
  split; [exact Hpos|].
  split.
  { rewrite Hs. apply currentMonthSpending_get. }
  rewrite <- Hl at 1 2. tauto.
Qed.

Lemma percentage_bounds (spent limit : Q) :
  0 < limit ->
  Qmin (spent / limit * 100) 100 <= 100
  /\ (0 <= spent -> 0 <= Qmin (spent / limit * 100) 100).
Proof.
  intros Hl. split; [apply Q.le_min_r|].
  intros Hs. apply Q.min_glb; [|lra].
  apply Qmult_le_0_compat; [|lra].
  apply Qmult_le_0_compat; [exact Hs|].
  apply Qlt_le_weak, Qinv_lt_0_compat, Hl.
Qed.

(** C5.  The rows of the budget status are those of the budgets with a
    limit above zero, one each; a row carries the expenses of its category
    in the current month, that amount as a percentage of the limit, the
    percentage capped at 100, which is at most 100 and, the amounts being
    non-negative, at least 0, and whether the limit is exceeded.  With the
    single budget of 100 for groceries and 120 spent on them this month,
    the one row reads 100, 120, 120 percent, capped at 100, over. *)
Theorem budgetStatus_contents (nowISO : string)
    (transactions : list Transaction) (budgets : JS.Map Q) :
  Permutation
    (map (fun r => (bs_category r, bs_limit r))
         (budgetStatus nowISO transactions budgets))
    (filter (fun e => JS.gtb (snd e) 0) budgets)
  /\ (forall r, In r (budgetStatus nowISO transactions budgets) ->
        0 < bs_limit r
        /\ bs_spent r
           == currentMonthSpent (JS.substring 0 7 nowISO) (bs_category r)
                transactions
        /\ bs_rawPercentage r == bs_spent r / bs_limit r * 100
        /\ bs_percentage r == Qmin (bs_rawPercentage r) 100
        /\ bs_percentage r <= 100
        /\ ((forall t, In t transactions -> 0 <= amountAUD t) ->
            0 <= bs_percentage r)
        /\ (bs_isOver r = true <-> bs_limit r < bs_spent r))
  /\ (currentMonthSpent (JS.substring 0 7 nowISO) "Groceries" transactions
      == 120 ->
      exists r,
        budgetStatus nowISO transactions [("Groceries", 100)] = [r]
        /\ bs_category r = "Groceries" /\ bs_limit r == 100
        /\ bs_spent r == 120 /\ bs_rawPercentage r == 120
        /\ bs_percentage r == 100 /\ bs_isOver r = true).
Proof.
  split; [|split].
  - unfold budgetStatus.
    eapply perm_trans; [apply Permutation_map, sort_perm|].
    unfold budgetRows. rewrite map_map.
    rewrite (map_ext _ (fun e => e)) by (now intros [c l]).
    rewrite map_id. apply filter_perm, entries_perm.
  - intros r Hr. apply sort_In in Hr.
    destruct (budgetRows_In _ _ _ _ Hr) as [_ [Hl [Hs [Hraw [Hp Ho]]]]].
    destruct (percentage_bounds (bs_spent r) (bs_limit r) Hl) as [Hle Hge].
    split; [exact Hl|]. split; [exact Hs|].
    split; [now rewrite Hraw|]. split; [now rewrite Hp|].
    split; [now rewrite Hp, Hraw|].
    split; [|exact Ho].
    intros Hpos. rewrite Hp, Hraw. apply Hge. rewrite Hs.
    now apply currentMonthSpent_nonneg.
  - intros Hspent.
    assert (In (toBudgetRow
                  (currentMonthSpending (JS.substring 0 7 nowISO) transactions)
                  ("Groceries", 100))
               (budgetRows nowISO transactions [("Groceries", 100)])) as Hin
      by (left; reflexivity).
    destruct (budgetRows_In _ _ _ _ Hin) as [_ [Hl [Hs [Hraw [Hp Ho]]]]].
    eexists. split; [reflexivity|].
    cbn [toBudgetRow bs_category bs_limit bs_spent bs_rawPercentage
         bs_percentage bs_isOver] in *.
    rewrite Hspent in Hs.
    assert (JS.orZero
              (JS.get "Groceries"
                 (currentMonthSpending (JS.substring 0 7 nowISO) transactions))
            / 100 * 100 == 120) as Hr by (rewrite Hs; reflexivity).
    split; [reflexivity|]. split; [reflexivity|]. split; [exact Hs|].
    split; [exact Hr|].
    split.
    + rewrite Hr. reflexivity.
    + apply Ho. rewrite Hs. reflexivity.
Qed.

(** Scenario B of the specification, evaluated. *)
Lemma budgetStatus_scenarioB :
  exists r,
    budgetStatus clockMarch scenarioB [("Groceries", 100)] = [r]
    /\ bs_category r = "Groceries" /\ bs_limit r == 100
    /\ bs_spent r == 120 /\ bs_rawPercentage r == 120
    /\ bs_percentage r == 100 /\ bs_isOver r = true.
Proof.
  destruct (budgetStatus_contents clockMarch scenarioB []) as [_ [_ H]].
  apply H. vm_compute. reflexivity.
Defined.

(** C6, as amended.  The rows of the budget status are in descending
    order of the capped percentage, and rows with the same capped
    percentage are in the order in which [Object.entries] lists their
    budgets: neither the uncapped percentage nor the label is looked at. *)
Theorem budgetStatus_order (nowISO : string)
    (transactions : list Transaction) (budgets : JS.Map Q) :
  StronglySorted (fun a b => bs_percentage b <= bs_percentage a)
                 (budgetStatus nowISO transactions budgets)
  /\ forall p,
       filter (fun r => Qeq_bool (bs_percentage r) p)
              (budgetStatus nowISO transactions budgets)
       = filter (fun r => Qeq_bool (bs_percentage r) p)
                (budgetRows nowISO transactions budgets).
Proof.
  unfold budgetStatus. split.
  - apply (sort_desc_sorted bs_percentage).
  - intros p. apply (sort_desc_stable bs_percentage).
Qed.

(** C6 as the specification states it fails: both budgets are capped at
    100, the second one is used to 150 percent and the first to 120, and
    the first stays in front. *)
Lemma budgetStatus_ties_keep_order :
  exists r1 r2,
    budgetStatus clockMarch twoOverspent twoBudgets = [r1; r2]
    /\ bs_category r1 = "Groceries" /\ bs_category r2 = "Dining"
    /\ bs_percentage r1 == bs_percentage r2
    /\ bs_rawPercentage r1 < bs_rawPercentage r2.
Proof.
  do 2 eexists. split; [vm_compute; reflexivity|].
  repeat split.
Qed.

(** C8, as amended.  What the components read from their host, beside
    their arguments.  The budget status reads the clock, and of it the
    month only: it is the same for two runs on the same transactions and
    budgets when the clock shows the same month at both, and whatever the
    clock shows it has a row for the same budgets with the same limits.
    The monthly history and the monthly trend read the collation of the
    host, which decides the order of their rows and nothing else: under
    two collations the rows are the same, in the one order or the other;
    the monthly trend reads the time zone as well. *)
Theorem host_readings (transactions : list Transaction)
    (budgets : JS.Map Q) :
  (forall now1 now2,
      JS.substring 0 7 now1 = JS.substring 0 7 now2 ->
      budgetStatus now1 transactions budgets
      = budgetStatus now2 transactions budgets)
  /\ (forall now1 now2,
         Permutation
           (map (fun r => (bs_category r, bs_limit r))
                (budgetStatus now1 transactions budgets))
           (map (fun r => (bs_category r, bs_limit r))
                (budgetStatus now2 transactions budgets)))
  /\ (forall collation1 collation2,
         Permutation (monthlyHistory collation1 transactions)
                     (monthlyHistory collation2 transactions))
  /\ (forall localTZA collation1 collation2,
         Permutation (monthlyData localTZA collation1 transactions)
                     (monthlyData localTZA collation2 transactions)).
Proof.
  split; [|split; [|split]].
  - intros now1 now2 H. unfold budgetStatus, budgetRows. now rewrite H.
  - assert (forall now,
              Permutation
                (map (fun r => (bs_category r, bs_limit r))
                     (budgetStatus now transactions budgets))
                (filter (fun e => JS.gtb (snd e) 0) (JS.entries budgets)))
      as H.
    { intros now. unfold budgetStatus.
      eapply perm_trans; [apply Permutation_map, sort_perm|].
      unfold budgetRows. rewrite map_map.
      rewrite (map_ext _ (fun e => e)) by (now intros [c l]).
      rewrite map_id. apply Permutation_refl. }
    intros now1 now2.
    eapply perm_trans; [apply H | apply Permutation_sym, H].
  - intros c1 c2. unfold monthlyHistory. apply Permutation_map.
    eapply perm_trans; [apply sort_perm | apply Permutation_sym, sort_perm].
  - intros tz c1 c2. unfold monthlyData. apply Permutation_map.
    eapply perm_trans; [apply sort_perm | apply Permutation_sym, sort_perm].
Qed.

(** The order of the rows of the monthly history does depend on the
    collation: under the reverse of the order of the code units the three
    months come the other way round. *)
Lemma monthlyHistory_depends_on_collation :
  map mh_month (monthlyHistory codeUnitCompare threeMonths)
  = ["2024-03"; "2024-02"; "2023-12"]
  /\ map mh_month
         (monthlyHistory (fun a b => - codeUnitCompare a b) threeMonths)
     = ["2023-12"; "2024-02"; "2024-03"].
Proof.
  split; vm_compute; reflexivity.
Qed.

(** C8 as the specification states it fails: the same transactions and
    budgets give another budget status once the clock has moved on to the
    next month. *)
Lemma budgetStatus_depends_on_clock :
  budgetStatus clockMarch scenarioB [("Groceries", 100)]
  <> budgetStatus clockApril scenarioB [("Groceries", 100)].
Proof.
  vm_compute. discriminate.
Qed.

(** ** The breakdown by category *)

Lemma grouped_rows (ts : list Transaction) (c : string) :
  let grouped := fold_left addToCategory ts [] in
  NoDup (JS.keys grouped)
  /\ (In c (JS.keys grouped) <-> exists t, In t ts /\ category t = c)
  /\ forall v, In (c, v) (JS.entries grouped) ->
               v == labelled c ts.
Proof.
  intros grouped.
  assert (NoDup (JS.keys grouped)) as Hnd
    by (apply addToCategory_fold_NoDup; constructor).
  split; [exact Hnd|]. split.
  - unfold grouped. rewrite addToCategory_fold_keys. cbn [JS.keys map In].
    tauto.
  - intros v Hv.
    apply (Permutation_in _ (entries_perm grouped)) in Hv.
    apply (In_get _ _ _ Hnd) in Hv.
    pose proof (addToCategory_fold_get c ts []) as H.
    fold grouped in H. rewrite Hv, orZero_Some in H.
    cbn [JS.get JS.orZero] in H. unfold labelled. lra.
Qed.

Lemma In_entries_keys {V} (o : JS.Map V) (k : string) :
  In k (JS.keys o) <-> exists v, In (k, v) (JS.entries o).
Proof.
  unfold JS.keys. rewrite in_map_iff. split.
  - intros [[k' v] [<- H]]. exists v.
    apply (Permutation_in _ (Permutation_sym (entries_perm o))). exact H.
  - intros [v H]. exists (k, v). split; [reflexivity|].
    apply (Permutation_in _ (entries_perm o)). exact H.
Qed.

Lemma grouped_row (ts : list Transaction) (t : Transaction) :
  In t ts ->
  exists v,
    In (category t, v) (JS.entries (fold_left addToCategory ts []))
    /\ v == labelled (category t) ts.
Proof.
  intros Ht. destruct (grouped_rows ts (category t)) as [_ [Hkeys Hval]].
  assert (In (category t) (JS.keys (fold_left addToCategory ts []))) as Hk
    by (apply Hkeys; now exists t).
  apply In_entries_keys in Hk. destruct Hk as [v Hv].
  exists v. split; [exact Hv | now apply Hval].
Qed.

Lemma expensesInScope_expense (transactions : list Transaction)
    (selectedMonth : string) (t : Transaction) :
  In t (expensesInScope transactions selectedMonth) ->
  In t (expenseTransactions transactions).
Proof.
  unfold expensesInScope, expenseTransactions, filteredTransactions.
  rewrite !filter_In. intros [H1 H2]. split; [|exact H2].
  destruct (String.eqb selectedMonth "all"); [exact H1|].
  now apply filter_In in H1.
Qed.

(** C9, as amended.  Whatever the label of an expense in scope, in the
    enumerations or not, as long as it is not a name inherited from
    [Object.prototype]: the breakdowns by category, that of the analytics
    and the chart of the app, have a row under that very label, and it
    carries the amounts of all the expenses in scope with that label; the
    rows of the analytics have distinct labels, each the label of an
    expense in scope.  No such label is rejected and none is merged into
    another row; only the fill colour of a label without a colour of its
    own falls back to the grey of [Category.OTHER]. *)
Theorem categoryData_keeps_labels (transactions : list Transaction)
    (selectedMonth : string) (t : Transaction) :
  In t (expensesInScope transactions selectedMonth) ->
  inheritedName (category t) = false ->
  (exists row,
      In row (categoryData transactions selectedMonth)
      /\ nv_name row = category t
      /\ nv_value row
         == labelled (category t) (expensesInScope transactions selectedMonth))
  /\ (exists row,
         In row (chartData transactions)
         /\ nv_name row = category t
         /\ nv_value row
            == labelled (category t) (expenseTransactions transactions))
  /\ NoDup (map nv_name (categoryData transactions selectedMonth))
  /\ (forall row, In row (categoryData transactions selectedMonth) ->
        exists t', In t' (expensesInScope transactions selectedMonth)
                   /\ nv_name row = category t')
  /\ (~ In (category t) (Category.values ++ IncomeCategory.values) ->
      cellFill (category t) = cellFill Category.OTHER).
Proof.
  intros Ht _. unfold categoryData.
  fold (expensesInScope transactions selectedMonth).
  pose proof (expensesInScope_expense _ _ _ Ht) as Ht'.
  set (ts := expensesInScope transactions selectedMonth) in *.
  destruct (grouped_rows ts (category t)) as [Hnd _].
  set (grouped := fold_left addToCategory ts []) in *.
  split; [|split; [|split; [|split]]].
  - destruct (grouped_row ts t Ht) as [v [Hv Hval]].
    exists (toNamedValue (category t, v)). split; [|split].
    + apply sort_In, in_map, Hv.
    + reflexivity.
    + exact Hval.
  - destruct (grouped_row _ t Ht') as [v [Hv Hval]].
    exists (toNamedValue (category t, v)). split; [|split].
    + unfold chartData. apply in_map, Hv.
    + reflexivity.
    + exact Hval.
  - eapply Permutation_NoDup.
    + apply Permutation_map, Permutation_sym, sort_perm.
    + rewrite map_map. cbn [toNamedValue nv_name].
      eapply Permutation_NoDup; [|exact Hnd].
      apply Permutation_map, Permutation_sym, entries_perm.
  - intros row Hrow. apply sort_In, in_map_iff in Hrow.
    destruct Hrow as [[c v] [<- Hcv]]. cbn [toNamedValue nv_name fst].
    destruct (grouped_rows ts c) as [_ [Hk _]]. fold grouped in Hk.
    assert (In c (JS.keys grouped)) as Hc
      by (apply In_entries_keys; now exists v).
    apply Hk in Hc. destruct Hc as [t' [Ht'' Hc]].
    exists t'. now split.
  - intros Hunknown. unfold cellFill.
    destruct (JS.get (category t) CATEGORY_COLORS) as [c|] eqn:E;
      [|reflexivity].
    exfalso. apply Hunknown. apply get_In in E.
    apply (in_map fst) in E. exact E.
Qed.

Lemma categoryData_keeps_labels_unknown :
  exists row,
    In row (categoryData unknownLabel "all")
    /\ nv_name row = "Crypto"
    /\ nv_value row == labelled "Crypto" (expensesInScope unknownLabel "all").
Proof.
  assert (In (mkTx expense 10 "Crypto" "2024-03-05" "" None)
             (expensesInScope unknownLabel "all")) as Hin
    by (left; reflexivity).
  destruct (categoryData_keeps_labels unknownLabel "all" _ Hin eq_refl)
    as [H _].
  exact H.
Defined.

(** C9 as the specification states it fails: the expense labelled
    "Crypto", a label of neither enumeration, has a row of its own under
    that label in both breakdowns, and the row of [Category.OTHER] holds
    none of it. *)
Lemma unknown_label_is_not_rerouted :
  ~ In "Crypto" (Category.values ++ IncomeCategory.values)
  /\ categoryData unknownLabel "all"
     = [{| nv_name := "Crypto"; nv_value := 10 |};
        {| nv_name := Category.OTHER; nv_value := 5 |}]
  /\ chartData unknownLabel
     = [{| nv_name := "Crypto"; nv_value := 10 |};
        {| nv_name := Category.OTHER; nv_value := 5 |}].
Proof.
  split.
  - intros H. repeat (destruct H as [H|H]; [discriminate H|]). exact H.
  - split; vm_compute; reflexivity.
Qed.

(** ** The price watch *)

Import PriceWatchModal.

Lemma addPrice_recorded (t : Transaction) (m : JS.Map (list PriceRecord))
    (i : ReceiptItem) (n : string) (h : PriceRecord) :
  recorded (addPrice t m i) n h
  <-> recorded m n h \/ (n = JS.trim (name i) /\ h = recordOf t i).
Proof.
  unfold recorded, addPrice.
  destruct (String.eqb (JS.trim (name i)) n) eqn:E.
  - apply String.eqb_eq in E. subst n.
    rewrite upsert_get_same. unfold entryOr, recordOf, JS.strOr. split.
    + intros [prices [[= <-] Hh]]. apply in_app_iff in Hh.
      destruct Hh as [Hh|[<-|[]]].
      * left. destruct (JS.get _ m) as [ps|]; [|destruct Hh].
        now exists ps.
      * right. now split.
    + intros [[prices [Hg Hh]]|[_ ->]]; eexists; (split; [reflexivity|]);
        apply in_app_iff.
      * left. now rewrite Hg.
      * right. now left.
  - apply String.eqb_neq in E.
    rewrite upsert_get_other by exact E. split.
    + intros H. now left.
    + intros [H|[-> _]]; [exact H | congruence].
Qed.

Lemma addPrice_fold_recorded (t : Transaction) (l : list ReceiptItem)
    (m : JS.Map (list PriceRecord)) (n : string) (h : PriceRecord) :
  recorded (fold_left (addPrice t) l m) n h
  <-> recorded m n h
      \/ exists i, In i l /\ n = JS.trim (name i) /\ h = recordOf t i.
Proof.
  revert m. induction l as [|i l IH]; intros m; cbn [fold_left].
  - split; [tauto|]. intros [H|[i [[] _]]]. exact H.
  - rewrite IH, addPrice_recorded. split.
    + intros [[H|H]|[j [Hj H]]].
      * now left.
      * right. exists i. split; [now left | exact H].
      * right. exists j. split; [now right | exact H].
    + intros [H|[j [[->|Hj] H]]].
      * left. now left.
      * left. now right.
      * right. exists j. now split.
Qed.

Lemma collect_recorded (m : JS.Map (list PriceRecord)) (t : Transaction)
    (n : string) (h : PriceRecord) :
  recorded (collect m t) n h
  <-> recorded m n h
      \/ exists i, In i (itemsOf t) /\ n = JS.trim (name i) /\ h = recordOf t i.
Proof.
  unfold collect. destruct (hasItems t) eqn:E.
  - apply addPrice_fold_recorded.
  - rewrite (hasItems_false t E). split; [tauto|].
    intros [H|[i [[] _]]]. exact H.
Qed.

Lemma collect_fold_recorded (ts : list Transaction)
    (m : JS.Map (list PriceRecord)) (n : string) (h : PriceRecord) :
  recorded (fold_left collect ts m) n h
  <-> recorded m n h
      \/ exists t i, In t ts /\ In i (itemsOf t)
                     /\ n = JS.trim (name i) /\ h = recordOf t i.
Proof.
  revert m. induction ts as [|t ts IH]; intros m; cbn [fold_left].
  - split; [tauto|]. intros [H|[t [i [[] _]]]]. exact H.
  - rewrite IH, collect_recorded. split.
    + intros [[H|[i H]]|[t' [i [Ht' H]]]].
      * now left.
      * right. exists t, i. split; [now left | exact H].
      * right. exists t', i. split; [now right | exact H].
    + intros [H|[t' [i [[->|Ht'] H]]]].
      * left. now left.
      * left. right. now exists i.
      * right. exists t', i. now split.
Qed.

Lemma collect_fold_NoDup (ts : list Transaction)
    (m : JS.Map (list PriceRecord)) :
  NoDup (JS.keys m) -> NoDup (JS.keys (fold_left collect ts m)).
Proof.
  revert m. induction ts as [|t ts IH]; intros m Hm; cbn [fold_left].
  - exact Hm.
  - apply IH. unfold collect. destruct (hasItems t); [|exact Hm].
    generalize (itemsOf t). intros l. revert m Hm.
    induction l as [|i l IHl]; intros m Hm; cbn [fold_left].
    + exact Hm.
    + apply IHl. unfold addPrice. now apply NoDup_keys_upsert.
Qed.

(** The row of a name and the prices kept under it. *)
Lemma statOf_In (e : string * list PriceRecord) (stat : ItemStat) :
  In stat (statOf e) ->
  is_name stat = fst e
  /\ history stat = JS.sort byDateDesc (snd e)
  /\ snd e <> [].
Proof.
  destruct e as [nm [|p0 rest]]; cbn [statOf].
  - intros [].
  - intros [<-|[]]. cbn [is_name history fst snd].
    repeat split. discriminate.
Qed.

Lemma statOf_nonempty (nm : string) (prices : list PriceRecord) :
  prices <> [] -> exists stat, statOf (nm, prices) = [stat].
Proof.
  destruct prices as [|p0 rest]; [congruence|].
  intros _. cbn [statOf]. eexists. reflexivity.
Qed.

(** C10.  Every price record shown by the price watch comes from an item
    of a transaction, under the trimmed name of the item, with the price of
    the item, the date of the transaction and, as its source, the note of
    the transaction, or "Unknown" when the note is the empty string; and
    every item of every transaction has its record. *)
Theorem itemStats_sources (transactions : list Transaction) :
  (forall stat h,
      In stat (itemStats transactions) -> In h (history stat) ->
      exists t i,
        In t transactions /\ In i (itemsOf t)
        /\ is_name stat = JS.trim (name i)
        /\ pr_price h = price i /\ pr_date h = date t
        /\ pr_store h = (if String.eqb (note t) "" then "Unknown" else note t))
  /\ (forall t i,
        In t transactions -> In i (itemsOf t) ->
        exists stat h,
          In stat (itemStats transactions) /\ In h (history stat)
          /\ is_name stat = JS.trim (name i)
          /\ pr_price h = price i /\ pr_date h = date t
          /\ pr_store h
             = (if String.eqb (note t) "" then "Unknown" else note t)).
Proof.
  unfold itemStats.
  set (statsMap := fold_left collect transactions []).
  assert (NoDup (JS.keys statsMap)) as Hnd
    by (apply collect_fold_NoDup; constructor).
  assert (forall n h, recorded statsMap n h <->
            exists t i, In t transactions /\ In i (itemsOf t)
                        /\ n = JS.trim (name i) /\ h = recordOf t i) as Hrec.
  { intros n h. unfold statsMap. rewrite collect_fold_recorded.
    split; [|tauto]. intros [[prices [H _]]|H]; [discriminate H | exact H]. }
  split.
  - intros stat h Hstat Hh.
    apply sort_In, in_flat_map in Hstat. destruct Hstat as [[nm prices] [He Hs]].
    destruct (statOf_In _ _ Hs) as [Hname [Hhist _]].
    cbn [fst snd] in Hname, Hhist.
    rewrite Hhist in Hh. apply sort_In in Hh.
    assert (recorded statsMap nm h) as Hr.
    { exists prices. split; [now apply In_get | exact Hh]. }
    apply Hrec in Hr. destruct Hr as [t [i [Ht [Hi [Hn ->]]]]].
    exists t, i. rewrite Hname. now repeat split.
  - intros t i Ht Hi.
    assert (recorded statsMap (JS.trim (name i)) (recordOf t i)) as Hr
      by (apply Hrec; now exists t, i).
    destruct Hr as [prices [Hg Hh]].
    assert (prices <> []) as Hne by (intros ->; destruct Hh).
    destruct (statOf_nonempty (JS.trim (name i)) prices Hne) as [stat Hs].
    assert (In stat (statOf (JS.trim (name i), prices))) as Hin
      by (rewrite Hs; now left).
    destruct (statOf_In _ _ Hin) as [Hname [Hhist _]].
    cbn [fst snd] in Hname, Hhist.
    exists stat, (recordOf t i). split; [|split; [|now repeat split]].
    + apply sort_In, in_flat_map. eexists. split; [apply get_In, Hg | exact Hin].
    + rewrite Hhist. now apply sort_In.
Qed.

(** The receipt without a note: its only record has the source
    "Unknown". *)
Lemma itemStats_sources_noNote :
  exists stat h,
    In stat (itemStats noNote) /\ In h (history stat)
    /\ is_name stat = "Milk" /\ pr_price h = 4 /\ pr_date h = "2024-01-01"
    /\ pr_store h = "Unknown".
Proof.
  destruct (itemStats_sources noNote) as [_ H].
  apply (H (mkTx expense 4 "Groceries" "2024-01-01" "" (Some [mkItem "Milk" 4]))
           (mkItem "Milk" 4)).
  - left. reflexivity.
  - left. reflexivity.
Defined.

Lemma minOf_In (x : Q) (l : list Q) : In (minOf x l) (x :: l).
Proof.
  unfold minOf. revert x. induction l as [|y l IH]; intros x; cbn [fold_left].
  - now left.
  - destruct (IH (Qmin x y)) as [H|H].
    + rewrite <- H. unfold Qmin, GenericMinMax.gmin.
      destruct (x ?= y); [left | left | right; left]; reflexivity.
    + right. now right.
Qed.

(** The best store is the store of the first record, in the order of the
    transactions, whose price is the lowest one. *)
Lemma bestStore_first_at_minimum (nm : string) (prices : list PriceRecord)
    (stat : ItemStat) :
  In stat (statOf (nm, prices)) ->
  exists p before after,
    prices = (before ++ p :: after)%list
    /\ pr_price p == minPrice stat
    /\ (forall q, In q before -> ~ pr_price q == minPrice stat)
    /\ bestStore stat = JS.strOr (pr_store p) "Unknown".
Proof.
  destruct prices as [|p0 rest]; cbn [statOf]; [intros []|].
  intros [<-|[]]. cbn [minPrice bestStore].
  pose proof (minOf_In (pr_price p0) (map pr_price rest)) as Hmin.
  set (mn := minOf (pr_price p0) (map pr_price rest)) in *.
  change (pr_price p0 :: map pr_price rest)
    with (map pr_price (p0 :: rest)) in Hmin.
  revert Hmin. generalize (p0 :: rest). intros l Hmin.
  induction l as [|q l IH]; cbn [find]; [destruct Hmin|].
  destruct (JS.eqb (pr_price q) mn) eqn:Eq.
  - exists q, [], l. repeat split.
    + now apply Qeq_bool_iff.
    + intros q' [].
  - destruct Hmin as [Hq|Hmin].
    + unfold JS.eqb in Eq. rewrite Hq in Eq.
      assert (Qeq_bool mn mn = true) by (apply Qeq_bool_iff; reflexivity).
      congruence.
    + destruct (IH Hmin) as [p' [before [after [-> [Hp [Hb Hs]]]]]].
      exists p', (q :: before), after. repeat split; try assumption.
      intros q' [<-|Hq'].
      * intros Hq. apply Qeq_bool_iff in Hq. unfold JS.eqb in Eq. congruence.
      * now apply Hb.
Qed.

(** C4 at the failing input: milk at 3 in both shops, the purchase at
    Coles being the later one by its date.  The best store is Woolworths,
    the store of the record that stands first in the array, although the
    history, sorted by date, begins with Coles. *)
Lemma bestStore_tie_takes_first_in_array :
  exists stat older,
    itemStats tiedMilk = [stat]
    /\ minPrice stat == 3
    /\ history stat = [recordOf (mkTx expense 3 "Groceries" "2024-02-01" "Coles"
                                      (Some [mkItem "Milk" 3]))
                                (mkItem "Milk" 3);
                       older]
    /\ pr_price older == minPrice stat
    /\ pr_store older = "Woolworths"
    /\ bestStore stat = "Woolworths".
Proof.
  do 2 eexists. split; [vm_compute; reflexivity|].
  repeat split.
Qed.

(** ** Dates *)

Ltac euclid := Z.to_euclidean_division_equations; lia.

Lemma yearOfEra_yearStart (yoe doy : Z) :
  (0 <= yoe < 400)%Z ->
  (0 <= doy <= 364
   \/ (doy = 365 /\ (yoe + 1) mod 4 = 0
       /\ ((yoe + 1) mod 100 <> 0 \/ yoe = 399)))%Z ->
  (0 <= JS.yearStart yoe + doy < 146097)%Z
  /\ JS.yearOfEra (JS.yearStart yoe + doy) = yoe.
Proof.
  unfold JS.yearOfEra, JS.yearStart. intros H1 H2. euclid.
Qed.

Lemma monthOfDay_monthStart (mp d : Z) :
  (0 <= mp <= 11)%Z ->
  (1 <= d <= JS.monthStart (mp + 1) - JS.monthStart mp)%Z ->
  JS.monthOfDay (JS.monthStart mp + d - 1) = mp.
Proof.
  unfold JS.monthOfDay, JS.monthStart. intros H1 H2. euclid.
Qed.

(** The day of the year of a date of the calendar: at most the 365th, and
    the 366th only on the 29th of February of a leap year. *)
Lemma doy_bound (y m d : Z) :
  (1 <= m <= 12)%Z -> (1 <= d <= JS.daysInMonth y m)%Z ->
  let yoe := ((if m <=? 2 then y - 1 else y) mod 400)%Z in
  let mp := JS.monthFromMarch m in
  let doy := (JS.monthStart mp + d - 1)%Z in
  (0 <= mp <= 11)%Z
  /\ (d <= JS.monthStart (mp + 1) - JS.monthStart mp)%Z
  /\ (0 <= doy <= 364
      \/ (doy = 365 /\ (yoe + 1) mod 4 = 0
          /\ ((yoe + 1) mod 100 <> 0 \/ yoe = 399)))%Z.
Proof.
  intros Hm Hd. cbv zeta.
  unfold JS.daysInMonth, JS.isLeapYear in Hd.
  unfold JS.monthFromMarch, JS.monthStart.
  destruct (m <=? 2)%Z eqn:E1; destruct (2 <? m)%Z eqn:E2;
    rewrite ?Z.leb_le, ?Z.leb_gt, ?Z.ltb_lt, ?Z.ltb_ge in *; try lia.
  - (* January and February *)
    destruct (m =? 2)%Z eqn:Em; rewrite ?Z.eqb_eq, ?Z.eqb_neq in *.
    + subst m.
      destruct (y mod 4 =? 0)%Z eqn:E4; destruct (y mod 100 =? 0)%Z eqn:E100;
        destruct (y mod 400 =? 0)%Z eqn:E400; cbn [andb orb negb] in Hd;
        rewrite ?Z.eqb_eq, ?Z.eqb_neq in *;
        (split; [lia|split; [euclid|]]);
        try (left; euclid);
        (destruct (Z.eq_dec d 29) as [->|]; [right|left; euclid]);
        euclid.
    + assert (m = 1)%Z as -> by lia.
      assert (d <= 31)%Z by
        (revert Hd; repeat (destruct (_ =? _)%Z); cbn [orb]; lia).
      split; [lia|split; [euclid|left; euclid]].
  - (* March to December *)
    destruct (m =? 2)%Z eqn:Em; rewrite ?Z.eqb_eq, ?Z.eqb_neq in *; [lia|].
    destruct (m =? 4)%Z eqn:E4; destruct (m =? 6)%Z eqn:E6;
      destruct (m =? 9)%Z eqn:E9; destruct (m =? 11)%Z eqn:E11;
      cbn [orb] in Hd; rewrite ?Z.eqb_eq, ?Z.eqb_neq in *;
      (split; [lia|split; [euclid|left; euclid]]).
Qed.

(** The day number of a date of the calendar is the day number of that
    date only. *)
Lemma civil_roundtrip (y m d : Z) :
  (1 <= m <= 12)%Z -> (1 <= d <= JS.daysInMonth y m)%Z ->
  JS.civilFromDays (JS.daysFromCivil y m d) = (y, m, d).
Proof.
  intros Hm Hd.
  destruct (doy_bound y m d Hm Hd) as [Hmp [Hlen Hdoy]].
  unfold JS.daysFromCivil. cbv zeta.
  set (y' := (if m <=? 2 then y - 1 else y)%Z) in *.
  set (mp := JS.monthFromMarch m) in *.
  set (doy := (JS.monthStart mp + d - 1)%Z) in *.
  assert (0 <= y' mod 400 < 400)%Z as Hyoe by (apply Z.mod_pos_bound; lia).
  destruct (yearOfEra_yearStart (y' mod 400) doy Hyoe Hdoy) as [Hdoe HF].
  set (doe := (JS.yearStart (y' mod 400) + doy)%Z) in *.
  unfold JS.civilFromDays. cbv zeta.
  replace (y' / 400 * 146097 + doe - 719468 + 719468)%Z
    with (doe + y' / 400 * 146097)%Z by ring.
  rewrite Z.div_add, Z_mod_plus_full by lia.
  rewrite (Z.div_small doe 146097), (Z.mod_small doe 146097) by lia.
  rewrite HF.
  replace (doe - JS.yearStart (y' mod 400))%Z with doy by (unfold doe; ring).
  unfold doy. rewrite (monthOfDay_monthStart mp d Hmp ltac:(lia)).
  replace (JS.monthStart mp + d - 1 - JS.monthStart mp + 1)%Z with d by ring.
  pose proof (Z.div_mod y' 400 ltac:(lia)) as Hy'.
  unfold mp, JS.monthFromMarch, y' in *.
  destruct (m <=? 2)%Z eqn:E1; destruct (2 <? m)%Z eqn:E2;
    rewrite ?Z.leb_le, ?Z.leb_gt, ?Z.ltb_lt, ?Z.ltb_ge in *; try lia.
  - destruct (m + 9 <? 10)%Z eqn:E3;
      rewrite ?Z.ltb_lt, ?Z.ltb_ge in *; try lia.
    destruct (m + 9 - 9 <=? 2)%Z eqn:E4;
      rewrite ?Z.leb_le, ?Z.leb_gt in *; try lia.
    repeat f_equal; lia.
  - destruct (m - 3 <? 10)%Z eqn:E3;
      rewrite ?Z.ltb_lt, ?Z.ltb_ge in *; try lia.
    destruct (m - 3 + 3 <=? 2)%Z eqn:E4;
      rewrite ?Z.leb_le, ?Z.leb_gt in *; try lia.
    repeat f_equal; lia.
Qed.

(** Midnight in UTC and the local time of a host that is ahead of UTC by
    less than a day fall on the same day. *)
Lemma local_day (D tz : Z) :
  (0 <= tz < JS.msPerDay)%Z -> ((D * JS.msPerDay + tz) / JS.msPerDay = D)%Z.
Proof.
  unfold JS.msPerDay. intros H.
  rewrite Z.add_comm, Z.div_add by lia.
  rewrite Z.div_small by lia. reflexivity.
Qed.

Lemma digit_In (c : ascii) : JS.digit c <> None -> In c digitChars.
Proof.
  destruct c as [[] [] [] [] [] [] [] []]; vm_compute; intros H;
    try (exfalso; apply H; reflexivity);
    repeat (try (left; reflexivity); right).
Qed.

Lemma year_text_checked :
  forallb (fun a => forallb (fun b => forallb (fun c =>
    forallb (fun d => checkYearText a b c d) digitChars)
    digitChars) digitChars) digitChars = true.
Proof. vm_compute. reflexivity. Qed.

Lemma month_text_checked :
  forallb (fun a => forallb (fun b => checkMonthText a b) digitChars)
          digitChars = true.
Proof. vm_compute. reflexivity. Qed.

Lemma digitsValue_text4 (a b c d : ascii) (y : Z) :
  JS.digitsValue 0 (text4 a b c d) = Some y ->
  In a digitChars /\ In b digitChars /\ In c digitChars /\ In d digitChars.
Proof.
  unfold text4. cbn [JS.digitsValue]. intros H.
  destruct (JS.digit a) eqn:Ea; [|discriminate].
  destruct (JS.digit b) eqn:Eb; [|discriminate].
  destruct (JS.digit c) eqn:Ec; [|discriminate].
  destruct (JS.digit d) eqn:Ed; [|discriminate].
  repeat split; apply digit_In; congruence.
Qed.

Lemma digitsValue_text2 (a b : ascii) (m : Z) :
  JS.digitsValue 0 (text2 a b) = Some m ->
  In a digitChars /\ In b digitChars.
Proof.
  unfold text2. cbn [JS.digitsValue]. intros H.
  destruct (JS.digit a) eqn:Ea; [|discriminate].
  destruct (JS.digit b) eqn:Eb; [|discriminate].
  split; apply digit_In; congruence.
Qed.

Lemma year_text (a b c d : ascii) (y : Z) :
  JS.digitsValue 0 (text4 a b c d) = Some y -> (1000 <= y)%Z ->
  JS.intToString y = text4 a b c d.
Proof.
  intros H Hy.
  destruct (digitsValue_text4 a b c d y H) as [Ha [Hb [Hc Hd]]].
  pose proof year_text_checked as K.
  rewrite forallb_forall in K. specialize (K a Ha).
  rewrite forallb_forall in K. specialize (K b Hb).
  rewrite forallb_forall in K. specialize (K c Hc).
  rewrite forallb_forall in K. specialize (K d Hd).
  unfold checkYearText in K. rewrite H in K.
  apply Z.leb_le in Hy. rewrite Hy in K.
  now apply String.eqb_eq.
Qed.

Lemma month_text (a b : ascii) (m : Z) :
  JS.digitsValue 0 (text2 a b) = Some m -> (1 <= m <= 12)%Z ->
  JS.padStart2 (JS.intToString m) = text2 a b.
Proof.
  intros H [H1 H2].
  destruct (digitsValue_text2 a b m H) as [Ha Hb].
  pose proof month_text_checked as K.
  rewrite forallb_forall in K. specialize (K a Ha).
  rewrite forallb_forall in K. specialize (K b Hb).
  unfold checkMonthText in K. rewrite H in K.
  apply Z.leb_le in H1, H2. rewrite H1, H2 in K.
  now apply String.eqb_eq.
Qed.

(** The shape of a date that [parseDateOnly] reads. *)
Lemma parseDateOnly_shape (s : string) (y m d : Z) :
  JS.parseDateOnly s = Some (y, m, d) ->
  exists y1 y2 y3 y4 m1 m2 rest,
    s = (text4 y1 y2 y3 y4 ++ "-" ++ text2 m1 m2 ++ rest)%string
    /\ JS.digitsValue 0 (text4 y1 y2 y3 y4) = Some y
    /\ JS.digitsValue 0 (text2 m1 m2) = Some m
    /\ (1 <= m <= 12)%Z /\ (1 <= d <= JS.daysInMonth y m)%Z.
Proof.
  unfold JS.parseDateOnly.
  destruct s as [|y1 s]; [discriminate|]. destruct s as [|y2 s]; [discriminate|].
  destruct s as [|y3 s]; [discriminate|]. destruct s as [|y4 s]; [discriminate|].
  destruct s as [|h1 s]; [discriminate|]. destruct s as [|m1 s]; [discriminate|].
  destruct s as [|m2 s]; [discriminate|]. destruct s as [|h2 s]; [discriminate|].
  destruct s as [|d1 s]; [discriminate|]. destruct s as [|d2 s]; [discriminate|].
  destruct s; [|discriminate].
  cbn [list_ascii_of_string string_of_list_ascii].
  destruct (Ascii.eqb h1 "-") eqn:E1; [|discriminate].
  destruct (Ascii.eqb h2 "-") eqn:E2; [|discriminate].
  cbn [andb]. apply Ascii.eqb_eq in E1, E2. subst.
  destruct (JS.digitsValue 0 (String y1 _)) as [y'|] eqn:Ey; [|discriminate].
  destruct (JS.digitsValue 0 (String m1 _)) as [m'|] eqn:Em; [|discriminate].
  destruct (JS.digitsValue 0 (String d1 _)) as [d'|] eqn:Ed; [|discriminate].
  destruct (_ && _)%bool eqn:Hr; [|discriminate].
  intros [= -> -> ->].
  rewrite !andb_true_iff, !Z.leb_le in Hr.
  exists y1, y2, y3, y4, m1, m2, (String "-" (String d1 (String d2 ""))).
  repeat split; try assumption; lia.
Qed.

(** For a host ahead of UTC by less than a day, the key of the monthly
    trend is the first seven characters of a date with a year from 1000
    on. *)
Lemma trendKey_prefix (localTZA : Z -> Z) (s : string) (y m d : Z) :
  JS.parseDateOnly s = Some (y, m, d) -> (1000 <= y)%Z ->
  (forall t, 0 <= localTZA t < JS.msPerDay)%Z ->
  trendKey localTZA s = JS.substring 0 7 s.
Proof.
  intros H Hy Htz.
  destruct (parseDateOnly_shape s y m d H)
    as [y1 [y2 [y3 [y4 [m1 [m2 [rest [Hs [Hyv [Hmv [Hm Hd]]]]]]]]]]].
  unfold trendKey, JS.getTime. rewrite H.
  unfold JS.getFullYear, JS.getMonth.
  rewrite local_day by apply Htz.
  rewrite civil_roundtrip by assumption. cbn [fst snd].
  replace (m - 1 + 1)%Z with m by ring.
  rewrite (year_text _ _ _ _ _ Hyv Hy), (month_text _ _ _ Hmv Hm), Hs.
  destruct rest; reflexivity.
Qed.

(** ** The keys of the monthly groupings *)

Section GROUP_BY_MONTH.
(** A loop body that files each transaction under [keyOf t] with
    [JS.upsert]. *)
Context {V : Type}.
Variable keyOf : Transaction -> string.
Variable init : Transaction -> V.
Variable update : Transaction -> V -> V.

Let step (m : JS.Map V) (t : Transaction) : JS.Map V :=
  JS.upsert (keyOf t) (init t) (update t) m.

Lemma group_keys (ts : list Transaction) (m : JS.Map V) (k : string) :
  In k (JS.keys (fold_left step ts m))
  <-> In k (JS.keys m) \/ exists t, In t ts /\ keyOf t = k.
Proof.
  revert m. induction ts as [|t ts IH]; intros m; cbn [fold_left].
  - split; [tauto|]. intros [H|[t [[] _]]]. exact H.
  - rewrite IH. unfold step. rewrite In_keys_upsert. split.
    + intros [[->|H]|[t' [Ht' Hk]]].
      * right. exists t. split; [now left | reflexivity].
      * now left.
      * right. exists t'. split; [now right | exact Hk].
    + intros [H|[t' [[->|Ht'] Hk]]].
      * left. now right.
      * left. left. now symmetry.
      * right. exists t'. now split.
Qed.

Lemma group_NoDup (ts : list Transaction) (m : JS.Map V) :
  NoDup (JS.keys m) -> NoDup (JS.keys (fold_left step ts m)).
Proof.
  revert m. induction ts as [|t ts IH]; intros m Hm; cbn [fold_left].
  - exact Hm.
  - apply IH. unfold step. now apply NoDup_keys_upsert.
Qed.

(** A quantity [h] of the entries that each transaction raises by
    [g t]. *)
Variables (h : V -> Q) (g : Transaction -> Q).
Hypothesis h_init : forall t, h (init t) == 0.
Hypothesis h_update : forall t e, h (update t e) == h e + g t.

Lemma group_at (ts : list Transaction) (m : JS.Map V) (k : string) :
  at_ h k (fold_left step ts m)
  == at_ h k m
     + JS.sumBy (fun t => if String.eqb (keyOf t) k then g t else 0) ts.
Proof.
  revert m. induction ts as [|t ts IH]; intros m; cbn [fold_left].
  - sum_nil. lra.
  - rewrite IH, sumBy_cons. unfold step.
    rewrite at_upsert by apply h_init.
    destruct (String.eqb (keyOf t) k); [rewrite h_update|]; lra.
Qed.
End GROUP_BY_MONTH.

Lemma In_set {V} (k k' : string) (v v' : V) (m : JS.Map V) :
  In (k', v') (JS.set k v m) -> (k' = k /\ v' = v) \/ In (k', v') m.
Proof.
  induction m as [|[k0 v0] m IH]; cbn [JS.set].
  - intros [[= -> ->]|[]]. now left.
  - destruct (String.eqb k k0).
    + intros [[= -> ->]|H]; [now left | right; now right].
    + intros [H|H]; [right; now left|].
      destruct (IH H) as [H'|H']; [now left | right; now right].
Qed.

(** *** The monthly history of the app *)

Lemma monthlyStep_upsert :
  monthlyStep
  = fun m t => JS.upsert (monthKeyOf t) (monthZero t) (monthUpdate t) m.
Proof. reflexivity. Qed.

Lemma monthly_rows (ts : list Transaction) (k : string) :
  let m := fold_left monthlyStep ts [] in
  NoDup (JS.keys m)
  /\ (In k (JS.keys m) <-> exists t, In t ts /\ monthKeyOf t = k)
  /\ forall e, In (k, e) m ->
       acc_income e == incomeUnder monthKeyOf k ts
       /\ acc_expense e == expenseUnder monthKeyOf k ts.
Proof.
  rewrite monthlyStep_upsert. intros m.
  assert (NoDup (JS.keys m)) as Hnd by (apply group_NoDup; constructor).
  split; [exact Hnd|]. split.
  - unfold m. rewrite group_keys. cbn [JS.keys map In]. tauto.
  - intros e He. apply (In_get _ _ _ Hnd) in He.
    pose proof (group_at monthKeyOf monthZero monthUpdate acc_income incomeOf
                  (fun _ => Qeq_refl 0)) as Hi.
    pose proof (group_at monthKeyOf monthZero monthUpdate acc_expense expenseOf
                  (fun _ => Qeq_refl 0)) as Hx.
    cbv zeta in Hi, Hx.
    assert (forall t e0, acc_income (monthUpdate t e0) == acc_income e0 + incomeOf t)
      as Hui.
    { intros t e0. unfold monthUpdate, incomeOf.
      destruct (isIncome t); cbn [acc_income]; lra. }
    assert (forall t e0, acc_expense (monthUpdate t e0) == acc_expense e0 + expenseOf t)
      as Hux.
    { intros t e0. unfold monthUpdate, expenseOf.
      destruct (isIncome t); cbn [acc_expense]; lra. }
    specialize (Hi Hui ts [] k). specialize (Hx Hux ts [] k).
    fold m in Hi, Hx. unfold at_ in Hi, Hx. rewrite He in Hi, Hx.
    cbn [JS.get] in Hi, Hx. unfold incomeUnder, expenseUnder. split; lra.
Qed.

(** *** The monthly trend of the analytics *)

Section TREND.
Variable localTZA : Z -> Z.

Lemma trendStep_upsert :
  trendStep localTZA
  = fun m t => JS.upsert (trendKeyOf localTZA t) (trendZero localTZA t) (trendUpdate t) m.
Proof. reflexivity. Qed.

(** Every entry carries its key as its name. *)
Lemma trend_names (ts : list Transaction) (m : JS.Map TrendAcc) :
  (forall k e, In (k, e) m -> t_name e = k) ->
  forall k e, In (k, e) (fold_left (trendStep localTZA) ts m) -> t_name e = k.
Proof.
  revert m. induction ts as [|t ts IH]; intros m Hm; cbn [fold_left].
  - exact Hm.
  - apply IH. intros k e. rewrite trendStep_upsert, upsert_eq.
    intros H. apply In_set in H. destruct H as [[-> ->]|H].
    + unfold trendUpdate, entryOr. cbn [t_name].
      destruct (JS.get (trendKeyOf localTZA t) m) as [e0|] eqn:E.
      * apply get_In in E. now apply Hm.
      * reflexivity.
    + destruct (JS.has (trendKeyOf localTZA t) m); [now apply Hm|].
      apply In_set in H. destruct H as [[-> ->]|H]; [reflexivity|].
      now apply Hm.
Qed.

Lemma trend_rows (ts : list Transaction) (k : string) :
  let m := fold_left (trendStep localTZA) ts [] in
  NoDup (JS.keys m)
  /\ (In k (JS.keys m) <-> exists t, In t ts /\ trendKeyOf localTZA t = k)
  /\ forall e, In (k, e) m ->
       t_name e = k
       /\ t_Income e == incomeUnder (trendKeyOf localTZA) k ts
       /\ t_Expense e == expenseUnder (trendKeyOf localTZA) k ts.
Proof.
  intros m.
  assert (forall e, In (k, e) m -> t_name e = k) as Hname.
  { intros e. apply (trend_names ts []). intros ? ? []. }
  revert Hname. unfold m. rewrite trendStep_upsert. fold m. intros Hname.
  assert (NoDup (JS.keys (fold_left
            (fun m t => JS.upsert (trendKeyOf localTZA t) (trendZero localTZA t) (trendUpdate t) m)
            ts []))) as Hnd by (apply group_NoDup; constructor).
  split; [exact Hnd|]. split.
  - rewrite group_keys. cbn [JS.keys map In]. tauto.
  - intros e He. split; [now apply Hname|].
    apply (In_get _ _ _ Hnd) in He.
    pose proof (group_at (trendKeyOf localTZA) (trendZero localTZA) trendUpdate t_Income incomeOf
                  (fun _ => Qeq_refl 0)) as Hi.
    pose proof (group_at (trendKeyOf localTZA) (trendZero localTZA) trendUpdate t_Expense expenseOf
                  (fun _ => Qeq_refl 0)) as Hx.
    cbv zeta in Hi, Hx.
    assert (forall t e0, t_Income (trendUpdate t e0) == t_Income e0 + incomeOf t)
      as Hui.
    { intros t e0. unfold trendUpdate, incomeOf.
      destruct (isIncome t); cbn [t_Income]; lra. }
    assert (forall t e0, t_Expense (trendUpdate t e0) == t_Expense e0 + expenseOf t)
      as Hux.
    { intros t e0. unfold trendUpdate, expenseOf.
      destruct (isIncome t); cbn [t_Expense]; lra. }
    specialize (Hi Hui ts [] k). specialize (Hx Hux ts [] k).
    unfold at_ in Hi, Hx. rewrite He in Hi, Hx.
    cbn [JS.get] in Hi, Hx. unfold incomeUnder, expenseUnder. split; lra.
Qed.
End TREND.

(** C3 at the failing input: on a host five hours behind UTC the monthly
    trend files the first of March 2024 under February, while the first
    seven characters of the date say March; the monthly history of the
    app files it under March, March is the one month of the dropdown of
    the analytics, and selecting February there selects nothing. *)
Lemma trend_key_behind_utc :
  trendKey utcMinus5 "2024-03-01" = "2024-02"
  /\ JS.substring 0 7 "2024-03-01" = "2024-03"
  /\ map tr_name (monthlyData utcMinus5 codeUnitCompare firstOfMarch)
     = ["2024-02"]
  /\ map mh_month (monthlyHistory codeUnitCompare firstOfMarch)
     = ["2024-03"]
  /\ availableMonths firstOfMarch = ["2024-03"]
  /\ filteredTransactions firstOfMarch "2024-02" = [].
Proof.
  repeat split; vm_compute; reflexivity.
Qed.

(** * Further properties of the code *)

(** ** More on the sort *)

(** The sort looks at the comparison function only through the sign of
    its results on the elements of the list. *)
Lemma sort_ext {A} (cmp1 cmp2 : A -> A -> Q) (l : list A) :
  (forall x y, In x l -> In y l ->
               JS.gtb (cmp1 x y) 0 = JS.gtb (cmp2 x y) 0) ->
  JS.sort cmp1 l = JS.sort cmp2 l.
Proof.
  induction l as [|x l IH]; intros H; cbn [JS.sort fold_right]; [reflexivity|].
  fold (JS.sort cmp1 l). fold (JS.sort cmp2 l).
  rewrite IH by (intros; apply H; now right).
  assert (forall y, In y (JS.sort cmp2 l) -> In y l) as Hin
    by (intros y; apply sort_In).
  revert Hin. generalize (JS.sort cmp2 l). intros s Hin.
  induction s as [|y s IHs]; cbn [JS.insert]; [reflexivity|].
  rewrite (H x y) by (first [now left | right; apply Hin; now left]).
  rewrite IHs by (intros; apply Hin; now right). reflexivity.
Qed.

(** Sorting with a comparison function that is consistent: what it puts
    after is not before, and not being after is transitive. *)
Section SORT_CONSISTENT.
Context {A : Type}.
Variable cmp : A -> A -> Q.
Hypothesis cmp_antisym : forall x y, 0 < cmp x y -> cmp y x <= 0.
Hypothesis cmp_trans : forall x y z, cmp x y <= 0 -> cmp y z <= 0 -> cmp x z <= 0.

Lemma insert_consistent_sorted (x : A) (l : list A) :
  StronglySorted (fun a b => cmp a b <= 0) l ->
  StronglySorted (fun a b => cmp a b <= 0) (JS.insert cmp x l).
Proof.
  induction 1 as [|y l Hs IH Hall]; cbn [JS.insert].
  - repeat constructor.
  - destruct (JS.gtb (cmp x y) 0) eqn:E.
    + apply gtb_true in E. constructor; [exact IH|].
      eapply Permutation_Forall;
        [apply Permutation_sym, (insert_perm cmp)|].
      constructor; [now apply cmp_antisym | exact Hall].
    + apply gtb_false in E.
      constructor; [now constructor|].
      constructor; [exact E|].
      eapply Forall_impl; [|exact Hall].
      intros z Hz. now apply (cmp_trans x y z).
Qed.

Lemma sort_consistent_sorted (l : list A) :
  StronglySorted (fun a b => cmp a b <= 0) (JS.sort cmp l).
Proof.
  induction l as [|x l IH]; cbn [JS.sort fold_right].
  - constructor.
  - apply insert_consistent_sorted, IH.
Qed.
End SORT_CONSISTENT.

(** Sorting by a key in descending order keeps the order of the elements
    of any class that has one key only. *)
Lemma sort_desc_stable_class {A} (key : A -> Q) (q : A -> bool) (l : list A) :
  (forall x y, In x l -> In y l -> q x = true -> q y = true -> key x == key y) ->
  filter q (JS.sort (fun a b => key b - key a) l) = filter q l.
Proof.
  intros Hq.
  destruct (filter q l) as [|x0 rest] eqn:E.
  - (* no element of the class *)
    assert (forall x, In x l -> q x = false) as Hno.
    { intros x Hx. destruct (q x) eqn:Eq; [|reflexivity].
      assert (In x (filter q l)) as H by (apply filter_In; now split).
      rewrite E in H. destruct H. }
    assert (forall s : list A, (forall x, In x s -> In x l) -> filter q s = [])
      as Hs.
    { induction s as [|y s IHs]; intros Hin; cbn [filter]; [reflexivity|].
      rewrite (Hno y) by (apply Hin; now left).
      apply IHs. intros; apply Hin; now right. }
    apply Hs. intros x. apply sort_In.
  - rewrite <- E.
    assert (In x0 l /\ q x0 = true) as [Hx0 Hqx0].
    { apply filter_In. rewrite E. now left. }
    assert (forall s : list A, (forall x, In x s -> In x l) ->
              filter q s
              = filter q (filter (fun a => Qeq_bool (key a) (key x0)) s)) as Hs.
    { induction s as [|y s IHs]; intros Hin; cbn [filter]; [reflexivity|].
      rewrite IHs by (intros; apply Hin; now right).
      destruct (q y) eqn:Eq.
      - assert (Qeq_bool (key y) (key x0) = true) as ->.
        { apply Qeq_bool_iff, Hq; auto. apply Hin. now left. }
        cbn [filter]. now rewrite Eq.
      - destruct (Qeq_bool (key y) (key x0)); [|reflexivity].
        cbn [filter]. now rewrite Eq. }
    rewrite (Hs (JS.sort _ l)) by (intros x; apply sort_In).
    rewrite (Hs l) by auto.
    now rewrite (sort_desc_stable key).
Qed.

Lemma StronglySorted_rev {A} (R : A -> A -> Prop) (l : list A) :
  StronglySorted R l -> StronglySorted (fun a b => R b a) (rev l).
Proof.
  induction 1 as [|x l Hs IH Hall]; cbn [rev]; [constructor|].
  revert IH. generalize (rev_involutive l). generalize (rev l).
  intros r Hr IH.
  assert (Forall (R x) (rev r)) as Hall' by now rewrite Hr.
  apply Forall_rev in Hall'. rewrite rev_involutive in Hall'.
  clear Hr Hall Hs. induction IH as [|y r Hsr IHr Hy]; cbn [app].
  - repeat constructor.
  - inversion Hall' as [|? ? Hxy Hrest]; subst.
    constructor; [now apply IHr|].
    apply Forall_app. split; [exact Hy | now repeat constructor].
Qed.

(** ** The figures of the price watch *)

Lemma minOf_le (x : Q) (l : list Q) (y : Q) :
  In y (x :: l) -> minOf x l <= y.
Proof.
  unfold minOf. revert x.
  assert (forall l x, fold_left Qmin l x <= x) as Hx.
  { induction l0 as [|z l0 IH]; intros x; cbn [fold_left]; [lra|].
    eapply Qle_trans; [apply IH | apply Q.le_min_l]. }
  induction l as [|z l IH]; intros x; cbn [fold_left].
  - intros [<-|[]]. lra.
  - intros [<-|[<-|H]].
    + eapply Qle_trans; [apply Hx | apply Q.le_min_l].
    + eapply Qle_trans; [apply Hx | apply Q.le_min_r].
    + apply IH. now right.
Qed.

Lemma maxOf_In (x : Q) (l : list Q) : In (maxOf x l) (x :: l).
Proof.
  unfold maxOf. revert x. induction l as [|y l IH]; intros x; cbn [fold_left].
  - now left.
  - destruct (IH (Qmax x y)) as [H|H].
    + rewrite <- H. unfold Qmax, GenericMinMax.gmax.
      destruct (x ?= y); [left | right; left | left]; reflexivity.
    + right. now right.
Qed.

Lemma maxOf_ge (x : Q) (l : list Q) (y : Q) :
  In y (x :: l) -> y <= maxOf x l.
Proof.
  unfold maxOf. revert x.
  assert (forall l x, x <= fold_left Qmax l x) as Hx.
  { induction l0 as [|z l0 IH]; intros x; cbn [fold_left]; [lra|].
    eapply Qle_trans; [apply Q.le_max_l | apply IH]. }
  induction l as [|z l IH]; intros x; cbn [fold_left].
  - intros [<-|[]]. lra.
  - intros [<-|[<-|H]].
    + eapply Qle_trans; [apply Q.le_max_l | apply Hx].
    + eapply Qle_trans; [apply Q.le_max_r | apply Hx].
    + apply IH. now right.
Qed.

(** The fields of the row of a name, from the prices kept under it. *)
Lemma statOf_fields (nm : string) (prices : list PriceRecord) (stat : ItemStat) :
  In stat (statOf (nm, prices)) ->
  exists p0 rest,
    prices = p0 :: rest
    /\ minPrice stat = minOf (pr_price p0) (map pr_price rest)
    /\ maxPrice stat = maxOf (pr_price p0) (map pr_price rest)
    /\ avgPrice stat
       = JS.sumBy (fun v => v) (map pr_price prices)
         / inject_Z (Z.of_nat (List.length (map pr_price prices)))
    /\ lastPrice stat
       = match JS.sort byDateDesc prices with
         | p :: _ => pr_price p
         | [] => 0
         end.
Proof.
  destruct prices as [|p0 rest]; cbn [statOf].
  - intros [].
  - intros [<-|[]]. exists p0, rest. repeat split.
Qed.

(** The rows of the price watch come from the entries of the map. *)
Lemma itemStats_In (transactions : list Transaction) (stat : ItemStat) :
  In stat (itemStats transactions) ->
  exists prices,
    In (is_name stat, prices) (fold_left collect transactions [])
    /\ In stat (statOf (is_name stat, prices)).
Proof.
  unfold itemStats. intros H.
  apply sort_In, in_flat_map in H. destruct H as [[nm prices] [He Hs]].
  destruct (statOf_In _ _ Hs) as [Hname _]. cbn [fst] in Hname.
  exists prices. rewrite Hname. now split.
Qed.

(** X1.  Every price in the history of an item lies between its lowest and its
    highest price, both of which are the price of some record of the
    history. *)
Theorem itemStats_price_range (transactions : list Transaction)
    (stat : ItemStat) :
  In stat (itemStats transactions) ->
  (forall h, In h (history stat) ->
             minPrice stat <= pr_price h /\ pr_price h <= maxPrice stat)
  /\ (exists h, In h (history stat) /\ pr_price h = minPrice stat)
  /\ (exists h, In h (history stat) /\ pr_price h = maxPrice stat).
Proof.
  intros H. destruct (itemStats_In _ _ H) as [prices [_ Hs]].
  destruct (statOf_In _ _ Hs) as [_ [Hhist _]]. cbn [snd] in Hhist.
  destruct (statOf_fields _ _ _ Hs) as [p0 [rest [Hp [Hmin [Hmax _]]]]].
  assert (forall h, In h (history stat) <-> In h prices) as Hin
    by (intros h; rewrite Hhist; apply sort_In).
  split; [|split].
  - intros h Hh. apply Hin in Hh. rewrite Hmin, Hmax. rewrite Hp in Hh.
    assert (In (pr_price h) (pr_price p0 :: map pr_price rest)) as Hy
      by (apply (in_map pr_price) in Hh; exact Hh).
    split; [now apply minOf_le | now apply maxOf_ge].
  - pose proof (minOf_In (pr_price p0) (map pr_price rest)) as Hm.
    rewrite <- Hmin in Hm.
    change (In (minPrice stat) (map pr_price (p0 :: rest))) in Hm.
    rewrite <- Hp in Hm. apply in_map_iff in Hm. destruct Hm as [h [Hh1 Hh2]].
    exists h. split; [now apply Hin | exact Hh1].
  - pose proof (maxOf_In (pr_price p0) (map pr_price rest)) as Hm.
    rewrite <- Hmax in Hm.
    change (In (maxPrice stat) (map pr_price (p0 :: rest))) in Hm.
    rewrite <- Hp in Hm. apply in_map_iff in Hm. destruct Hm as [h [Hh1 Hh2]].
    exists h. split; [now apply Hin | exact Hh1].
Qed.

(** Milk at 3, 2 and 5: the lowest price is 2, the highest 5, and every
    price of the history lies between them. *)
Lemma itemStats_price_range_threeMilk :
  exists stat,
    In stat (itemStats threeMilk)
    /\ is_name stat = "Milk"
    /\ minPrice stat == 2 /\ maxPrice stat == 5
    /\ (forall h, In h (history stat) ->
                  minPrice stat <= pr_price h /\ pr_price h <= maxPrice stat).
Proof.
  pose (stat := hd (Build_ItemStat "" 0 0 0 "" 0 []) (itemStats threeMilk)).
  assert (In stat (itemStats threeMilk)) as Hin by (vm_compute; now left).
  destruct (itemStats_price_range threeMilk stat Hin) as [Hb _].
  exists stat. split; [exact Hin|]. split; [vm_compute; reflexivity|].
  split; [vm_compute; reflexivity|]. split; [vm_compute; reflexivity|].
  exact Hb.
Defined.

(** ** Orders of the price watch *)

Lemma StronglySorted_impl {A} (R R' : A -> A -> Prop) (l : list A) :
  (forall a b, R a b -> R' a b) -> StronglySorted R l -> StronglySorted R' l.
Proof.
  intros HR. induction 1 as [|x l Hs IH Hall]; constructor.
  - exact IH.
  - eapply Forall_impl; [|exact Hall]. intros b. apply HR.
Qed.

Lemma gtb_Qeq (a b : Q) : a == b -> JS.gtb a 0 = JS.gtb b 0.
Proof.
  intros H. apply eq_true_iff_eq. rewrite !gtb_true. rewrite H. tauto.
Qed.

Lemma inject_Z_sub (a b : Z) : inject_Z (a - b) == inject_Z a - inject_Z b.
Proof.
  unfold Z.sub. rewrite inject_Z_plus, inject_Z_opp. reflexivity.
Qed.

(** Sorting by [new Date(b.date).getTime() - new Date(a.date).getTime()],
    when every date has a time value, is sorting by the time value in
    descending order. *)
Lemma sort_newest_first {A} (dateOf : A -> string) (l : list A) :
  (forall x, In x l -> dated (dateOf x)) ->
  JS.sort (fun a b =>
             match JS.getTime (dateOf b), JS.getTime (dateOf a) with
             | Some tb, Some ta => inject_Z (tb - ta)
             | _, _ => 0
             end) l
  = JS.sort (fun a b => inject_Z (timeOf (dateOf b))
                        - inject_Z (timeOf (dateOf a))) l.
Proof.
  intros H. apply sort_ext. intros x y Hx Hy.
  apply H in Hx. apply H in Hy. unfold dated, timeOf in *.
  destruct (JS.getTime (dateOf y)); [|congruence].
  destruct (JS.getTime (dateOf x)); [|congruence].
  apply gtb_Qeq, inject_Z_sub.
Qed.

Lemma newest_first_sorted {A} (dateOf : A -> string) (l : list A) :
  StronglySorted
    (fun a b => (timeOf (dateOf b) <= timeOf (dateOf a))%Z)
    (JS.sort (fun a b => inject_Z (timeOf (dateOf b))
                         - inject_Z (timeOf (dateOf a))) l).
Proof.
  eapply StronglySorted_impl;
    [|apply (sort_desc_sorted (fun a => inject_Z (timeOf (dateOf a))))].
  intros a b Hab. cbv beta in Hab. now rewrite Zle_Qle.
Qed.

(** The records kept under a name come from transactions with items. *)
Lemma collected_from (transactions : list Transaction) (nm : string)
    (prices : list PriceRecord) (h : PriceRecord) :
  In (nm, prices) (fold_left collect transactions []) -> In h prices ->
  exists t i, In t transactions /\ In i (itemsOf t)
              /\ nm = JS.trim (name i) /\ h = recordOf t i.
Proof.
  intros He Hh.
  assert (recorded (fold_left collect transactions []) nm h) as Hr.
  { exists prices. split; [|exact Hh].
    apply In_get; [|exact He]. apply collect_fold_NoDup. constructor. }
  apply collect_fold_recorded in Hr.
  destruct Hr as [[ps [Hg _]]|Hr]; [discriminate Hg | exact Hr].
Qed.

(** X2.  When the date of every transaction with items has a time value, the
    history of an item runs from the newest record to the oldest one, and
    the last price is the price of its first record. *)
Theorem itemStats_history_newest_first (transactions : list Transaction)
    (stat : ItemStat) :
  Forall (fun t => hasItems t = true -> dated (date t)) transactions ->
  In stat (itemStats transactions) ->
  StronglySorted
    (fun a b => (timeOf (pr_date b) <= timeOf (pr_date a))%Z) (history stat)
  /\ exists latest older,
       history stat = latest :: older
       /\ lastPrice stat = pr_price latest
       /\ forall h, In h (history stat) ->
                    (timeOf (pr_date h) <= timeOf (pr_date latest))%Z.
Proof.
  intros Hd H. destruct (itemStats_In _ _ H) as [prices [He Hs]].
  destruct (statOf_In _ _ Hs) as [_ [Hhist _]]. cbn [snd] in Hhist.
  destruct (statOf_fields _ _ _ Hs) as [p0 [rest [Hp [_ [_ [_ Hlast]]]]]].
  assert (forall h, In h prices -> dated (pr_date h)) as Hdated.
  { intros h Hh.
    destruct (collected_from _ _ _ _ He Hh) as [t [i [Ht [Hi [_ ->]]]]].
    cbn [recordOf pr_date].
    rewrite Forall_forall in Hd. apply (Hd t Ht).
    destruct (hasItems t) eqn:E; [reflexivity|].
    rewrite (hasItems_false t E) in Hi. destruct Hi. }
  assert (JS.sort byDateDesc prices
          = JS.sort (fun a b => inject_Z (timeOf (pr_date b))
                                - inject_Z (timeOf (pr_date a))) prices) as Hsort
    by (apply (sort_newest_first pr_date prices Hdated)).
  pose proof (newest_first_sorted pr_date prices) as Hsorted.
  rewrite <- Hsort, <- Hhist in Hsorted.
  split; [exact Hsorted|].
  rewrite <- Hhist in Hlast.
  destruct (history stat) as [|latest older] eqn:E.
  - exfalso. assert (In p0 []) as Hin; [|destruct Hin].
    rewrite Hhist. apply sort_In. rewrite Hp. now left.
  - exists latest, older. split; [reflexivity|]. split; [exact Hlast|].
    inversion Hsorted as [|? ? _ Hall]; subst.
    intros h [<-|Hh]; [lia|].
    rewrite Forall_forall in Hall. now apply Hall.
Qed.

(** In March, February and January milk cost 2, 3 and 5: the history is
    in that order and the last price is 2. *)
Lemma itemStats_history_threeMilk :
  exists stat latest older,
    In stat (itemStats threeMilk)
    /\ is_name stat = "Milk"
    /\ history stat = latest :: older
    /\ lastPrice stat = pr_price latest
    /\ pr_date latest = "2024-03-01"
    /\ StronglySorted
         (fun a b => (timeOf (pr_date b) <= timeOf (pr_date a))%Z)
         (history stat).
Proof.
  assert (Forall (fun t => hasItems t = true -> dated (date t)) threeMilk) as Hd.
  { repeat constructor; intros _; unfold dated; vm_compute; discriminate. }
  pose (stat := hd (Build_ItemStat "" 0 0 0 "" 0 []) (itemStats threeMilk)).
  assert (In stat (itemStats threeMilk)) as Hin by (vm_compute; now left).
  destruct (itemStats_history_newest_first threeMilk stat Hd Hin)
    as [Hs [latest [older [Hh [Hl _]]]]].
  exists stat, latest, older.
  split; [exact Hin|]. split; [vm_compute; reflexivity|].
  split; [exact Hh|]. split; [exact Hl|]. split; [|exact Hs].
  assert (hd_error (history stat) = Some latest) as Hhd by now rewrite Hh.
  vm_compute in Hhd. injection Hhd as <-. reflexivity.
Defined.

(** ** The rows of the price watch *)

Lemma statOf_names (m : JS.Map (list PriceRecord)) (n : string) :
  In n (map is_name (flat_map statOf m)) -> In n (JS.keys m).
Proof.
  rewrite in_map_iff. intros [stat [<- H]].
  apply in_flat_map in H. destruct H as [e [He Hs]].
  destruct (statOf_In _ _ Hs) as [-> _].
  unfold JS.keys. now apply in_map.
Qed.

Lemma statOf_NoDup (m : JS.Map (list PriceRecord)) :
  NoDup (JS.keys m) -> NoDup (map is_name (flat_map statOf m)).
Proof.
  induction m as [|[nm prices] m IH]; cbn [flat_map JS.keys map].
  - constructor.
  - intros Hnd. inversion Hnd as [|? ? Hk Hm]; subst.
    destruct prices as [|p0 rest]; cbn [statOf app map is_name].
    + now apply IH.
    + constructor; [|now apply IH].
      intros Hin. apply Hk. now apply statOf_names.
Qed.

(** The number of records kept under a name grows by one for each item
    of that trimmed name. *)
Lemma addPrice_length (t : Transaction) (m : JS.Map (list PriceRecord))
    (i : ReceiptItem) (n : string) :
  List.length (entryOr n [] (addPrice t m i))
  = (List.length (entryOr n [] m)
     + if String.eqb (JS.trim (name i)) n then 1 else 0)%nat.
Proof.
  unfold addPrice. destruct (String.eqb (JS.trim (name i)) n) eqn:E.
  - apply String.eqb_eq in E. subst n.
    unfold entryOr at 1. rewrite upsert_get_same.
    rewrite length_app. reflexivity.
  - apply String.eqb_neq in E.
    unfold entryOr. rewrite upsert_get_other by exact E. lia.
Qed.

Lemma collect_fold_length (ts : list Transaction)
    (m : JS.Map (list PriceRecord)) (n : string) :
  List.length (entryOr n [] (fold_left collect ts m))
  = (List.length (entryOr n [] m)
     + List.length (filter (fun i => String.eqb (JS.trim (name i)) n)
                           (flat_map itemsOf ts)))%nat.
Proof.
  revert m. induction ts as [|t ts IH]; intros m; cbn [fold_left flat_map].
  - cbn [filter List.length]. lia.
  - rewrite IH, filter_app, length_app.
    assert (List.length (entryOr n [] (collect m t))
            = (List.length (entryOr n [] m)
               + List.length (filter (fun i => String.eqb (JS.trim (name i)) n)
                                     (itemsOf t)))%nat) as ->; [|lia].
    unfold collect. destruct (hasItems t) eqn:E.
    + generalize (itemsOf t). intros l. revert m.
      induction l as [|i l IHl]; intros m; cbn [fold_left filter].
      * cbn [List.length]. lia.
      * rewrite IHl, addPrice_length.
        destruct (String.eqb (JS.trim (name i)) n); cbn [List.length]; lia.
    + rewrite (hasItems_false t E). cbn [filter List.length]. lia.
Qed.

(** X3.  The price watch has one row for each trimmed item name, most records
    first; the history of a row has one record for each item of that
    trimmed name, and at least one. *)
Theorem itemStats_rows (transactions : list Transaction) :
  NoDup (map is_name (itemStats transactions))
  /\ StronglySorted
       (fun a b => (List.length (history b) <= List.length (history a))%nat)
       (itemStats transactions)
  /\ Forall
       (fun stat =>
          List.length (history stat)
          = List.length
              (filter (fun i => String.eqb (JS.trim (name i)) (is_name stat))
                      (flat_map itemsOf transactions))
          /\ (0 < List.length (history stat))%nat)
       (itemStats transactions).
Proof.
  assert (NoDup (JS.keys (fold_left collect transactions []))) as Hnd
    by (apply collect_fold_NoDup; constructor).
  split; [|split].
  - unfold itemStats.
    eapply Permutation_NoDup;
      [apply Permutation_map, Permutation_sym, sort_perm|].
    now apply statOf_NoDup.
  - unfold itemStats.
    eapply StronglySorted_impl;
      [|apply (sort_desc_sorted
                 (fun a => inject_Z (Z.of_nat (List.length (history a)))))].
    intros a b Hab. cbv beta in Hab. rewrite <- Zle_Qle in Hab. lia.
  - apply Forall_forall. intros stat H.
    destruct (itemStats_In _ _ H) as [prices [He Hs]].
    destruct (statOf_In _ _ Hs) as [_ [Hhist Hne]]. cbn [snd] in Hhist, Hne.
    assert (List.length (history stat) = List.length prices) as Hlen
      by (rewrite Hhist; apply Permutation_length, sort_perm).
    pose proof (collect_fold_length transactions [] (is_name stat)) as Hc.
    unfold entryOr in Hc. rewrite (In_get _ _ _ Hnd He) in Hc.
    cbn [JS.get List.length] in Hc. rewrite Hlen. split; [lia|].
    destruct prices; [congruence | cbn [List.length]; lia].
Qed.

(** ** The breakdown by category *)

(** A sum of terms that are not negative is at least each of them. *)
Lemma sumBy_ge_term {A} (f : A -> Q) (l : list A) :
  (forall x, In x l -> 0 <= f x) ->
  forall x, In x l -> f x <= JS.sumBy f l.
Proof.
  induction l as [|y l IH]; intros Hpos x Hx; [destruct Hx|].
  rewrite sumBy_cons.
  assert (0 <= f y) by (apply Hpos; now left).
  assert (0 <= JS.sumBy f l)
    by (apply sumBy_nonneg; intros; apply Hpos; now right).
  destruct Hx as [<-|Hx]; [lra|].
  assert (f x <= JS.sumBy f l)
    by (apply IH; [intros; apply Hpos; now right | exact Hx]).
  lra.
Qed.

Lemma shares {A} (f : A -> Q) (l : list A) :
  (forall x, In x l -> 0 <= f x) ->
  Forall (fun x => 0 <= f x /\ f x <= JS.sumBy f l) l.
Proof.
  intros H. apply Forall_forall. intros x Hx.
  split; [now apply H | now apply sumBy_ge_term].
Qed.

(** X4.  When no expense in scope has a negative amount, or a label that is a
    name inherited from [Object.prototype], the value of every row of the
    breakdown by category lies between zero and the total of the rows,
    which is the total expense of the period. *)
Theorem categoryData_shares (transactions : list Transaction)
    (selectedMonth : string) :
  Forall (fun t => inheritedName (category t) = false /\ 0 <= amountAUD t)
         (expensesInScope transactions selectedMonth) ->
  Forall (fun row =>
            0 <= nv_value row
            /\ nv_value row <= totalExpenseInPeriod transactions selectedMonth)
         (categoryData transactions selectedMonth).
Proof.
  intros Hscope. rewrite Forall_forall in Hscope.
  unfold totalExpenseInPeriod. apply shares.
  intros row Hrow. unfold categoryData in Hrow.
  fold (expensesInScope transactions selectedMonth) in Hrow.
  apply sort_In, in_map_iff in Hrow.
  destruct Hrow as [[c v] [<- Hcv]]. cbn [toNamedValue nv_value snd].
  destruct (grouped_rows (expensesInScope transactions selectedMonth) c)
    as [_ [_ Hv]].
  rewrite (Hv v Hcv). unfold labelled. apply sumBy_nonneg.
  intros t Ht. apply filter_In in Ht. apply Hscope, Ht.
Qed.

(** Groceries at 120 and dining at 150: both rows lie within the
    total. *)
Lemma categoryData_shares_twoOverspent :
  Forall (fun row =>
            0 <= nv_value row
            /\ nv_value row <= totalExpenseInPeriod twoOverspent "all")
         (categoryData twoOverspent "all")
  /\ map nv_name (categoryData twoOverspent "all") = ["Dining"; "Groceries"].
Proof.
  split; [|vm_compute; reflexivity].
  apply categoryData_shares.
  repeat constructor; vm_compute; discriminate.
Defined.

(** X5.  With all months selected, the breakdown of the analytics is the chart
    of the app sorted by value: the same rows, in descending order of
    their values. *)
Theorem categoryData_all_is_chartData (transactions : list Transaction) :
  categoryData transactions "all"
  = JS.sort (fun a b => nv_value b - nv_value a) (chartData transactions)
  /\ Permutation (categoryData transactions "all") (chartData transactions)
  /\ StronglySorted (fun a b => nv_value b <= nv_value a)
                    (categoryData transactions "all").
Proof.
  split; [reflexivity|]. split.
  - apply (sort_perm (fun a b => nv_value b - nv_value a)).
  - unfold categoryData. apply (sort_desc_sorted nv_value).
Qed.

(** X6.  The rows of the breakdown by category and those of the drill-down are
    in descending order of their values. *)
Theorem breakdowns_descending (transactions : list Transaction)
    (selectedMonth : string) (detailCategory : option string) :
  StronglySorted (fun a b => nv_value b <= nv_value a)
                 (categoryData transactions selectedMonth)
  /\ StronglySorted (fun a b => nv_value b <= nv_value a)
                    (itemizedData transactions selectedMonth detailCategory).
Proof.
  split.
  - unfold categoryData. apply (sort_desc_sorted nv_value).
  - unfold itemizedData. destruct detailCategory as [cat|]; [|constructor].
    destruct (String.eqb cat ""); [constructor|].
    apply (sort_desc_sorted nv_value).
Qed.

(** ** The drill-down *)

Lemma itemizedLoop_no_items (ts : list Transaction) (st : ItemAcc) :
  Forall (fun t => hasItems t = false) ts ->
  fold_left itemizedStep ts st
  = {| itemMap := itemMap st;
       manualEntryTotal :=
         fold_left (fun sum t => sum + amountAUD t) ts (manualEntryTotal st) |}.
Proof.
  intros H. revert st. induction H as [|t ts Ht _ IH]; intros st; cbn [fold_left].
  - now destruct st.
  - rewrite IH. unfold itemizedStep. rewrite Ht. reflexivity.
Qed.

(** X7.  When no transaction in scope has items, the drill-down is the single
    row of unclassified amounts with the sum of the amounts in scope, or
    nothing at all when that sum is not above 0.01. *)
Theorem itemizedData_without_items (transactions : list Transaction)
    (selectedMonth cat : string) :
  cat <> "" ->
  Forall (fun t => hasItems t = false)
         (relevantTransactions transactions selectedMonth cat) ->
  itemizedData transactions selectedMonth (Some cat)
  = if JS.gtb (JS.sumBy amountAUD
                 (relevantTransactions transactions selectedMonth cat))
              (1 # 100)
    then [{| nv_name := manualLabel;
             nv_value :=
               JS.sumBy amountAUD
                 (relevantTransactions transactions selectedMonth cat) |}]
    else [].
Proof.
  intros Hcat Hno. unfold itemizedData, itemizedLoop.
  apply String.eqb_neq in Hcat. rewrite Hcat.
  rewrite (itemizedLoop_no_items _ _ Hno).
  cbn [itemMap manualEntryTotal map app].
  fold (JS.sumBy amountAUD (relevantTransactions transactions selectedMonth cat)).
  destruct (JS.gtb _ (1 # 100)); reflexivity.
Qed.

(** Two hand-entered dinners of 12 and 8: one row of 20. *)
Lemma itemizedData_without_items_byHand :
  exists v,
    itemizedData byHand "all" (Some "Dining")
    = [{| nv_name := manualLabel; nv_value := v |}]
    /\ v == 20.
Proof.
  assert ("Dining" <> "") as Hcat by discriminate.
  assert (Forall (fun t => hasItems t = false)
                 (relevantTransactions byHand "all" "Dining")) as Hno
    by (repeat constructor).
  pose proof (itemizedData_without_items byHand "all" "Dining" Hcat Hno) as H.
  eexists. split; [exact H | vm_compute; reflexivity].
Defined.

Lemma unclassifiedPart_nonneg (t : Transaction) :
  0 <= amountAUD t -> 0 <= unclassifiedPart t.
Proof.
  intros H. unfold unclassifiedPart. destruct (hasItems t); [|exact H].
  destruct (JS.gtb (amountAUD t) (itemsSum t + (1 # 10))) eqn:E; [|lra].
  apply gtb_true in E. lra.
Qed.

(** X8.  When no amount and no price is negative, the value of every row of
    the drill-down, the unclassified row among them, lies between zero and
    the total of the rows. *)
Theorem itemizedData_shares (transactions : list Transaction)
    (selectedMonth : string) (detailCategory : option string) :
  (forall t, In t transactions ->
     0 <= amountAUD t /\ forall i, In i (itemsOf t) -> 0 <= price i) ->
  Forall (fun row =>
            0 <= nv_value row
            /\ nv_value row
               <= totalItemizedExpense transactions selectedMonth
                    detailCategory)
         (itemizedData transactions selectedMonth detailCategory).
Proof.
  intros Hpos. unfold totalItemizedExpense. apply shares.
  intros row Hrow. unfold itemizedData in Hrow.
  destruct detailCategory as [cat|]; [|destruct Hrow].
  destruct (String.eqb cat ""); [destruct Hrow|].
  set (rel := relevantTransactions transactions selectedMonth cat) in *.
  assert (forall t, In t rel -> In t transactions) as Hrel.
  { intros t Ht. unfold rel, relevantTransactions in Ht.
    apply filter_In in Ht. destruct Ht as [Ht _].
    unfold filteredTransactions in Ht.
    destruct (String.eqb selectedMonth "all"); [exact Ht|].
    now apply filter_In in Ht. }
  unfold itemizedLoop in Hrow.
  destruct (itemizedLoop_buckets rel {| itemMap := []; manualEntryTotal := 0 |})
    as [Hget [_ Hnd]].
  destruct (itemizedLoop_from rel {| itemMap := []; manualEntryTotal := 0 |})
    as [_ Hman].
  cbn [itemMap manualEntryTotal JS.get JS.orZero] in Hget, Hman.
  set (st := fold_left itemizedStep rel _) in *.
  assert (0 <= manualEntryTotal st) as Hm.
  { rewrite Hman.
    assert (0 <= JS.sumBy unclassifiedPart rel); [|lra].
    apply sumBy_nonneg. intros t Ht.
    apply unclassifiedPart_nonneg, Hpos, Hrel, Ht. }
  assert (forall r, In r (map toNamedValue (itemMap st)) -> 0 <= nv_value r)
    as Hitems.
  { intros r Hr. apply in_map_iff in Hr. destruct Hr as [[n v] [<- Hnv]].
    cbn [toNamedValue nv_value snd].
    assert (NoDup (JS.keys (itemMap st))) as Hnd' by (apply Hnd; constructor).
    pose proof (In_get _ _ _ Hnd' Hnv) as Hg.
    pose proof (Hget n) as Hn. rewrite Hg, orZero_Some in Hn. rewrite Hn.
    assert (0 <= JS.sumBy (itemsNamed n) rel); [|lra].
    apply sumBy_nonneg. intros t Ht. unfold itemsNamed.
    apply sumBy_nonneg. intros i Hi. apply filter_In in Hi.
    apply (proj2 (Hpos t (Hrel t Ht))), Hi. }
  apply sort_In in Hrow.
  destruct (JS.gtb (manualEntryTotal st) (1 # 100)).
  - apply in_app_or in Hrow. destruct Hrow as [Hrow|[<-|[]]].
    + now apply Hitems.
    + exact Hm.
  - now apply Hitems.
Qed.

(** A receipt of 5.05 with milk at 5, and 20 entered by hand: the rows
    are the unclassified 20 and the milk, both within the total. *)
Lemma itemizedData_shares_nearlyItemized :
  Forall (fun row =>
            0 <= nv_value row
            /\ nv_value row
               <= totalItemizedExpense nearlyItemized "all" (Some "Groceries"))
         (itemizedData nearlyItemized "all" (Some "Groceries"))
  /\ map nv_name (itemizedData nearlyItemized "all" (Some "Groceries"))
     = [manualLabel; "Milk"].
Proof.
  split; [|vm_compute; reflexivity].
  apply itemizedData_shares.
  intros t [<-|[<-|[]]]; (split; [vm_compute; discriminate|]).
  - intros i [<-|[]]. vm_compute. discriminate.
  - intros i [].
Defined.

(** ** Strings: prefixes and the order of the code units *)

Lemma prefix_substring (n : nat) (s : string) :
  String.prefix (String.substring 0 n s) s = true.
Proof.
  revert s. induction n as [|n IH]; intros [|c s]; cbn; try reflexivity.
  destruct (ascii_dec c c); [apply IH | congruence].
Qed.

(** For a prefix of [n] characters, to be a prefix of [s] is to be the
    first [n] characters of [s]. *)
Lemma prefix_length (p s : string) :
  String.prefix p s = true
  <-> String.substring 0 (String.length p) s = p.
Proof.
  revert s. induction p as [|a p IH]; intros [|b s]; cbn.
  - tauto.
  - tauto.
  - split; discriminate.
  - destruct (ascii_dec a b) as [->|Hne].
    + rewrite IH. split; [now intros -> | now intros [= ->]].
    + split; [discriminate | intros [= Hab _]; congruence].
Qed.

Lemma startsWith_month (s m : string) :
  String.length m = 7%nat ->
  JS.startsWith s m = true <-> JS.substring 0 7 s = m.
Proof.
  intros Hlen. unfold JS.startsWith. rewrite prefix_length, Hlen. reflexivity.
Qed.

Lemma ascii_compare_Lt_trans (a b c : ascii) :
  Ascii.compare a b = Lt -> Ascii.compare b c = Lt -> Ascii.compare a c = Lt.
Proof.
  unfold Ascii.compare. rewrite !N.compare_lt_iff. apply N.lt_trans.
Qed.

Lemma string_compare_Lt_trans (a b c : string) :
  String.compare a b = Lt -> String.compare b c = Lt -> String.compare a c = Lt.
Proof.
  revert b c. induction a as [|x a IH]; intros [|y b] [|z c]; cbn;
    try congruence.
  destruct (Ascii.compare x y) eqn:Exy; try discriminate;
    destruct (Ascii.compare y z) eqn:Eyz; try discriminate.
  - apply Ascii.compare_eq_iff in Exy, Eyz. subst.
    intros H1 H2. assert (Ascii.compare z z = Eq) as ->
      by (unfold Ascii.compare; apply N.compare_refl).
    now apply (IH b c).
  - apply Ascii.compare_eq_iff in Exy. subst. now rewrite Eyz.
  - apply Ascii.compare_eq_iff in Eyz. subst. now rewrite Exy.
  - now rewrite (ascii_compare_Lt_trans x y z).
Qed.

Lemma string_compare_Gt_Lt (a b : string) :
  String.compare a b = Gt <-> String.compare b a = Lt.
Proof.
  rewrite (String.compare_antisym a b).
  destruct (String.compare b a); cbn; split; congruence.
Qed.

Lemma defaultCompare_pos (a b : string) :
  0 < JS.defaultCompare a b <-> String.compare a b = Gt.
Proof.
  unfold JS.defaultCompare.
  destruct (String.compare a b); split; intros H; try discriminate;
    try reflexivity; try lra.
Qed.

Lemma defaultCompare_le (a b : string) :
  JS.defaultCompare a b <= 0 <-> String.compare a b <> Gt.
Proof.
  unfold JS.defaultCompare.
  destruct (String.compare a b); split; intros H; try discriminate;
    try congruence; try lra.
Qed.

Lemma defaultCompare_antisym (a b : string) :
  0 < JS.defaultCompare a b -> JS.defaultCompare b a <= 0.
Proof.
  rewrite defaultCompare_pos, defaultCompare_le.
  intros H. apply string_compare_Gt_Lt in H. congruence.
Qed.

Lemma defaultCompare_trans (a b c : string) :
  JS.defaultCompare a b <= 0 -> JS.defaultCompare b c <= 0 ->
  JS.defaultCompare a c <= 0.
Proof.
  rewrite !defaultCompare_le. intros Hab Hbc.
  destruct (String.compare a b) eqn:Eab; [| |congruence].
  - apply String.compare_eq_iff in Eab. now subst.
  - destruct (String.compare b c) eqn:Ebc; [| |congruence].
    + apply String.compare_eq_iff in Ebc. subst. now rewrite Eab.
    + now rewrite (string_compare_Lt_trans a b c).
Qed.

(** ** The months of the dropdown *)

Lemma dedup_In (seen l : list string) (x : string) :
  In x (dedup seen l) <-> In x l /\ ~ In x seen.
Proof.
  revert seen. induction l as [|y l IH]; intros seen; cbn [dedup].
  - cbn. tauto.
  - destruct (existsb (String.eqb y) seen) eqn:E.
    + apply existsb_exists in E. destruct E as [z [Hz E]].
      apply String.eqb_eq in E. subst z.
      rewrite IH. cbn [In]. split; [tauto|].
      intros [[->|H] Hn]; [contradiction | tauto].
    + assert (~ In y seen) as Hy.
      { intros H. apply Bool.not_true_iff_false in E. apply E.
        apply existsb_exists. exists y. split; [exact H|].
        apply String.eqb_refl. }
      cbn [In]. rewrite IH. cbn [In].
      destruct (string_dec y x) as [->|Hne]; [tauto|]. tauto.
Qed.

Lemma dedup_NoDup (seen l : list string) : NoDup (dedup seen l).
Proof.
  revert seen. induction l as [|y l IH]; intros seen; cbn [dedup].
  - constructor.
  - destruct (existsb (String.eqb y) seen); [apply IH|].
    constructor; [|apply IH].
    rewrite dedup_In. cbn [In]. tauto.
Qed.

Lemma StronglySorted_NoDup_strict {A} (R : A -> A -> Prop) (l : list A) :
  StronglySorted R l -> NoDup l ->
  StronglySorted (fun a b => R a b /\ a <> b) l.
Proof.
  induction 1 as [|x l Hs IH Hall]; intros Hnd; [constructor|].
  inversion Hnd as [|? ? Hx Hl]; subst.
  constructor; [now apply IH|].
  rewrite Forall_forall in *. intros y Hy. split; [now apply Hall|].
  intros ->. contradiction.
Qed.

(** X9.  The months of the dropdown are the month keys of the transactions,
    each one once, the latest first in the order of the code units. *)
Theorem availableMonths_months (transactions : list Transaction) :
  (forall m, In m (availableMonths transactions)
             <-> exists t, In t transactions /\ monthKeyOf t = m)
  /\ NoDup (availableMonths transactions)
  /\ StronglySorted (fun a b => String.compare b a = Lt)
                    (availableMonths transactions).
Proof.
  unfold availableMonths.
  assert (NoDup (JS.sort JS.defaultCompare (monthSet transactions))) as Hnd.
  { eapply Permutation_NoDup; [apply Permutation_sym, sort_perm|].
    apply dedup_NoDup. }
  split; [|split].
  - intros m. rewrite <- in_rev, sort_In. unfold monthSet.
    rewrite dedup_In, in_map_iff. cbn [In]. unfold monthKeyOf. split.
    + intros [[t [H1 H2]] _]. now exists t.
    + intros [t [H1 H2]]. split; [now exists t | tauto].
  - now apply NoDup_rev.
  - apply (StronglySorted_rev (fun a b => String.compare a b = Lt)).
    eapply StronglySorted_impl;
      [|apply StronglySorted_NoDup_strict;
        [apply (sort_consistent_sorted JS.defaultCompare
                  defaultCompare_antisym defaultCompare_trans)
        |exact Hnd]].
    intros a b [Hle Hne]. cbv beta in Hle. apply defaultCompare_le in Hle.
    destruct (String.compare a b) eqn:E; [|reflexivity|congruence].
    apply String.compare_eq_iff in E. contradiction.
Qed.

(** X10.  Every month of the dropdown selects at least one transaction; every
    transaction is selected by the month of the dropdown that is its month
    key; and a key of seven characters selects the transactions with that
    key and no others. *)
Theorem availableMonths_select (transactions : list Transaction) :
  (forall m, In m (availableMonths transactions) ->
             filteredTransactions transactions m <> [])
  /\ (forall t, In t transactions ->
                In (monthKeyOf t) (availableMonths transactions)
                /\ In t (filteredTransactions transactions (monthKeyOf t)))
  /\ (forall m, String.length m = 7%nat ->
                filteredTransactions transactions m
                = filter (fun t => String.eqb (monthKeyOf t) m) transactions).
Proof.
  assert (forall t, In t transactions ->
            In t (filteredTransactions transactions (monthKeyOf t))) as Hsel.
  { intros t Ht. unfold filteredTransactions.
    destruct (String.eqb (monthKeyOf t) "all"); [exact Ht|].
    apply filter_In. split; [exact Ht|].
    unfold JS.startsWith, monthKeyOf, JS.substring. cbn [Nat.min Nat.max Nat.sub].
    apply prefix_substring. }
  assert (forall m, In m (availableMonths transactions)
             <-> exists t, In t transactions /\ monthKeyOf t = m) as Hin.
  { intros m. unfold availableMonths, monthSet.
    rewrite <- in_rev, sort_In, dedup_In, in_map_iff. cbn [In].
    unfold monthKeyOf. split.
    - intros [[t [H1 H2]] _]. now exists t.
    - intros [t [H1 H2]]. split; [now exists t | tauto]. }
  split; [|split].
  - intros m Hm. apply Hin in Hm. destruct Hm as [t [Ht <-]].
    intros Hnil. pose proof (Hsel t Ht) as H. rewrite Hnil in H. destruct H.
  - intros t Ht. split; [|now apply Hsel]. apply Hin. now exists t.
  - intros m Hlen. unfold filteredTransactions.
    destruct (String.eqb m "all") eqn:E.
    + apply String.eqb_eq in E. subst m. discriminate Hlen.
    + apply filter_ext. intros t.
      apply eq_true_iff_eq. rewrite (startsWith_month _ _ Hlen).
      unfold monthKeyOf. now rewrite String.eqb_eq.
Qed.

(** ** The monthly trend *)

Section GROUP_FACTS.
Context {V : Type}.
Variable keyOf : Transaction -> string.
Variable init : Transaction -> V.
Variable update : Transaction -> V -> V.

(** A property of the entries that the initial entry has and the update
    keeps holds of every entry. *)
Lemma group_invariant (P : string -> V -> Prop) (ts : list Transaction)
    (m : JS.Map V) :
  (forall t, P (keyOf t) (init t)) ->
  (forall t e, P (keyOf t) e -> P (keyOf t) (update t e)) ->
  (forall k e, In (k, e) m -> P k e) ->
  forall k e,
    In (k, e) (fold_left (fun m t => JS.upsert (keyOf t) (init t) (update t) m)
                         ts m) ->
    P k e.
Proof.
  intros Hinit Hupd. revert m.
  induction ts as [|t ts IH]; intros m Hm; cbn [fold_left].
  - exact Hm.
  - apply IH. intros k e. rewrite upsert_eq.
    intros H. apply In_set in H. destruct H as [[-> ->]|H].
    + apply Hupd. unfold entryOr.
      destruct (JS.get (keyOf t) m) as [e0|] eqn:E.
      * apply get_In in E. now apply Hm.
      * apply Hinit.
    + destruct (JS.has (keyOf t) m); [now apply Hm|].
      apply In_set in H. destruct H as [[-> ->]|H]; [apply Hinit|].
      now apply Hm.
Qed.

End GROUP_FACTS.

(** The net of every entry of the trend is its income less its
    expense. *)
Lemma trend_net (localTZA : Z -> Z) (ts : list Transaction) (k : string)
    (e : TrendAcc) :
  In (k, e) (fold_left (trendStep localTZA) ts []) ->
  t_Net e == t_Income e - t_Expense e.
Proof.
  rewrite trendStep_upsert.
  apply (group_invariant (trendKeyOf localTZA) (trendZero localTZA) trendUpdate
           (fun _ e => t_Net e == t_Income e - t_Expense e)).
  - intros t. cbn [trendZero t_Net t_Income t_Expense]. lra.
  - intros t e0 _. unfold trendUpdate. cbn [t_Net t_Income t_Expense]. lra.
  - intros ? ? [].
Qed.

Lemma trend_values_names (localTZA : Z -> Z) (ts : list Transaction) :
  map t_name (JS.values (fold_left (trendStep localTZA) ts []))
  = JS.keys (fold_left (trendStep localTZA) ts []).
Proof.
  unfold JS.values, JS.keys. rewrite map_map.
  apply map_ext_in. intros [k e] H. cbn [fst snd].
  apply (trend_names localTZA ts [] (fun _ _ (F : In _ []) => match F with end)
                     k e H).
Qed.

Lemma monthlyData_names (localTZA : Z -> Z)
    (localeCompare : string -> string -> Q) (ts : list Transaction) :
  Permutation (map tr_name (monthlyData localTZA localeCompare ts))
              (JS.keys (fold_left (trendStep localTZA) ts [])).
Proof.
  unfold monthlyData. rewrite map_map. cbn [toTrendRow tr_name].
  rewrite <- trend_values_names.
  apply Permutation_map, sort_perm.
Qed.

Lemma monthlyData_In (localTZA : Z -> Z)
    (localeCompare : string -> string -> Q) (ts : list Transaction)
    (row : TrendRow) :
  In row (monthlyData localTZA localeCompare ts) ->
  exists e, In (tr_name row, e) (fold_left (trendStep localTZA) ts [])
            /\ row = toTrendRow e.
Proof.
  unfold monthlyData. intros H.
  apply in_map_iff in H. destruct H as [e [<- H]].
  apply sort_In in H. unfold JS.values in H.
  apply in_map_iff in H. destruct H as [[k e'] [He' H]].
  cbn [snd] in He'. subst e'. exists e. split; [|reflexivity].
  cbn [toTrendRow tr_name].
  rewrite (trend_names localTZA ts [] (fun _ _ (F : In _ []) => match F with end)
                       k e H).
  exact H.
Qed.

(** X11.  For dates of the form [YYYY-MM-DD], whatever the time zone and the
    collation of the host: the rows of the monthly trend have distinct
    names, every transaction has the row of its key, and the row of a key
    carries the total income and the total expense of the transactions
    filed under that key, as the totals of the app compute them, added in
    the order of the list; its net is the one less the other. *)
Theorem monthlyData_rows (localTZA : Z -> Z)
    (localeCompare : string -> string -> Q) (transactions : list Transaction) :
  Forall (fun t => JS.parseDateOnly (date t) <> None) transactions ->
  NoDup (map tr_name (monthlyData localTZA localeCompare transactions))
  /\ (forall t, In t transactions ->
        In (trendKeyOf localTZA t)
           (map tr_name (monthlyData localTZA localeCompare transactions)))
  /\ (forall row,
        In row (monthlyData localTZA localeCompare transactions) ->
        ofTrendKey localTZA (tr_name row) transactions <> []
        /\ tr_Income row
           = totalIncomeAUD (ofTrendKey localTZA (tr_name row) transactions)
        /\ tr_Expense row
           = totalExpenseAUD (ofTrendKey localTZA (tr_name row) transactions)
        /\ tr_Net row = tr_Income row - tr_Expense row).
Proof.
  intros _.
  pose proof (monthlyData_names localTZA localeCompare transactions) as Hperm.
  assert (NoDup (JS.keys (fold_left (trendStep localTZA) transactions [])))
    as Hnd.
  { rewrite trendStep_upsert.
    apply (group_fold_NoDup (trendKeyOf localTZA) (trendZero localTZA)
             trendUpdate).
    constructor. }
  assert (forall k,
            In k (JS.keys (fold_left (trendStep localTZA) transactions []))
            <-> exists t, In t transactions /\ trendKeyOf localTZA t = k)
    as Hkeys.
  { intros k. rewrite trendStep_upsert.
    rewrite (group_fold_keys (trendKeyOf localTZA) (trendZero localTZA)
               trendUpdate).
    cbn [JS.keys map In]. tauto. }
  split; [|split].
  - eapply Permutation_NoDup; [apply Permutation_sym, Hperm | exact Hnd].
  - intros t Ht. apply (Permutation_in _ (Permutation_sym Hperm)).
    apply Hkeys. now exists t.
  - intros row Hrow.
    destruct (monthlyData_In _ _ _ _ Hrow) as [e [He ->]].
    cbn [toTrendRow tr_name tr_Income tr_Expense tr_Net] in *.
    pose proof (In_get _ _ _ Hnd He) as Hget.
    split; [|split; [|split]].
    + assert (In (t_name e)
                 (JS.keys (fold_left (trendStep localTZA) transactions [])))
        as Hk by (change (t_name e) with (fst (t_name e, e));
                  now apply in_map).
      apply Hkeys in Hk. destruct Hk as [t [Ht Hkt]].
      intros Hnil.
      assert (In t (ofTrendKey localTZA (t_name e) transactions)) as Hin.
      { apply filter_In. split; [exact Ht|]. now apply String.eqb_eq. }
      rewrite Hnil in Hin. destruct Hin.
    + pose proof (group_fold (trendKeyOf localTZA) (trendZero localTZA)
                    trendUpdate t_Income 0
                    (fun a t => if isIncome t then a + amountAUD t else a)
                    (fun _ => eq_refl)
                    (fun t e0 => ltac:(unfold trendUpdate; cbn [t_Income];
                                       reflexivity))
                    transactions [] (t_name e)) as H.
      rewrite <- trendStep_upsert in H.
      unfold heldAt in H. rewrite Hget in H. cbn [JS.get] in H.
      rewrite H, fold_left_filter. reflexivity.
    + pose proof (group_fold (trendKeyOf localTZA) (trendZero localTZA)
                    trendUpdate t_Expense 0
                    (fun a t => if negb (isIncome t) then a + amountAUD t
                                else a)
                    (fun _ => eq_refl)
                    (fun t e0 => ltac:(unfold trendUpdate; cbn [t_Expense];
                                       destruct (isIncome t); reflexivity))
                    transactions [] (t_name e)) as H.
      rewrite <- trendStep_upsert in H.
      unfold heldAt in H. rewrite Hget in H. cbn [JS.get] in H.
      rewrite H, fold_left_filter. reflexivity.
    + revert He. rewrite trendStep_upsert.
      apply (group_invariant (trendKeyOf localTZA) (trendZero localTZA)
               trendUpdate
               (fun _ e => t_Net e = t_Income e - t_Expense e)).
      * intros t. reflexivity.
      * intros t e0 _. reflexivity.
      * intros ? ? [].
Qed.

(** Ten hours ahead of UTC, the four transactions of three months make
    three rows. *)
Lemma monthlyData_rows_threeMonths :
  map tr_name (monthlyData utcPlus10 codeUnitCompare threeMonths)
  = ["2023-12"; "2024-02"; "2024-03"]
  /\ NoDup (map tr_name (monthlyData utcPlus10 codeUnitCompare threeMonths)).
Proof.
  split; [vm_compute; reflexivity|].
  apply monthlyData_rows.
  repeat constructor; vm_compute; discriminate.
Defined.

(** ** The two monthly views *)

Lemma monthlyHistory_In (localeCompare : string -> string -> Q)
    (ts : list Transaction) (row : MonthRow) :
  In row (monthlyHistory localeCompare ts) ->
  exists e, In (mh_month row, e) (fold_left monthlyStep ts [])
            /\ row = toMonthRow (mh_month row, e).
Proof.
  unfold monthlyHistory. intros H.
  apply in_map_iff in H. destruct H as [[k e] [<- H]].
  apply sort_In in H. exists e. now split.
Qed.

Lemma monthlyHistory_months (localeCompare : string -> string -> Q)
    (ts : list Transaction) :
  Permutation (map mh_month (monthlyHistory localeCompare ts))
              (JS.keys (fold_left monthlyStep ts [])).
Proof.
  unfold monthlyHistory, JS.keys. rewrite map_map. cbn [toMonthRow mh_month].
  apply Permutation_map, sort_perm.
Qed.

(** X12.  When every date reads [YYYY-MM-DD] with a year from 1000 on, and the
    local time of the host is ahead of UTC by less than a day, the monthly
    history of the app and the monthly trend of the analytics list the same
    months, and the rows of a month carry the same income, expense and
    net. *)
Theorem monthly_views_agree (localTZA : Z -> Z)
    (collationApp collationModal : string -> string -> Q)
    (transactions : list Transaction) :
  (forall u, 0 <= localTZA u < JS.msPerDay)%Z ->
  Forall (fun t => exists y m d,
              JS.parseDateOnly (date t) = Some (y, m, d) /\ (1000 <= y)%Z)
         transactions ->
  Permutation (map mh_month (monthlyHistory collationApp transactions))
              (map tr_name (monthlyData localTZA collationModal transactions))
  /\ forall row row',
       In row (monthlyHistory collationApp transactions) ->
       In row' (monthlyData localTZA collationModal transactions) ->
       tr_name row' = mh_month row ->
       tr_Income row' == mh_income row
       /\ tr_Expense row' == mh_expense row
       /\ tr_Net row' == mh_net row.
Proof.
  intros Htz Hdates.
  assert (forall t, In t transactions ->
            trendKeyOf localTZA t = monthKeyOf t) as Hkey.
  { intros t Ht. rewrite Forall_forall in Hdates.
    destruct (Hdates t Ht) as [y [m [d [Hp Hy]]]].
    apply (trendKey_prefix localTZA (date t) y m d Hp Hy Htz). }
  split.
  - eapply perm_trans; [apply monthlyHistory_months|].
    eapply perm_trans; [|apply Permutation_sym, monthlyData_names].
    apply NoDup_Permutation.
    + apply (monthly_rows transactions "").
    + apply (trend_rows localTZA transactions "").
    + intros k.
      destruct (monthly_rows transactions k) as [_ [H1 _]].
      destruct (trend_rows localTZA transactions k) as [_ [H2 _]].
      rewrite H1, H2. split; intros [t [Ht <-]]; exists t;
        (split; [exact Ht|]); [now apply Hkey | symmetry; now apply Hkey].
  - intros row row' Hrow Hrow' Hname.
    destruct (monthlyHistory_In _ _ _ Hrow) as [e [He Hr]].
    destruct (monthlyData_In _ _ _ _ Hrow') as [e' [He' Hr']].
    destruct (monthly_rows transactions (mh_month row)) as [_ [_ H1]].
    destruct (trend_rows localTZA transactions (tr_name row')) as [_ [_ H2]].
    destruct (H1 e He) as [Hi Hx]. destruct (H2 e' He') as [_ [Hi' Hx']].
    pose proof (trend_net localTZA transactions _ e' He') as Hn'.
    assert (incomeUnder (trendKeyOf localTZA) (tr_name row') transactions
            == incomeUnder monthKeyOf (mh_month row) transactions) as Hiu.
    { unfold incomeUnder. apply sumBy_ext. intros t Ht.
      rewrite (Hkey t Ht), Hname. reflexivity. }
    assert (expenseUnder (trendKeyOf localTZA) (tr_name row') transactions
            == expenseUnder monthKeyOf (mh_month row) transactions) as Hxu.
    { unfold expenseUnder. apply sumBy_ext. intros t Ht.
      rewrite (Hkey t Ht), Hname. reflexivity. }
    rewrite Hr, Hr'.
    cbn [toTrendRow toMonthRow tr_Income tr_Expense tr_Net
         mh_income mh_expense mh_net fst snd].
    rewrite Hn', Hi', Hx', Hiu, Hxu, Hi, Hx. repeat split; reflexivity.
Qed.

(** Ten hours ahead of UTC, the two views of the three months agree. *)
Lemma monthly_views_agree_threeMonths :
  Permutation (map mh_month (monthlyHistory codeUnitCompare threeMonths))
              (map tr_name (monthlyData utcPlus10 codeUnitCompare threeMonths)).
Proof.
  assert (forall u, 0 <= utcPlus10 u < JS.msPerDay)%Z as Htz
    by (intros u; unfold utcPlus10, JS.msPerDay; lia).
  assert (Forall (fun t => exists y m d,
                      JS.parseDateOnly (date t) = Some (y, m, d)
                      /\ (1000 <= y)%Z) threeMonths) as Hd.
  { repeat constructor.
    - exists 2024%Z, 2%Z, 10%Z. split; [vm_compute; reflexivity | lia].
    - exists 2024%Z, 3%Z, 1%Z. split; [vm_compute; reflexivity | lia].
    - exists 2023%Z, 12%Z, 24%Z. split; [vm_compute; reflexivity | lia].
    - exists 2024%Z, 2%Z, 11%Z. split; [vm_compute; reflexivity | lia]. }
  exact (proj1 (monthly_views_agree utcPlus10 codeUnitCompare codeUnitCompare
                  threeMonths Htz Hd)).
Defined.

(** ** The list of transactions *)

Lemma StronglySorted_filter {A} (R : A -> A -> Prop) (p : A -> bool)
    (l : list A) :
  StronglySorted R l -> StronglySorted R (filter p l).
Proof.
  induction 1 as [|x l Hs IH Hall]; cbn [filter]; [constructor|].
  destruct (p x); [|exact IH].
  constructor; [exact IH|].
  rewrite Forall_forall in *. intros y Hy. apply filter_In in Hy.
  now apply Hall.
Qed.

Lemma StronglySorted_map {A B} (f : A -> B) (R : B -> B -> Prop) (l : list A) :
  StronglySorted (fun a b => R (f a) (f b)) l -> StronglySorted R (map f l).
Proof.
  induction 1 as [|x l Hs IH Hall]; cbn [map]; constructor.
  - exact IH.
  - rewrite Forall_forall in *. intros y Hy.
    apply in_map_iff in Hy. destruct Hy as [a [<- Ha]]. now apply Hall.
Qed.

(** X13.  When every date has a time value, the list on screen runs from the
    newest date to the oldest one, with or without a date filter; the
    transactions of one date stand in the order in which they are stored;
    and with a date filter the list is the stored list cut down to that
    date. *)
Theorem displayedTransactions_order (transactions : list Transaction)
    (selectedDateFilter : option string) :
  Forall (fun t => dated (date t)) transactions ->
  StronglySorted (fun a b => (timeOf (date b) <= timeOf (date a))%Z)
                 (displayedTransactions transactions selectedDateFilter)
  /\ (forall d,
        filter (fun t => String.eqb (date t) d)
               (displayedTransactions transactions None)
        = filter (fun t => String.eqb (date t) d) transactions)
  /\ (forall d, d <> "" ->
        displayedTransactions transactions (Some d)
        = filter (fun t => String.eqb (date t) d) transactions).
Proof.
  intros Hd. rewrite Forall_forall in Hd.
  assert (JS.sort newestFirst transactions
          = JS.sort (fun a b => inject_Z (timeOf (date b))
                                - inject_Z (timeOf (date a))) transactions)
    as Hsort by (apply (sort_newest_first date transactions Hd)).
  assert (forall d,
            filter (fun t => String.eqb (date t) d)
                   (JS.sort newestFirst transactions)
            = filter (fun t => String.eqb (date t) d) transactions) as Hstable.
  { intros d. rewrite Hsort.
    apply (sort_desc_stable_class (fun a => inject_Z (timeOf (date a)))).
    intros x y _ _ Hx Hy.
    apply String.eqb_eq in Hx, Hy. rewrite Hx, Hy. reflexivity. }
  pose proof (newest_first_sorted date transactions) as Hsorted.
  rewrite <- Hsort in Hsorted.
  split; [|split].
  - unfold displayedTransactions.
    destruct selectedDateFilter as [d|]; [|exact Hsorted].
    destruct (String.eqb d ""); [exact Hsorted|].
    now apply StronglySorted_filter.
  - exact Hstable.
  - intros d Hne. unfold displayedTransactions.
    apply String.eqb_neq in Hne. rewrite Hne. apply Hstable.
Qed.

(** The two dinners of February, filtered by the date of the second. *)
Lemma displayedTransactions_order_threeMonths :
  displayedTransactions threeMonths (Some "2024-02-11")
  = [mkTx expense 10 "Dining" "2024-02-11" "" None]
  /\ StronglySorted (fun a b => (timeOf (date b) <= timeOf (date a))%Z)
                    (displayedTransactions threeMonths None).
Proof.
  assert (Forall (fun t => dated (date t)) threeMonths) as Hd
    by (repeat constructor; unfold dated; vm_compute; discriminate).
  destruct (displayedTransactions_order threeMonths None Hd) as [H1 [_ H3]].
  split; [|exact H1].
  rewrite (H3 "2024-02-11") by discriminate. reflexivity.
Defined.

(** ** Adding and deleting *)

(** X14.  Deleting, by its identifier, a transaction that was just added under
    a fresh identifier gives back the list as it was. *)
Theorem add_then_delete (uuid : string) (exchangeRate amount : Q)
    (category note date : string) (type : TransactionType)
    (items : option (list ReceiptItem)) (tax superannuation : option Q)
    (prev : list Transaction) :
  (forall t, In t prev -> id t <> uuid) ->
  handleDeleteTransaction true uuid
    (handleAddTransaction uuid exchangeRate amount category note date type
       items tax superannuation prev)
  = prev.
Proof.
  intros Hfresh. unfold handleDeleteTransaction, handleAddTransaction.
  cbn [filter id]. rewrite String.eqb_refl. cbn [negb].
  induction prev as [|t prev IH]; cbn [filter]; [reflexivity|].
  assert (String.eqb (id t) uuid = false) as ->
    by (apply String.eqb_neq, Hfresh; now left).
  cbn [negb]. f_equal. apply IH. intros t' Ht'. apply Hfresh. now right.
Qed.

Lemma add_then_delete_scenarioA :
  handleDeleteTransaction true "id-1"
    (handleAddTransaction "id-1" (215 # 10) 15 "Dining" "Lunch" "2024-03-09"
       expense None None None scenarioA)
  = scenarioA.
Proof.
  apply add_then_delete. intros t [<-|[]]. discriminate.
Defined.

(** X15.  Adding a transaction leaves the total of the other type as it was.
    The total of its own type is the amount added first, to zero, and the
    amounts of the transactions of that type after it, in their order: the
    new transaction stands first in the list.  When the amount is not
    negative, neither total decreases. *)
Theorem handleAddTransaction_totals (uuid : string) (exchangeRate amount : Q)
    (category note date : string) (ty : TransactionType)
    (items : option (list ReceiptItem)) (tax superannuation : option Q)
    (prev : list Transaction) :
  let next :=
    handleAddTransaction uuid exchangeRate amount category note date ty
      items tax superannuation prev in
  match ty with
  | income =>
      totalExpenseAUD next = totalExpenseAUD prev
      /\ totalIncomeAUD next
         = fold_left (fun sum t => sum + amountAUD t)
                     (incomeTransactions prev) (0 + amount)
  | expense =>
      totalIncomeAUD next = totalIncomeAUD prev
      /\ totalExpenseAUD next
         = fold_left (fun sum t => sum + amountAUD t)
                     (expenseTransactions prev) (0 + amount)
  end
  /\ (0 <= amount ->
      totalIncomeAUD prev <= totalIncomeAUD next
      /\ totalExpenseAUD prev <= totalExpenseAUD next).
Proof.
  cbv zeta. split.
  - destruct ty; split; reflexivity.
  - intros Hpos.
    rewrite !totalIncomeAUD_spec, !totalExpenseAUD_spec.
    unfold handleAddTransaction. rewrite !sumBy_cons.
    unfold incomeOf, expenseOf, isIncome. cbn [type amountAUD].
    destruct ty; split; lra.
Qed.

(** ** Deleting a month *)

Lemma handleDeleteMonth_filter (month : string) (ts : list Transaction) :
  String.length month = 7%nat ->
  handleDeleteMonth true true month ts
  = filter (fun t => negb (String.eqb (monthKeyOf t) month)) ts.
Proof.
  intros Hlen. unfold handleDeleteMonth. apply filter_ext. intros t.
  f_equal. apply eq_true_iff_eq. rewrite (startsWith_month _ _ Hlen).
  unfold monthKeyOf. now rewrite String.eqb_eq.
Qed.

Lemma sumBy_other_keys (g : Transaction -> Q) (month k : string)
    (ts : list Transaction) :
  k <> month ->
  JS.sumBy (fun t => if String.eqb (monthKeyOf t) k then g t else 0)
           (filter (fun t => negb (String.eqb (monthKeyOf t) month)) ts)
  == JS.sumBy (fun t => if String.eqb (monthKeyOf t) k then g t else 0) ts.
Proof.
  intros Hne. rewrite sumBy_filter_if. apply sumBy_ext. intros t _.
  destruct (String.eqb (monthKeyOf t) month) eqn:E; cbn [negb]; [|reflexivity].
  apply String.eqb_eq in E.
  assert (String.eqb (monthKeyOf t) k = false) as ->
    by (apply String.eqb_neq; congruence).
  reflexivity.
Qed.

(** X16.  Deleting a month, given as the seven characters of its key and
    confirmed twice, takes the row of that month out of the monthly
    history and leaves the rows of the other months with their figures. *)
Theorem handleDeleteMonth_history (localeCompare : string -> string -> Q)
    (month : string) (transactions : list Transaction) :
  String.length month = 7%nat ->
  let rest := handleDeleteMonth true true month transactions in
  (forall row, In row (monthlyHistory localeCompare rest) ->
     mh_month row <> month
     /\ exists row', In row' (monthlyHistory localeCompare transactions)
                     /\ mh_month row' = mh_month row
                     /\ mh_income row' == mh_income row
                     /\ mh_expense row' == mh_expense row
                     /\ mh_net row' == mh_net row)
  /\ (forall row', In row' (monthlyHistory localeCompare transactions) ->
        mh_month row' <> month ->
        exists row, In row (monthlyHistory localeCompare rest)
                    /\ mh_month row = mh_month row').
Proof.
  intros Hlen rest. unfold rest. rewrite (handleDeleteMonth_filter _ _ Hlen).
  clear rest.
  set (rest := filter (fun t => negb (String.eqb (monthKeyOf t) month))
                      transactions).
  assert (forall k, In k (JS.keys (fold_left monthlyStep rest []))
             <-> k <> month
                 /\ In k (JS.keys (fold_left monthlyStep transactions [])))
    as Hkeys.
  { intros k.
    destruct (monthly_rows rest k) as [_ [H1 _]].
    destruct (monthly_rows transactions k) as [_ [H2 _]].
    rewrite H1, H2. unfold rest. split.
    - intros [t [Ht <-]]. apply filter_In in Ht. destruct Ht as [Ht Hk].
      apply negb_true_iff, String.eqb_neq in Hk.
      split; [exact Hk | now exists t].
    - intros [Hne [t [Ht <-]]]. exists t. split; [|reflexivity].
      apply filter_In. split; [exact Ht|].
      now apply negb_true_iff, String.eqb_neq. }
  assert (forall ts row,
            In row (monthlyHistory localeCompare ts) ->
            In (mh_month row) (JS.keys (fold_left monthlyStep ts []))) as Hrow.
  { intros ts row H.
    apply (Permutation_in _ (monthlyHistory_months localeCompare ts)).
    now apply in_map. }
  assert (forall ts k,
            In k (JS.keys (fold_left monthlyStep ts [])) ->
            exists row, In row (monthlyHistory localeCompare ts)
                        /\ mh_month row = k) as Hkey.
  { intros ts k H.
    apply (Permutation_in _ (Permutation_sym
                               (monthlyHistory_months localeCompare ts))) in H.
    apply in_map_iff in H. destruct H as [row [H1 H2]]. now exists row. }
  assert (forall ts row,
            In row (monthlyHistory localeCompare ts) ->
            mh_income row == incomeUnder monthKeyOf (mh_month row) ts
            /\ mh_expense row == expenseUnder monthKeyOf (mh_month row) ts
            /\ mh_net row = mh_income row - mh_expense row) as Hfig.
  { intros ts row H.
    destruct (monthlyHistory_In _ _ _ H) as [e [He Hr]].
    destruct (monthly_rows ts (mh_month row)) as [_ [_ Hv]].
    destruct (Hv e He) as [Hi Hx]. rewrite Hr.
    cbn [toMonthRow mh_income mh_expense mh_net mh_month fst snd].
    repeat split; assumption. }
  split.
  - intros row H. pose proof (Hrow _ _ H) as Hk. apply Hkeys in Hk.
    destruct Hk as [Hne Hk]. split; [exact Hne|].
    destruct (Hkey _ _ Hk) as [row' [H' Hm]]. exists row'.
    destruct (Hfig _ _ H) as [Hi [Hx Hn]].
    destruct (Hfig _ _ H') as [Hi' [Hx' Hn']].
    split; [exact H'|]. split; [exact Hm|].
    assert (mh_income row' == mh_income row) as Ei.
    { rewrite Hi, Hi', Hm. unfold incomeUnder, rest.
      symmetry. now apply sumBy_other_keys. }
    assert (mh_expense row' == mh_expense row) as Ex.
    { rewrite Hx, Hx', Hm. unfold expenseUnder, rest.
      symmetry. now apply sumBy_other_keys. }
    split; [exact Ei|]. split; [exact Ex|].
    rewrite Hn, Hn', Ei, Ex. reflexivity.
  - intros row' H' Hne. apply Hkey, Hkeys. split; [exact Hne|].
    now apply Hrow.
Qed.

(** Of the three months, February is deleted: December and March stay. *)
Lemma handleDeleteMonth_history_threeMonths :
  Permutation
    (map mh_month
         (monthlyHistory codeUnitCompare
            (handleDeleteMonth true true "2024-02" threeMonths)))
    ["2024-03"; "2023-12"]
  /\ forall row,
       In row (monthlyHistory codeUnitCompare
                 (handleDeleteMonth true true "2024-02" threeMonths)) ->
       mh_month row <> "2024-02".
Proof.
  split; [vm_compute; apply Permutation_refl|].
  intros row H.
  assert (String.length "2024-02" = 7%nat) as Hlen by reflexivity.
  destruct (handleDeleteMonth_history codeUnitCompare "2024-02" threeMonths Hlen)
    as [H1 _].
  now destruct (H1 row H).
Defined.

(** ** Changing a budget *)

Lemma In_set_NoDup {V} (k k' : string) (v v' : V) (m : JS.Map V) :
  NoDup (JS.keys m) ->
  In (k', v') (JS.set k v m)
  <-> (k' = k /\ v' = v) \/ (k' <> k /\ In (k', v') m).
Proof.
  induction m as [|[k0 v0] m IH]; cbn [JS.set JS.keys map fst]; intros Hnd.
  - cbn [In]. split.
    + intros [[= -> ->]|[]]. now left.
    + intros [[-> ->]|[_ []]]. now left.
  - inversion Hnd as [|? ? Hk0 Hm]; subst.
    destruct (String.eqb k k0) eqn:E.
    + apply String.eqb_eq in E. subst k0. cbn [In]. split.
      * intros [[= -> ->]|H]; [now left|].
        right. split; [|now right].
        intros ->. apply Hk0. change k with (fst (k, v')). now apply in_map.
      * intros [[-> ->]|[Hne [[= -> _]|H]]];
          [now left | congruence | now right].
    + apply String.eqb_neq in E. cbn [In]. rewrite (IH Hm). split.
      * intros [[= -> ->]|[H|[Hne H]]].
        -- right. split; [congruence | now left].
        -- now left.
        -- right. split; [exact Hne | now right].
      * intros [H|[Hne [H|H]]].
        -- right. now left.
        -- now left.
        -- right. right. now split.
Qed.

Lemma keys_entries_NoDup {V} (o : JS.Map V) :
  NoDup (JS.keys o) -> NoDup (JS.keys (JS.entries o)).
Proof.
  apply Permutation_NoDup. unfold JS.keys.
  apply Permutation_map, Permutation_sym, entries_perm.
Qed.

(** The rows of the budget status, from the budgets. *)
Lemma budgetStatus_In (nowISO : string) (transactions : list Transaction)
    (budgets : JS.Map Q) (r : BudgetRow) :
  In r (budgetStatus nowISO transactions budgets)
  <-> exists e, In e budgets /\ 0 < snd e
                /\ r = toBudgetRow
                         (currentMonthSpending (JS.substring 0 7 nowISO)
                            transactions) e.
Proof.
  unfold budgetStatus, budgetRows. rewrite sort_In, in_map_iff. split.
  - intros [e [<- H]]. apply filter_In in H. destruct H as [H1 H2].
    exists e. split; [|split; [now apply gtb_true | reflexivity]].
    apply (Permutation_in _ (entries_perm budgets)), H1.
  - intros [e [H1 [H2 ->]]]. exists e. split; [reflexivity|].
    apply filter_In. split; [|now apply gtb_true].
    apply (Permutation_in _ (Permutation_sym (entries_perm budgets))), H1.
Qed.

Lemma toBudgetRow_key (spending : JS.Map Q) (e : string * Q) :
  bs_category (toBudgetRow spending e) = fst e
  /\ bs_limit (toBudgetRow spending e) = snd e.
Proof. destruct e as [c l]. now split. Qed.

(** X17.  Changing the budget of a category changes its row of the budget
    status and no other: the rows of the other categories stay; the
    category has a row exactly when the text reads as a number above zero,
    and the limit of that row is that number. *)
Theorem handleBudgetChange_status (parseFloat : string -> option Q)
    (nowISO : string) (transactions : list Transaction)
    (budgets : JS.Map Q) (category value : string) :
  NoDup (JS.keys budgets) ->
  let next := handleBudgetChange parseFloat category value budgets in
  NoDup (JS.keys next)
  /\ (forall r, bs_category r <> category ->
        (In r (budgetStatus nowISO transactions next)
         <-> In r (budgetStatus nowISO transactions budgets)))
  /\ (forall r, In r (budgetStatus nowISO transactions next) ->
        bs_category r = category ->
        parseFloat value = Some (bs_limit r) /\ 0 < bs_limit r)
  /\ (forall v, parseFloat value = Some v -> 0 < v ->
        exists r, In r (budgetStatus nowISO transactions next)
                  /\ bs_category r = category /\ bs_limit r = v).
Proof.
  intros Hnd next.
  pose proof (keys_entries_NoDup budgets Hnd) as Hnd'.
  set (v0 := match parseFloat value with Some v => v | None => 0 end).
  assert (forall k x, In (k, x) next
            <-> (k = category /\ x = v0)
                \/ (k <> category /\ In (k, x) budgets)) as Hin.
  { intros k x. unfold next, handleBudgetChange. cbv zeta. fold v0.
    rewrite (In_set_NoDup _ _ _ _ _ Hnd').
    split; (intros [H|[Hne H]]; [now left | right; split; [exact Hne|]]).
    - apply (Permutation_in _ (entries_perm budgets)), H.
    - apply (Permutation_in _ (Permutation_sym (entries_perm budgets))), H. }
  split; [|split; [|split]].
  - unfold next, handleBudgetChange. now apply NoDup_keys_set.
  - intros r Hr. rewrite !budgetStatus_In.
    split; intros [[k x] [He [Hpos ->]]]; exists (k, x);
      (split; [|split; [exact Hpos | reflexivity]]);
      cbn [toBudgetRow bs_category] in Hr.
    + apply Hin in He. destruct He as [[-> _]|[_ He]]; [congruence | exact He].
    + apply Hin. right. now split.
  - intros r Hr Hcat. apply budgetStatus_In in Hr.
    destruct Hr as [[k x] [He [Hpos ->]]].
    cbn [toBudgetRow bs_category bs_limit snd] in *. subst k.
    apply Hin in He. destruct He as [[_ ->]|[Hne _]]; [|congruence].
    unfold v0 in *. destruct (parseFloat value) as [v|]; [now split|].
    exfalso. apply (Qlt_irrefl 0), Hpos.
  - intros v Hv Hpos.
    exists (toBudgetRow
              (currentMonthSpending (JS.substring 0 7 nowISO) transactions)
              (category, v)).
    split; [|now split].
    apply budgetStatus_In. exists (category, v).
    split; [|split; [exact Hpos | reflexivity]].
    apply Hin. left. split; [reflexivity|]. unfold v0. now rewrite Hv.
Qed.

(** The budget for dining is set to 50, and then cleared. *)
Lemma handleBudgetChange_status_twoBudgets :
  (exists r,
      In r (budgetStatus clockMarch twoOverspent
              (handleBudgetChange parseDigits "Dining" "50" twoBudgets))
      /\ bs_category r = "Dining" /\ bs_limit r = 50)
  /\ forall r,
       In r (budgetStatus clockMarch twoOverspent
               (handleBudgetChange parseDigits "Dining" "" twoBudgets)) ->
       bs_category r <> "Dining".
Proof.
  assert (NoDup (JS.keys twoBudgets)) as Hnd.
  { repeat constructor; cbn; intuition discriminate. }
  split.
  - destruct (handleBudgetChange_status parseDigits clockMarch twoOverspent
                twoBudgets "Dining" "50" Hnd) as [_ [_ [_ H]]].
    apply (H 50); reflexivity.
  - intros r Hr Hcat.
    destruct (handleBudgetChange_status parseDigits clockMarch twoOverspent
                twoBudgets "Dining" "" Hnd) as [_ [_ [H _]]].
    destruct (H r Hr Hcat) as [Hp _]. discriminate Hp.
Defined.

(** ** What the app keeps *)

Lemma react_In (parseFloat : string -> option Q) (ts : list Transaction)
    (e : Event) (t : Transaction) :
  In t (react parseFloat ts e) ->
  In t ts
  \/ exists uuid rate form a,
       e = Submit uuid rate form
       /\ parseFloat (AddTransactionModal.f_amount form) = Some a
       /\ 0 < a
       /\ t = submitted parseFloat uuid rate form a.
Proof.
  destruct e as [uuid rate form|confirmed i|c1 c2 month]; cbn [react].
  - unfold AddTransactionModal.handleSubmit.
    destruct (parseFloat (AddTransactionModal.f_amount form)) as [a|] eqn:E;
      [|now left].
    destruct (JS.gtb a 0) eqn:Ea; [|now left].
    apply gtb_true in Ea. unfold handleAddTransaction.
    intros [<-|H]; [|now left].
    right. exists uuid, rate, form, a. repeat split; assumption.
  - unfold handleDeleteTransaction. destruct confirmed; [|now left].
    intros H. apply filter_In in H. now left.
  - unfold handleDeleteMonth. destruct c1; [|now left].
    destruct c2; [|now left].
    intros H. apply filter_In in H. now left.
Qed.

Lemma run_In (parseFloat : string -> option Q) (es : list Event)
    (stored : list Transaction) (t : Transaction) :
  In t (run parseFloat stored es) ->
  In t stored
  \/ exists uuid rate form a,
       In (Submit uuid rate form) es
       /\ parseFloat (AddTransactionModal.f_amount form) = Some a
       /\ 0 < a
       /\ t = submitted parseFloat uuid rate form a.
Proof.
  unfold run. revert stored.
  induction es as [|e es IH]; intros stored; cbn [fold_left].
  - now left.
  - intros H. apply IH in H.
    destruct H as [H|[uuid [rate [form [a [H1 H2]]]]]].
    + apply react_In in H.
      destruct H as [H|[uuid [rate [form [a [-> H2]]]]]]; [now left|].
      right. exists uuid, rate, form, a. split; [now left | exact H2].
    + right. exists uuid, rate, form, a. split; [now right | exact H2].
Qed.

(** X18.  Whatever is submitted, deleted or called off, every transaction in
    the list is one that the app started with or one that a submission
    made, with the identifier, the rate and the fields of that submission
    and an amount above zero.  So when the amounts that the app started
    with are above zero, all amounts are, the totals are not negative, and
    every row of the budget status has a percentage from 0 to 100. *)
Theorem run_amounts_positive (parseFloat : string -> option Q)
    (stored : list Transaction) (es : list Event) :
  Forall (fun t => 0 < amountAUD t) stored ->
  Forall (fun t =>
            0 < amountAUD t
            /\ (In t stored
                \/ exists uuid rate form a,
                     In (Submit uuid rate form) es
                     /\ parseFloat (AddTransactionModal.f_amount form) = Some a
                     /\ t = submitted parseFloat uuid rate form a))
         (run parseFloat stored es)
  /\ 0 <= totalIncomeAUD (run parseFloat stored es)
  /\ 0 <= totalExpenseAUD (run parseFloat stored es)
  /\ forall nowISO budgets row,
       In row (budgetStatus nowISO (run parseFloat stored es) budgets) ->
       0 <= bs_spent row
       /\ 0 <= bs_percentage row /\ bs_percentage row <= 100.
Proof.
  intros Hstored. rewrite Forall_forall in Hstored.
  assert (forall t, In t (run parseFloat stored es) -> 0 < amountAUD t) as Hpos.
  { intros t Ht. apply run_In in Ht.
    destruct Ht as [Ht|[uuid [rate [form [a [_ [_ [Ha ->]]]]]]]].
    - now apply Hstored.
    - exact Ha. }
  split; [|split; [|split]].
  - apply Forall_forall. intros t Ht. split; [now apply Hpos|].
    apply run_In in Ht.
    destruct Ht as [Ht|[uuid [rate [form [a [H1 [H2 [_ H3]]]]]]]]; [now left|].
    right. now exists uuid, rate, form, a.
  - unfold totalIncomeAUD, incomeTransactions. apply sumBy_nonneg.
    intros t Ht. apply filter_In in Ht. apply Qlt_le_weak, Hpos, Ht.
  - unfold totalExpenseAUD, expenseTransactions. apply sumBy_nonneg.
    intros t Ht. apply filter_In in Ht. apply Qlt_le_weak, Hpos, Ht.
  - intros nowISO budgets row Hrow. unfold budgetStatus in Hrow.
    apply sort_In in Hrow.
    destruct (budgetRows_In _ _ _ _ Hrow) as [_ [Hl [Hs [Hraw [Hp _]]]]].
    assert (0 <= bs_spent row) as Hspent.
    { rewrite Hs. apply currentMonthSpent_nonneg.
      intros t Ht. now apply Qlt_le_weak, Hpos. }
    split; [exact Hspent|]. rewrite Hp, Hraw.
    destruct (percentage_bounds (bs_spent row) (bs_limit row) Hl) as [H1 H2].
    split; [now apply H2 | exact H1].
Qed.

(** The session, from the three months: the amounts stay above zero. *)
Lemma run_amounts_positive_session :
  Forall (fun t => 0 < amountAUD t) (run parseDigits threeMonths session)
  /\ List.length (run parseDigits threeMonths session) = 3%nat.
Proof.
  assert (Forall (fun t => 0 < amountAUD t) threeMonths) as Hstored
    by (repeat constructor).
  destruct (run_amounts_positive parseDigits threeMonths session Hstored)
    as [H _].
  split; [|vm_compute; reflexivity].
  eapply Forall_impl; [|exact H]. intros t Ht. exact (proj1 Ht).
Defined.

(** ** The order of the months *)

(** X19.  Under a collation that is consistent, in that what it puts after is
    not before and not being after is transitive, the monthly history
    lists the months from the last to the first and the monthly trend from
    the first to the last; the months of the history are distinct and the
    net of each row is its income less its expense. *)
Theorem monthly_orders (localTZA : Z -> Z)
    (localeCompare : string -> string -> Q) (transactions : list Transaction) :
  (forall a b, 0 < localeCompare a b -> localeCompare b a <= 0) ->
  (forall a b c, localeCompare a b <= 0 -> localeCompare b c <= 0 ->
                 localeCompare a c <= 0) ->
  StronglySorted (fun r1 r2 => localeCompare (mh_month r2) (mh_month r1) <= 0)
                 (monthlyHistory localeCompare transactions)
  /\ StronglySorted (fun r1 r2 => localeCompare (tr_name r1) (tr_name r2) <= 0)
                    (monthlyData localTZA localeCompare transactions)
  /\ NoDup (map mh_month (monthlyHistory localeCompare transactions))
  /\ Forall (fun row => mh_net row = mh_income row - mh_expense row)
            (monthlyHistory localeCompare transactions).
Proof.
  intros Hanti Htrans. split; [|split; [|split]].
  - unfold monthlyHistory.
    apply (StronglySorted_map toMonthRow
             (fun r1 r2 => localeCompare (mh_month r2) (mh_month r1) <= 0)).
    cbn [toMonthRow mh_month].
    apply (sort_consistent_sorted
             (fun a b : string * MonthAcc => localeCompare (fst b) (fst a))).
    + intros x y. apply Hanti.
    + intros x y z H1 H2. exact (Htrans _ _ _ H2 H1).
  - unfold monthlyData.
    apply (StronglySorted_map toTrendRow
             (fun r1 r2 => localeCompare (tr_name r1) (tr_name r2) <= 0)).
    cbn [toTrendRow tr_name].
    apply (sort_consistent_sorted
             (fun a b : TrendAcc => localeCompare (t_name a) (t_name b))).
    + intros x y. apply Hanti.
    + intros x y z. apply Htrans.
  - eapply Permutation_NoDup;
      [apply Permutation_sym, monthlyHistory_months|].
    apply (monthly_rows transactions "").
  - apply Forall_forall. intros row H.
    destruct (monthlyHistory_In _ _ _ H) as [e [_ ->]]. reflexivity.
Qed.

(** The three months in the order of the code units: March, February,
    December in the history. *)
Lemma monthly_orders_threeMonths :
  map mh_month (monthlyHistory codeUnitCompare threeMonths)
  = ["2024-03"; "2024-02"; "2023-12"]
  /\ StronglySorted
       (fun r1 r2 => codeUnitCompare (mh_month r2) (mh_month r1) <= 0)
       (monthlyHistory codeUnitCompare threeMonths)
  /\ StronglySorted
       (fun r1 r2 => codeUnitCompare (tr_name r1) (tr_name r2) <= 0)
       (monthlyData utcPlus10 codeUnitCompare threeMonths).
Proof.
  split; [vm_compute; reflexivity|].
  destruct (monthly_orders utcPlus10 codeUnitCompare threeMonths
              defaultCompare_antisym defaultCompare_trans) as [H1 [H2 _]].
  now split.
Defined.

(** ** The flag of an overspent budget *)

(** X20.  A row of the budget status is flagged as over exactly when its
    uncapped percentage is above 100; its capped percentage is then 100,
    and it is the uncapped one otherwise. *)
Theorem budgetStatus_over (nowISO : string) (transactions : list Transaction)
    (budgets : JS.Map Q) (row : BudgetRow) :
  In row (budgetStatus nowISO transactions budgets) ->
  (bs_isOver row = true <-> 100 < bs_rawPercentage row)
  /\ (bs_isOver row = true -> bs_percentage row == 100)
  /\ (bs_isOver row = false -> bs_percentage row == bs_rawPercentage row).
Proof.
  intros Hrow. unfold budgetStatus in Hrow. apply sort_In in Hrow.
  destruct (budgetRows_In _ _ _ _ Hrow) as [_ [Hl [_ [Hraw [Hp Hover]]]]].
  assert (bs_limit row < bs_spent row <-> 100 < bs_rawPercentage row) as Hiff.
  { rewrite Hraw. split; intros H.
    - apply (Qmult_lt_r _ _ (/ bs_limit row)) in H;
        [|now apply Qinv_lt_0_compat].
      rewrite Qmult_inv_r in H by lra.
      unfold Qdiv. lra.
    - unfold Qdiv in H.
      assert (1 < bs_spent row * / bs_limit row) as H1 by lra.
      apply (Qmult_lt_r _ _ (bs_limit row)) in H1; [|exact Hl].
      rewrite <- Qmult_assoc, (Qmult_comm (/ _)), Qmult_inv_r in H1 by lra.
      lra. }
  split; [now rewrite Hover|]. split.
  - intros H. apply Hover, Hiff in H. rewrite Hp.
    apply Q.min_r. lra.
  - intros H. rewrite Hp. apply Q.min_l.
    destruct (Qlt_le_dec 100 (bs_rawPercentage row)) as [Hgt|Hle]; [|exact Hle].
    apply Hiff, Hover in Hgt. congruence.
Qed.

(** Scenario B: 120 spent against a budget of 100 is flagged, at a capped
    percentage of 100. *)
Lemma budgetStatus_over_scenarioB :
  exists row,
    In row (budgetStatus clockMarch scenarioB [("Groceries", 100)])
    /\ bs_isOver row = true /\ bs_percentage row == 100.
Proof.
  pose (row := hd (Build_BudgetRow "" 0 0 0 0 false)
                  (budgetStatus clockMarch scenarioB [("Groceries", 100)])).
  assert (In row (budgetStatus clockMarch scenarioB [("Groceries", 100)]))
    as Hin by (vm_compute; now left).
  destruct (budgetStatus_over clockMarch scenarioB [("Groceries", 100)] row Hin)
    as [_ [H _]].
  assert (bs_isOver row = true) as Hover by (vm_compute; reflexivity).
  exists row. split; [exact Hin|]. split; [exact Hover | exact (H Hover)].
Defined.

(** ** Trimmed names *)

Lemma trimEnd_cons (c : ascii) (s : string) :
  JS.trimEnd (String c s)
  = match JS.trimEnd s with
    | EmptyString =>
        if JS.isWhiteSpace c then EmptyString else String c EmptyString
    | r => String c r
    end.
Proof. reflexivity. Qed.

Lemma trimEnd_idempotent (s : string) : JS.trimEnd (JS.trimEnd s) = JS.trimEnd s.
Proof.
  induction s as [|c s IH]; [reflexivity|].
  rewrite (trimEnd_cons c s).
  destruct (JS.trimEnd s) as [|c' r] eqn:E.
  - destruct (JS.isWhiteSpace c) eqn:Ec; [reflexivity|].
    rewrite trimEnd_cons. cbn [JS.trimEnd]. now rewrite Ec.
  - rewrite trimEnd_cons, IH. reflexivity.
Qed.

Lemma trimStart_head (s : string) :
  JS.trimStart s = EmptyString
  \/ exists c r, JS.trimStart s = String c r /\ JS.isWhiteSpace c = false.
Proof.
  induction s as [|c s IH]; cbn [JS.trimStart]; [now left|].
  destruct (JS.isWhiteSpace c) eqn:E; [exact IH|].
  right. now exists c, s.
Qed.

Lemma trimEnd_head (c : ascii) (r : string) :
  JS.isWhiteSpace c = false ->
  exists r', JS.trimEnd (String c r) = String c r'.
Proof.
  intros Hc. rewrite trimEnd_cons. destruct (JS.trimEnd r) as [|c' r'].
  - rewrite Hc. now exists EmptyString.
  - now exists (String c' r').
Qed.

Lemma trim_idempotent (s : string) : JS.trim (JS.trim s) = JS.trim s.
Proof.
  unfold JS.trim.
  destruct (trimStart_head s) as [->|[c [r [-> Hc]]]]; [reflexivity|].
  destruct (trimEnd_head c r Hc) as [r' Hr]. rewrite Hr.
  cbn [JS.trimStart]. rewrite Hc, <- Hr. apply trimEnd_idempotent.
Qed.

(** X21.  The name of every row of the price watch and of the drill-down is a
    trimmed text: trimming it again changes nothing. *)
Theorem row_names_trimmed (transactions : list Transaction)
    (selectedMonth : string) (detailCategory : option string) :
  Forall (fun stat => JS.trim (is_name stat) = is_name stat)
         (itemStats transactions)
  /\ Forall (fun row => JS.trim (nv_name row) = nv_name row)
            (itemizedData transactions selectedMonth detailCategory).
Proof.
  split.
  - apply Forall_forall. intros stat H.
    destruct (itemStats_In _ _ H) as [prices [He Hs]].
    destruct (statOf_fields _ _ _ Hs) as [p0 [rest [Hp _]]].
    assert (In p0 prices) as Hp0 by (rewrite Hp; now left).
    destruct (collected_from _ _ _ _ He Hp0) as [t [i [_ [_ [-> _]]]]].
    apply trim_idempotent.
  - apply Forall_forall. intros row H. unfold itemizedData in H.
    destruct detailCategory as [cat|]; [|destruct H].
    destruct (String.eqb cat ""); [destruct H|].
    apply sort_In in H.
    set (rel := relevantTransactions transactions selectedMonth cat) in *.
    assert (In row (map toNamedValue (itemMap (itemizedLoop rel)))
            \/ nv_name row = manualLabel) as [Hrow| ->].
    { destruct (JS.gtb (manualEntryTotal (itemizedLoop rel)) (1 # 100));
        [|now left].
      apply in_app_iff in H. destruct H as [H|[<-|[]]]; [now left | now right]. }
    + apply in_map_iff in Hrow. destruct Hrow as [[n v] [<- Hn]].
      cbn [toNamedValue nv_name fst].
      destruct (itemizedLoop_buckets rel {| itemMap := []; manualEntryTotal := 0 |})
        as [_ [Hk _]].
      assert (In n (JS.keys (itemMap (itemizedLoop rel)))) as Hin
        by (change n with (fst (n, v)); now apply in_map).
      apply Hk in Hin. destruct Hin as [[]|[t [i [_ [_ <-]]]]].
      apply trim_idempotent.
    + reflexivity.
Qed.

(** ** The export of a month *)

Lemma filter_nil_iff {A} (p : A -> bool) (l : list A) :
  filter p l = [] <-> forall x, In x l -> p x = false.
Proof.
  induction l as [|x l IH]; cbn [filter].
  - split; [intros _ ? [] | reflexivity].
  - destruct (p x) eqn:E.
    + split; [discriminate|]. intros H.
      rewrite (H x (or_introl eq_refl)) in E. discriminate.
    + rewrite IH. split.
      * intros H y [<-|Hy]; [exact E | now apply H].
      * intros H y Hy. apply H. now right.
Qed.

Lemma filter_all {A} (p : A -> bool) (l : list A) :
  filter p l = l <-> forall x, In x l -> p x = true.
Proof.
  induction l as [|x l IH]; cbn [filter].
  - split; [intros _ ? [] | reflexivity].
  - destruct (p x) eqn:E.
    + split.
      * intros [= H] y [<-|Hy]; [exact E | now apply IH].
      * intros H. f_equal. apply IH. intros y Hy. apply H. now right.
    + split.
      * intros H. exfalso.
        assert (In x (filter p l)) as Hx by (rewrite H; now left).
        apply filter_In in Hx. destruct Hx as [_ Hx]. congruence.
      * intros H. rewrite (H x (or_introl eq_refl)) in E. discriminate.
Qed.

(** X22.  The export of a month writes, after the line of the headers, one row
    for each transaction that the deletion of that month removes, in the
    stored order; the export and the deletion split the list between them;
    nothing is offered for download exactly when the deletion would remove
    nothing; and every month of the monthly history has an export. *)
Theorem export_and_delete (toFixed : nat -> Q -> string)
    (numberToString : Q -> string) (localeCompare : string -> string -> Q)
    (month : string) (transactions : list Transaction) :
  Permutation
    (monthTrans month transactions
     ++ handleDeleteMonth true true month transactions)%list
    transactions
  /\ (forall t, In t transactions ->
        (In t (monthTrans month transactions)
         <-> ~ In t (handleDeleteMonth true true month transactions)))
  /\ (handleExportMonth toFixed numberToString month transactions = None
      <-> handleDeleteMonth true true month transactions = transactions)
  /\ (forall file, handleExportMonth toFixed numberToString month transactions
                   = Some file ->
        file
        = (("aus_life_" ++ month ++ ".csv")%string,
           (byteOrderMark
            ++ join lineFeed
                 (join "," csvHeaders
                  :: map (csvRow toFixed numberToString)
                         (monthTrans month transactions)))%string))
  /\ (forall row, In row (monthlyHistory localeCompare transactions) ->
        handleExportMonth toFixed numberToString (mh_month row) transactions
        <> None).
Proof.
  split; [|split; [|split; [|split]]].
  - unfold monthTrans, handleDeleteMonth. apply filter_partition_perm.
  - intros t Ht. unfold monthTrans, handleDeleteMonth.
    rewrite !filter_In. destruct (JS.startsWith (date t) month); cbn [negb].
    + split; [intros _ [_ H]; discriminate | tauto].
    + split; [intros [_ H]; discriminate|]. intros H. exfalso. apply H.
      now split.
  - unfold handleExportMonth, handleDeleteMonth.
    rewrite filter_all.
    assert (monthTrans month transactions = []
            <-> forall x, In x transactions ->
                          negb (JS.startsWith (date x) month) = true) as <-.
    { unfold monthTrans. rewrite filter_nil_iff.
      split; intros H x Hx; specialize (H x Hx);
        destruct (JS.startsWith (date x) month); cbn [negb] in *; congruence. }
    destruct (monthTrans month transactions); split; congruence.
  - intros file. unfold handleExportMonth.
    destruct (monthTrans month transactions) eqn:E; [discriminate|].
    now intros [= <-].
  - intros row Hrow. unfold handleExportMonth.
    assert (In (mh_month row) (JS.keys (fold_left monthlyStep transactions [])))
      as Hk.
    { apply (Permutation_in _ (monthlyHistory_months localeCompare transactions)).
      now apply in_map. }
    destruct (monthly_rows transactions (mh_month row)) as [_ [H _]].
    apply H in Hk. destruct Hk as [t [Ht Hm]].
    assert (In t (monthTrans (mh_month row) transactions)) as Hin.
    { apply filter_In. split; [exact Ht|]. rewrite <- Hm.
      unfold JS.startsWith, monthKeyOf, JS.substring.
      cbn [Nat.min Nat.max Nat.sub]. apply prefix_substring. }
    destruct (monthTrans (mh_month row) transactions); [destruct Hin|].
    discriminate.
Qed.

Lemma string_append_assoc (a b c : string) :
  ((a ++ b) ++ c = a ++ (b ++ c))%string.
Proof.
  induction a as [|x a IH]; cbn [append]; [reflexivity | now rewrite IH].
Qed.

Lemma doubleQuotes_unique (s1 s2 r1 r2 : string) :
  (forall r, r1 <> String quoteChar r) ->
  (forall r, r2 <> String quoteChar r) ->
  (doubleQuotes s1 ++ String quoteChar r1
   = doubleQuotes s2 ++ String quoteChar r2)%string ->
  s1 = s2 /\ r1 = r2.
Proof.
  intros H1 H2. revert s2.
  induction s1 as [|c1 s1 IH]; intros [|c2 s2]; cbn [doubleQuotes append].
  - intros [= ->]. now split.
  - destruct (Ascii.eqb c2 quoteChar) eqn:E2; cbn [append].
    + intros [= H]. exfalso. eapply H1. exact H.
    + intros [= H _]. apply Ascii.eqb_neq in E2. congruence.
  - destruct (Ascii.eqb c1 quoteChar) eqn:E1; cbn [append].
    + intros [= H]. exfalso. eapply H2. symmetry. exact H.
    + intros [= H _]. apply Ascii.eqb_neq in E1. congruence.
  - destruct (Ascii.eqb c1 quoteChar) eqn:E1;
      destruct (Ascii.eqb c2 quoteChar) eqn:E2; cbn [append].
    + apply Ascii.eqb_eq in E1, E2. subst. intros [= H].
      destruct (IH _ H) as [-> ->]. now split.
    + intros [= H _]. apply Ascii.eqb_neq in E2. congruence.
    + intros [= H _]. apply Ascii.eqb_neq in E1. congruence.
    + intros [= -> H]. destruct (IH _ H) as [-> ->]. now split.
Qed.

(** X23.  A quoted field can be read back in one way only: when two quoted
    texts, each followed by something that does not begin with a quotation
    mark, make the same text, they are the same and so is what follows.  So
    the note of a row is its own whatever quotation marks, commas and line
    feeds it holds. *)
Theorem quoted_unique (s1 s2 r1 r2 : string) :
  (forall r, r1 <> String quoteChar r) ->
  (forall r, r2 <> String quoteChar r) ->
  (quoted s1 ++ r1 = quoted s2 ++ r2)%string ->
  s1 = s2 /\ r1 = r2.
Proof.
  intros H1 H2. unfold quoted. cbn [append].
  rewrite !string_append_assoc. cbn [append].
  intros [= H]. now apply doubleQuotes_unique.
Qed.

(** A note that ends in a quotation mark and a comma, followed by the
    comma and the next field of its row. *)
Lemma quoted_unique_comma :
  ("a" ++ String quoteChar ",")%string = ("a" ++ String quoteChar ",")%string
  /\ ",0"%string = ",0"%string.
Proof.
  assert (forall r, ",0"%string <> String quoteChar r) as Hr
    by (intros r; discriminate).
  exact (quoted_unique ("a" ++ String quoteChar ",") ("a" ++ String quoteChar ",")
           ",0" ",0" Hr Hr eq_refl).
Defined.

(** ** The week of the calendar *)

Section CALENDAR.
Local Open Scope Z_scope.

Lemma yearOfEra_bounds (doe : Z) :
  0 <= doe < 146097 ->
  0 <= JS.yearOfEra doe < 400
  /\ 0 <= doe - JS.yearStart (JS.yearOfEra doe) <= 365.
Proof.
  intros H. unfold JS.yearOfEra, JS.yearStart. euclid.
Qed.

Lemma monthOfDay_bounds (doy : Z) :
  0 <= doy <= 365 -> 0 <= JS.monthOfDay doy <= 11.
Proof.
  intros H. unfold JS.monthOfDay. euclid.
Qed.

(** The day number of the civil date of a day number. *)
Lemma days_roundtrip (N : Z) :
  let '(y, m, d) := JS.civilFromDays N in
  1 <= m <= 12 /\ JS.daysFromCivil y m d = N.
Proof.
  unfold JS.civilFromDays. cbv zeta.
  set (z := N + 719468).
  assert (0 <= z mod 146097 < 146097) as Hdoe by (apply Z.mod_pos_bound; lia).
  destruct (yearOfEra_bounds _ Hdoe) as [Hyoe Hdoy].
  set (doe := z mod 146097) in *.
  set (yoe := JS.yearOfEra doe) in *.
  pose proof (monthOfDay_bounds _ Hdoy) as Hmp.
  set (doy := doe - JS.yearStart yoe) in *.
  set (mp := JS.monthOfDay doy) in *.
  pose proof (Z.div_mod z 146097 ltac:(lia)) as Hz. fold doe in Hz.
  assert ((yoe + z / 146097 * 400) / 400 = z / 146097) as Hera.
  { rewrite Z.div_add by lia. rewrite Z.div_small by lia. lia. }
  assert ((yoe + z / 146097 * 400) mod 400 = yoe) as Hmod.
  { rewrite Z_mod_plus_full. apply Z.mod_small. lia. }
  unfold JS.daysFromCivil, JS.monthFromMarch. cbv zeta.
  destruct (mp <? 10) eqn:E1; rewrite ?Z.ltb_lt, ?Z.ltb_ge in E1.
  - destruct (mp + 3 <=? 2) eqn:E2; rewrite ?Z.leb_le, ?Z.leb_gt in E2; [lia|].
    destruct (2 <? mp + 3) eqn:E3; rewrite ?Z.ltb_lt, ?Z.ltb_ge in E3; [|lia].
    split; [lia|]. rewrite Hera, Hmod.
    replace (mp + 3 - 3) with mp by ring. unfold doy, z in *. lia.
  - destruct (mp - 9 <=? 2) eqn:E2; rewrite ?Z.leb_le, ?Z.leb_gt in E2; [|lia].
    destruct (2 <? mp - 9) eqn:E3; rewrite ?Z.ltb_lt, ?Z.ltb_ge in E3; [lia|].
    split; [lia|].
    replace (yoe + z / 146097 * 400 + 1 - 1) with (yoe + z / 146097 * 400) by ring.
    rewrite Hera, Hmod.
    replace (mp - 9 + 9) with mp by ring. unfold doy, z in *. lia.
Qed.

Lemma daysFromCivil_first (y m d : Z) :
  JS.daysFromCivil y m 1 + d - 1 = JS.daysFromCivil y m d.
Proof. unfold JS.daysFromCivil. cbv zeta. ring. Qed.

(** [MakeDay] at the year and the month of a time value counts the days
    from the first of its month. *)
Lemma MakeDay_of_time (t dt : Z) :
  JS.MakeDay (JS.YearFromTime t) (JS.MonthFromTime t) dt
  = JS.Day t - JS.DateFromTime t + dt.
Proof.
  unfold JS.MakeDay, JS.YearFromTime, JS.MonthFromTime, JS.DateFromTime.
  pose proof (days_roundtrip (JS.Day t)) as H.
  destruct (JS.civilFromDays (JS.Day t)) as [[y m] d]. cbn [fst snd].
  destruct H as [Hm Hd].
  rewrite Z.div_small, Z.mod_small by lia.
  replace (y + 0) with y by ring. replace (m - 1 + 1) with m by ring.
  rewrite <- Hd at 1. rewrite <- (daysFromCivil_first y m d). lia.
Qed.

Lemma Day_MakeDate (day time : Z) :
  0 <= time < JS.msPerDay ->
  JS.Day (JS.MakeDate day time) = day
  /\ JS.TimeWithinDay (JS.MakeDate day time) = time.
Proof.
  unfold JS.Day, JS.TimeWithinDay, JS.MakeDate, JS.msPerDay. intros H.
  split.
  - rewrite Z.add_comm, Z.div_add by lia. rewrite Z.div_small by lia. lia.
  - rewrite Z.add_comm, Z_mod_plus_full. apply Z.mod_small. lia.
Qed.

Lemma TimeWithinDay_bound (t : Z) : 0 <= JS.TimeWithinDay t < JS.msPerDay.
Proof. unfold JS.TimeWithinDay, JS.msPerDay. apply Z.mod_pos_bound. lia. Qed.

Lemma Day_TimeWithinDay (t : Z) :
  t = JS.MakeDate (JS.Day t) (JS.TimeWithinDay t).
Proof.
  unfold JS.MakeDate, JS.Day, JS.TimeWithinDay, JS.msPerDay.
  pose proof (Z.div_mod t 86400000 ltac:(lia)). lia.
Qed.

Section WEEK.
Variable localTZA : Z -> Z.
Variable localTZAofLocal : Z -> Z.
Variable now : Z.
Hypothesis local_of_UTC :
  forall x, JS.LocalTime localTZA (JS.UTC localTZAofLocal x) = x.
Hypothesis localTZA_bound : forall x, Z.abs (localTZA x) <= JS.msPerDay.
Hypothesis localTZAofLocal_bound :
  forall x, Z.abs (localTZAofLocal x) <= JS.msPerDay.
Hypothesis now_bound : Z.abs now <= JS.maxTime - 16 * JS.msPerDay.

Let N0 := mondayDay localTZA now.
Let tod := localTimeOfDay localTZA now.

Lemma setDate_local (t dt : Z) :
  JS.setDate localTZA localTZAofLocal dt t
  = JS.TimeClip
      (JS.UTC localTZAofLocal
         (JS.MakeDate
            (JS.Day (JS.LocalTime localTZA t) - JS.getDate localTZA t + dt)
            (JS.TimeWithinDay (JS.LocalTime localTZA t)))).
Proof.
  unfold JS.setDate. cbv zeta. rewrite MakeDay_of_time. reflexivity.
Qed.

Lemma mondayDay_range :
  N0 <= JS.Day (JS.LocalTime localTZA now) <= N0 + 6
  /\ (N0 + 4) mod 7 = 1.
Proof.
  unfold N0, mondayDay, JS.getDay, JS.WeekDay.
  generalize (JS.Day (JS.LocalTime localTZA now)). intros N. euclid.
Qed.

Lemma TimeClip_near (n : Z) :
  N0 <= n <= N0 + 6 ->
  JS.TimeClip (JS.UTC localTZAofLocal (JS.MakeDate n tod))
  = Some (JS.UTC localTZAofLocal (JS.MakeDate n tod)).
Proof.
  intros Hn. unfold JS.TimeClip.
  destruct mondayDay_range as [HN _].
  pose proof (TimeWithinDay_bound (JS.LocalTime localTZA now)) as Htod.
  fold (localTimeOfDay localTZA now) in Htod. fold tod in Htod.
  pose proof (Day_TimeWithinDay (JS.LocalTime localTZA now)) as HL.
  fold (localTimeOfDay localTZA now) in HL. fold tod in HL.
  pose proof (localTZA_bound now) as H1.
  pose proof (localTZAofLocal_bound (JS.MakeDate n tod)) as H2.
  assert (Z.abs (JS.UTC localTZAofLocal (JS.MakeDate n tod))
          <= JS.maxTime) as H; [|now apply Z.leb_le in H; rewrite H].
  unfold JS.UTC, JS.LocalTime, JS.MakeDate, JS.maxTime, JS.msPerDay in *.
  lia.
Qed.

Lemma monday_value :
  WeekCalendar.monday localTZA localTZAofLocal now
  = Some (JS.UTC localTZAofLocal (JS.MakeDate N0 tod)).
Proof.
  unfold WeekCalendar.monday. cbv zeta. rewrite setDate_local.
  replace (JS.Day (JS.LocalTime localTZA now) - JS.getDate localTZA now
           + (JS.getDate localTZA now - JS.getDay localTZA now
              + (if JS.getDay localTZA now =? 0 then -6 else 1)))
    with N0.
  - apply TimeClip_near. lia.
  - unfold N0, mondayDay, JS.getDay, JS.WeekDay.
    generalize (JS.Day (JS.LocalTime localTZA now)). intros N.
    generalize (JS.getDate localTZA now). intros d.
    destruct ((N + 4) mod 7 =? 0) eqn:E;
      rewrite ?Z.eqb_eq, ?Z.eqb_neq in E; euclid.
Qed.

Lemma week_values :
  WeekCalendar.weekDates localTZA localTZAofLocal now
  = map (fun i => Some (JS.UTC localTZAofLocal (JS.MakeDate (N0 + i) tod)))
        [0; 1; 2; 3; 4; 5; 6]
  /\ (forall i, 0 <= i <= 6 ->
        let t := JS.UTC localTZAofLocal (JS.MakeDate (N0 + i) tod) in
        JS.Day (JS.LocalTime localTZA t) = N0 + i
        /\ JS.getDay localTZA t = (1 + i) mod 7
        /\ JS.TimeWithinDay (JS.LocalTime localTZA t) = tod)
  /\ N0 <= JS.Day (JS.LocalTime localTZA now) <= N0 + 6.
Proof.
  pose proof (TimeWithinDay_bound (JS.LocalTime localTZA now)) as Htod.
  fold (localTimeOfDay localTZA now) in Htod. fold tod in Htod.
  destruct mondayDay_range as [HN Hmon].
  assert (forall i, 0 <= i <= 6 ->
            let t := JS.UTC localTZAofLocal (JS.MakeDate (N0 + i) tod) in
            JS.Day (JS.LocalTime localTZA t) = N0 + i
            /\ JS.getDay localTZA t = (1 + i) mod 7
            /\ JS.TimeWithinDay (JS.LocalTime localTZA t) = tod) as Hdays.
  { intros i Hi t. unfold t, JS.getDay, JS.WeekDay.
    rewrite local_of_UTC.
    destruct (Day_MakeDate (N0 + i) tod Htod) as [-> ->].
    repeat split. revert Hmon. generalize N0. intros n Hn. euclid. }
  split; [|split; [exact Hdays | exact HN]].
  unfold WeekCalendar.weekDates. rewrite monday_value.
  apply map_ext_in. intros i Hi.
  assert (0 <= i <= 6) as Hi' by (cbn in Hi; lia).
  rewrite setDate_local.
  destruct (Hdays 0 ltac:(lia)) as [Hd [_ Ht]]. cbv zeta in Hd, Ht.
  replace (N0 + 0) with N0 in Hd, Ht by ring.
  rewrite Hd, Ht.
  replace (N0 - JS.getDate localTZA (JS.UTC localTZAofLocal (JS.MakeDate N0 tod))
           + (JS.getDate localTZA (JS.UTC localTZAofLocal (JS.MakeDate N0 tod)) + i))
    with (N0 + i) by ring.
  apply TimeClip_near. lia.
Qed.
End WEEK.

(** X24.  On a host whose local times all exist, with offsets of a day at most,
    and for a time value not within sixteen days of the ends of time: the
    week of the calendar is seven valid dates, the Monday to the Sunday of
    the week of today in local time, one day apart, each at the local time
    of day of today. *)
Theorem weekDates_week (localTZA localTZAofLocal : Z -> Z) (now : Z) :
  (forall x, JS.LocalTime localTZA (JS.UTC localTZAofLocal x) = x) ->
  (forall x, Z.abs (localTZA x) <= JS.msPerDay) ->
  (forall x, Z.abs (localTZAofLocal x) <= JS.msPerDay) ->
  Z.abs now <= JS.maxTime - 16 * JS.msPerDay ->
  let N0 := mondayDay localTZA now in
  let tod := localTimeOfDay localTZA now in
  WeekCalendar.weekDates localTZA localTZAofLocal now
  = map (fun i => Some (JS.UTC localTZAofLocal (JS.MakeDate (N0 + i) tod)))
        [0; 1; 2; 3; 4; 5; 6]
  /\ (forall i, 0 <= i <= 6 ->
        let t := JS.UTC localTZAofLocal (JS.MakeDate (N0 + i) tod) in
        JS.Day (JS.LocalTime localTZA t) = N0 + i
        /\ JS.getDay localTZA t = (1 + i) mod 7
        /\ JS.TimeWithinDay (JS.LocalTime localTZA t) = tod)
  /\ N0 <= JS.Day (JS.LocalTime localTZA now) <= N0 + 6.
Proof.
  intros H1 H2 H3 H4. exact (week_values localTZA localTZAofLocal now H1 H2 H3 H4).
Qed.

(** Sunday morning, ten hours ahead of UTC: the first date of the week is
    a Monday in local time, six days before. *)
Lemma weekDates_week_sundayMorning :
  exists t,
    nth_error (WeekCalendar.weekDates utcPlus10 utcPlus10 sundayMorning) 0
    = Some (Some t)
    /\ JS.getDay utcPlus10 t = 1
    /\ JS.Day (JS.LocalTime utcPlus10 t)
       = JS.Day (JS.LocalTime utcPlus10 sundayMorning) - 6.
Proof.
  assert (forall x, JS.LocalTime utcPlus10 (JS.UTC utcPlus10 x) = x) as H1
    by (intros x; unfold JS.LocalTime, JS.UTC, utcPlus10; lia).
  assert (forall x, Z.abs (utcPlus10 x) <= JS.msPerDay) as H2
    by (intros x; vm_compute; discriminate).
  assert (Z.abs sundayMorning <= JS.maxTime - 16 * JS.msPerDay) as H4
    by (vm_compute; discriminate).
  destruct (weekDates_week utcPlus10 utcPlus10 sundayMorning H1 H2 H2 H4)
    as [Hweek [Hdays _]].
  destruct (Hdays 0 ltac:(lia)) as [Hd [Hw _]]. cbv zeta in Hd, Hw.
  eexists. split; [rewrite Hweek; reflexivity|].
  split; [exact Hw|]. rewrite Hd. vm_compute. reflexivity.
Defined.

Lemma nth_error_week {A} (f : Z -> A) (i : Z) :
  0 <= i <= 6 ->
  nth_error (map f [0; 1; 2; 3; 4; 5; 6]) (Z.to_nat i) = Some (f i).
Proof.
  intros H.
  assert (i = 0 \/ i = 1 \/ i = 2 \/ i = 3 \/ i = 4 \/ i = 5 \/ i = 6) as Hi
    by lia.
  repeat (destruct Hi as [->|Hi]; [reflexivity|]). subst. reflexivity.
Qed.

(** X25.  On a host at a fixed offset from UTC: the date of the week that falls
    on the weekday of today is today itself, so that its key is the key of
    today; the key of every date of the week is the date in UTC, which is
    the date in local time moved by the whole days between the local time
    of day and the offset, while the number shown is the day of the month
    in local time. *)
Theorem weekDates_keys (tz now : Z) :
  Z.abs tz <= JS.msPerDay ->
  Z.abs now <= JS.maxTime - 16 * JS.msPerDay ->
  let week := WeekCalendar.weekDates (fun _ => tz) (fun _ => tz) now in
  let N0 := mondayDay (fun _ => tz) now in
  let tod := localTimeOfDay (fun _ => tz) now in
  nth_error week (Z.to_nat ((JS.getDay (fun _ => tz) now + 6) mod 7))
  = Some (Some now)
  /\ forall i t, 0 <= i <= 6 ->
       nth_error week (Z.to_nat i) = Some (Some t) ->
       WeekCalendar.formatDateKey t
       = JS.isoDate (N0 + i + (tod - tz) / JS.msPerDay)
       /\ JS.getDate (fun _ => tz) t = snd (JS.civilFromDays (N0 + i)).
Proof.
  intros Htz Hnow week N0 tod.
  assert (forall x, JS.LocalTime (fun _ => tz) (JS.UTC (fun _ => tz) x) = x)
    as Hround by (intros x; unfold JS.LocalTime, JS.UTC; lia).
  destruct (weekDates_week (fun _ => tz) (fun _ => tz) now Hround
              (fun _ => Htz) (fun _ => Htz) Hnow) as [Hweek [Hdays HN]].
  fold week in Hweek. fold N0 in Hweek, Hdays, HN. fold tod in Hweek, Hdays.
  pose proof (TimeWithinDay_bound (JS.LocalTime (fun _ => tz) now)) as Htod.
  fold (localTimeOfDay (fun _ => tz) now) in Htod. fold tod in Htod.
  split.
  - rewrite Hweek, nth_error_week
      by (pose proof (Z.mod_pos_bound (JS.getDay (fun _ => tz) now + 6) 7); lia).
    do 2 f_equal.
    pose proof (Day_TimeWithinDay (JS.LocalTime (fun _ => tz) now)) as HL.
    fold (localTimeOfDay (fun _ => tz) now) in HL. fold tod in HL.
    assert (N0 + (JS.getDay (fun _ => tz) now + 6) mod 7
            = JS.Day (JS.LocalTime (fun _ => tz) now)) as ->
      by (unfold N0, mondayDay; lia).
    rewrite <- HL. unfold JS.UTC, JS.LocalTime. lia.
  - intros i t Hi Ht. rewrite Hweek, nth_error_week in Ht by exact Hi.
    injection Ht as <-.
    destruct (Hdays i Hi) as [Hd _]. cbv zeta in Hd. split.
    + unfold WeekCalendar.formatDateKey. f_equal.
      unfold JS.Day, JS.UTC, JS.MakeDate, JS.msPerDay in *.
      replace ((N0 + i) * 86400000 + tod - tz)
        with ((tod - tz) + (N0 + i) * 86400000) by ring.
      rewrite Z.div_add by lia. ring.
    + unfold JS.getDate, JS.DateFromTime. now rewrite Hd.
Qed.

(** Sunday morning at eight, ten hours ahead of UTC: the Monday of the
    week shows a 4 and has the key of the third of March. *)
Lemma weekDates_keys_sundayMorning :
  exists t,
    nth_error (WeekCalendar.weekDates utcPlus10 utcPlus10 sundayMorning) 0
    = Some (Some t)
    /\ WeekCalendar.formatDateKey t = "2024-03-03"
    /\ JS.getDate utcPlus10 t = 4.
Proof.
  assert (Z.abs 36000000 <= JS.msPerDay) as Htz by (vm_compute; discriminate).
  assert (Z.abs sundayMorning <= JS.maxTime - 16 * JS.msPerDay) as Hnow
    by (vm_compute; discriminate).
  destruct (weekDates_keys 36000000 sundayMorning Htz Hnow) as [_ H].
  pose (t := 1709503200000).
  assert (nth_error (WeekCalendar.weekDates utcPlus10 utcPlus10 sundayMorning) 0
          = Some (Some t)) as Ht by (vm_compute; reflexivity).
  destruct (H 0 t ltac:(lia) Ht) as [Hk Hl].
  exists t. split; [exact Ht|]. split.
  - rewrite Hk. vm_compute. reflexivity.
  - change (JS.getDate utcPlus10 t) with (JS.getDate (fun _ => 36000000) t).
    rewrite Hl. vm_compute. reflexivity.
Defined.

End CALENDAR.

(** ** The figures of the insight *)

(** X26.  Without transactions the insight returns its fixed text and sends no
    prompt.  Otherwise the prompt is given the totals of the app and their
    difference, the first thirty transactions of the list, or all of them
    when there are fewer, and a savings rate: the net as a percentage of
    the income, formatted, when the income is above zero, and 0 when it is
    not.  When the income is above zero and no amount is negative, that
    percentage is at most 100, and below zero exactly when the expense
    exceeds the income. *)
Theorem insight_figures (toFixed : nat -> Q -> string)
    (transactions : list Transaction) :
  (transactions = [] ->
   GeminiService.getFinancialInsight toFixed transactions
   = inl GeminiService.noData)
  /\ (transactions <> [] ->
      exists p,
        GeminiService.getFinancialInsight toFixed transactions = inr p
        /\ GeminiService.p_totalIncome p = totalIncomeAUD transactions
        /\ GeminiService.p_totalExpense p = totalExpenseAUD transactions
        /\ GeminiService.p_net p = netAssetsAUD transactions
        /\ (0 < totalIncomeAUD transactions ->
            GeminiService.p_savingsRate p
            = toFixed 1%nat (netAssetsAUD transactions
                             / totalIncomeAUD transactions * 100))
        /\ (totalIncomeAUD transactions <= 0 ->
            GeminiService.p_savingsRate p = "0")
        /\ GeminiService.p_recentTransactions p = firstn 30 transactions)
  /\ (0 < totalIncomeAUD transactions ->
      (forall t, In t transactions -> 0 <= amountAUD t) ->
      let rate :=
        netAssetsAUD transactions / totalIncomeAUD transactions * 100 in
      rate <= 100
      /\ (rate < 0
          <-> totalIncomeAUD transactions < totalExpenseAUD transactions))
  /\ List.length (firstn 30 transactions)
     = Nat.min 30 (List.length transactions)
  /\ exists older, transactions = (firstn 30 transactions ++ older)%list.
Proof.
  split; [|split; [|split; [|split]]].
  - intros ->. reflexivity.
  - intros Hne. destruct transactions as [|t ts]; [contradiction|].
    eexists. split; [reflexivity|].
    cbn [GeminiService.p_totalIncome GeminiService.p_totalExpense
         GeminiService.p_net GeminiService.p_savingsRate
         GeminiService.p_recentTransactions].
    split; [reflexivity|]. split; [reflexivity|]. split; [reflexivity|].
    split; [|split; [|reflexivity]].
    + intros H. unfold GeminiService.savingsRate.
      change (GeminiService.totalIncome (t :: ts))
        with (totalIncomeAUD (t :: ts)).
      apply gtb_true in H. rewrite H. reflexivity.
    + intros H. unfold GeminiService.savingsRate.
      change (GeminiService.totalIncome (t :: ts))
        with (totalIncomeAUD (t :: ts)).
      apply gtb_false in H. rewrite H. reflexivity.
  - intros Hinc Hpos rate. unfold rate, netAssetsAUD.
    set (inc := totalIncomeAUD transactions) in *.
    set (exp := totalExpenseAUD transactions) in *.
    assert (0 <= exp) as Hexp.
    { unfold exp, totalExpenseAUD, expenseTransactions. apply sumBy_nonneg.
      intros t Ht. apply filter_In in Ht. now apply Hpos. }
    assert ((inc - exp) / inc * 100 == 100 - exp / inc * 100) as Hrate
      by (field; lra).
    assert (0 <= exp / inc) as Hq.
    { unfold Qdiv. apply Qmult_le_0_compat; [exact Hexp|].
      apply Qlt_le_weak, Qinv_lt_0_compat, Hinc. }
    rewrite Hrate. split; [lra|]. split; intros H.
    + assert (1 < exp / inc) as H1 by lra.
      apply (Qmult_lt_r _ _ inc Hinc) in H1.
      unfold Qdiv in H1.
      rewrite <- Qmult_assoc, (Qmult_comm (/ inc)), Qmult_inv_r in H1 by lra.
      lra.
    + assert (1 < exp / inc); [|lra].
      apply Qlt_shift_div_l; [exact Hinc | lra].
  - apply length_firstn.
  - exists (skipn 30 transactions). symmetry. apply firstn_skipn.
Qed.
